(** * CopilotMonitor: adapter, SDK service and thread-history hooks

    A shallow embedding of

    - [src/services/copilot-backend.ts]  (module [CopilotBackend]),
    - [src/services/copilot-sdk.ts]      (module [CopilotSdk]),
    - the history and detached-review parts of [useThreads]
      (module [UseThreads]),
    - [useThreadAccountInfo] and [useThreadRateLimits]
      (modules [AccountInfo] and [Hooks]),
    - the line reader of [acp-smoke.mjs] (module [AcpSmoke]).

    JavaScript values are embedded as the inductive [value]; JavaScript
    objects used as dictionaries are finite maps of their own properties,
    read through [UseThreads.read] where a member of [Object.prototype]
    can be met; the module-level [workspaceClients] map, the clock and the
    outbound calls are threaded through an explicit [World]. *)

From Stdlib Require Import ZArith List String Ascii Permutation.
From stdpp Require Import gmap strings list fin_maps pretty.

Local Open Scope string_scope.
Local Open Scope list_scope.
Local Open Scope Z_scope.

(** ** JavaScript values *)

#[local] Set Warnings "-register-all".

(** Numbers are integers: the program handles timestamps and counts. An
    object literal is the list of its properties in insertion order. *)
Inductive value : Type :=
| VUndefined
| VNull
| VBool (b : bool)
| VNum (n : Z)
| VStr (s : string)
| VArr (xs : list value)
| VObj (fields : list (string * value)).

(** The outcome of evaluating JavaScript code that may [throw]. *)
Inductive js (A : Type) : Type :=
| Ok (a : A)
| Throw (msg : string).
Arguments Ok {A} a.
Arguments Throw {A} msg.

Module Js.

(** Own-property lookup in an object literal. *)
Fixpoint assoc (k : string) (fs : list (string * value)) : option value :=
  match fs with
  | [] => None
  | (k', v) :: fs' => if String.eqb k k' then Some v else assoc k fs'
  end.

(** [o.k]: a [TypeError] on [undefined] and [null], [undefined] for a
    missing property and for primitives and arrays (none of the property
    names read by the adapter exists on a prototype). *)
Definition get (o : value) (k : string) : js value :=
  match o with
  | VUndefined | VNull =>
      Throw ("TypeError: Cannot read properties of undefined (reading '"
               +:+ k +:+ "')")
  | VObj fs => Ok (default VUndefined (assoc k fs))
  | _ => Ok VUndefined
  end.

Definition nullish (v : value) : bool :=
  match v with
  | VUndefined | VNull => true
  | _ => false
  end.

(** [v ?? d] *)
Definition coalesce (v d : value) : value :=
  if nullish v then d else v.

(** [o?.k] *)
Definition getOpt (o : value) (k : string) : value :=
  match o with
  | VObj fs => default VUndefined (assoc k fs)
  | _ => VUndefined
  end.

(** [ToBoolean] *)
Definition truthy (v : value) : bool :=
  match v with
  | VUndefined | VNull => false
  | VBool b => b
  | VNum n => negb (n =? 0)
  | VStr s => negb (String.eqb s "")
  | VArr _ | VObj _ => true
  end.

(** [k in o]: a [TypeError] unless [o] is an object. *)
Definition has (k : string) (o : value) : js bool :=
  match o with
  | VObj fs => Ok (bool_decide (is_Some (assoc k fs)))
  | VArr _ => Ok false
  | _ => Throw "TypeError: Cannot use 'in' operator"
  end.

(** [o[k] = v] on an object literal: an existing key keeps its place. *)
Fixpoint set {A} (k : string) (v : A) (fs : list (string * A))
  : list (string * A) :=
  match fs with
  | [] => [(k, v)]
  | (k', v') :: fs' =>
      if String.eqb k k' then (k, v) :: fs' else (k', v') :: set k v fs'
  end.

(** [{...a, ...b}] *)
Definition spread (a b : list (string * value)) : list (string * value) :=
  fold_left (fun acc kv => set kv.1 kv.2 acc) b a.

Definition bind {A B} (m : js A) (f : A -> js B) : js B :=
  match m with
  | Ok a => f a
  | Throw e => Throw e
  end.

(** *** JSON.stringify *)

Definition quoteChar : ascii := "034"%char.
Definition backslash : ascii := "092"%char.

Definition hexDigit (n : nat) : ascii :=
  nth n ["0"; "1"; "2"; "3"; "4"; "5"; "6"; "7"; "8"; "9";
         "a"; "b"; "c"; "d"; "e"; "f"]%char "0"%char.

Definition escapeChar (c : ascii) : string :=
  let n := nat_of_ascii c in
  if Ascii.eqb c quoteChar then String backslash (String quoteChar EmptyString)
  else if Ascii.eqb c backslash
    then String backslash (String backslash EmptyString)
  else if Nat.eqb n 8 then String backslash "b"
  else if Nat.eqb n 9 then String backslash "t"
  else if Nat.eqb n 10 then String backslash "n"
  else if Nat.eqb n 12 then String backslash "f"
  else if Nat.eqb n 13 then String backslash "r"
  else if Nat.ltb n 32
    then String backslash
           (String "u" (String "0" (String "0"
             (String (hexDigit (Nat.div n 16))
                (String (hexDigit (Nat.modulo n 16)) EmptyString)))))
  else String c EmptyString.

Fixpoint escape (s : string) : string :=
  match s with
  | EmptyString => EmptyString
  | String c s' => escapeChar c +:+ escape s'
  end.

Definition quote (s : string) : string :=
  String quoteChar (escape s +:+ String quoteChar EmptyString).

(** What [String.concat] writes before a last element. *)
Definition concatHead (sep : string) (l : list string) : string :=
  match l with
  | [] => EmptyString
  | _ => String.concat sep l +:+ sep
  end.

(** One property of an object, printed with [pr]: nothing for a property
    whose value is [undefined]. *)
Definition printField (pr : value -> string) (kv : string * value)
  : list string :=
  match kv with
  | (k, VUndefined) => []
  | (k, v) => [quote k +:+ ":" +:+ pr v]
  end.

(** [JSON.stringify] of a value other than [undefined]: a property whose
    value is [undefined] is left out, an [undefined] array element is
    written [null]. *)
Fixpoint stringify (v : value) : string :=
  match v with
  | VUndefined | VNull => "null"
  | VBool true => "true"
  | VBool false => "false"
  | VNum n => pretty n
  | VStr s => quote s
  | VArr xs => "[" +:+ String.concat "," (map stringify xs) +:+ "]"
  | VObj fs =>
      "{" +:+ String.concat "," (flat_map (printField stringify) fs) +:+ "}"
  end.

End Js.

Notation "x <-? m ; k" := (Js.bind m (fun x => k))
  (at level 100, m at next level, right associativity).

(** ** Events *)

(** [SessionEvent] of the SDK, restricted to the fields the adapter reads. *)
Record SessionEvent : Type := mkSessionEvent {
  ev_type : string;
  ev_id : option string;       (* [None]: [undefined] or [null] *)
  ev_data : value;
}.

(** [AppServerEvent["message"]] *)
Record Message : Type := mkMessage {
  msg_id : option string;
  method : string;
  params : value;
}.

Record AppServerEvent : Type := mkAppServerEvent {
  workspace_id : string;
  message : Message;
}.

(** ** src/services/copilot-backend.ts: the event adapter *)

Module Adapter.

Definition mapEventToMethod (event : SessionEvent) : option string :=
  let t := ev_type event in
  if String.eqb t "session.idle" then Some "turn/completed"
  else if String.eqb t "session.error" then Some "error"
  else if String.eqb t "assistant.message" then Some "item/completed"
  else if String.eqb t "assistant.message_delta"
    then Some "item/agentMessage/delta"
  else if String.eqb t "tool.execution_start" then Some "item/started"
  else if String.eqb t "tool.execution_complete" then Some "item/completed"
  else if String.eqb t "assistant.reasoning"
    then Some "item/reasoning/textDelta"
  else if String.eqb t "assistant.reasoning_delta"
    then Some "item/reasoning/textDelta"
  else if String.eqb t "assistant.turn_start" then Some "turn/started"
  else if String.eqb t "assistant.turn_end" then Some "turn/completed"
  else None.

(** [event.id ?? "current"] *)
Definition idOrCurrent (event : SessionEvent) : value :=
  VStr (default "current" (ev_id event)).

Definition turnParams (workspaceId : string) (turnId : value) : value :=
  VObj [("threadId", VStr workspaceId);
        ("turn", VObj [("id", turnId); ("threadId", VStr workspaceId)])].

(** The second [switch] of [transformEvent]: the [params] of a mapped
    event. *)
Definition mappedParams (workspaceId : string) (event : SessionEvent)
  : js value :=
  let t := ev_type event in
  let data := ev_data event in
  if String.eqb t "assistant.message_delta" then
    deltaContent <-? Js.get data "deltaContent";
    Ok (VObj [("threadId", VStr workspaceId);
              ("itemId", idOrCurrent event);
              ("delta", Js.coalesce deltaContent (VStr ""))])
  else if String.eqb t "assistant.message" then
    content <-? Js.get data "content";
    Ok (VObj [("threadId", VStr workspaceId);
              ("item", VObj [("id", idOrCurrent event);
                             ("type", VStr "agentMessage");
                             ("text", Js.coalesce content (VStr ""))])])
  else if String.eqb t "session.idle" then
    Ok (turnParams workspaceId (VStr "current"))
  else if String.eqb t "session.error" then
    msg <-? Js.get data "message";
    errorType <-? Js.get data "errorType";
    Ok (VObj [("threadId", VStr workspaceId);
              ("turnId", VStr "current");
              ("error", VObj [("message",
                                Js.coalesce msg (VStr "Unknown error"));
                              ("code", errorType)]);
              ("willRetry", VBool false)])
  else if String.eqb t "tool.execution_start" then
    toolCallId <-? Js.get data "toolCallId";
    toolName <-? Js.get data "toolName";
    args <-? Js.get data "arguments";
    Ok (VObj [("threadId", VStr workspaceId);
              ("item", VObj [("id", Js.coalesce toolCallId (VStr "tool"));
                             ("type", VStr "tool");
                             ("toolType",
                               Js.coalesce toolName (VStr "unknown"));
                             ("status", VStr "running");
                             ("arguments", args)])])
  else if String.eqb t "tool.execution_complete" then
    toolCallId <-? Js.get data "toolCallId";
    success <-? Js.get data "success";
    result <-? Js.get data "result";
    output <-?
      (if Js.nullish (Js.getOpt result "content") then
         error <-? Js.get data "error";
         Ok (Js.coalesce (Js.getOpt error "message") (VStr ""))
       else Ok (Js.getOpt result "content"));
    Ok (VObj [("threadId", VStr workspaceId);
              ("item", VObj [("id", Js.coalesce toolCallId (VStr "tool"));
                             ("type", VStr "tool");
                             ("toolType", VStr "unknown");
                             ("status",
                               VStr (if Js.truthy success
                                     then "completed" else "error"));
                             ("output", output)])])
  else if String.eqb t "assistant.reasoning"
          || String.eqb t "assistant.reasoning_delta" then
    hasDelta <-? Js.has "deltaContent" data;
    delta <-?
      (if (hasDelta : bool) then Js.get data "deltaContent"
       else content <-? Js.get data "content";
            Ok (Js.coalesce content (VStr "")));
    Ok (VObj [("threadId", VStr workspaceId);
              ("itemId", VStr "reasoning");
              ("delta", delta)])
  else if String.eqb t "assistant.turn_start" then
    Ok (turnParams workspaceId (idOrCurrent event))
  else if String.eqb t "assistant.turn_end" then
    Ok (turnParams workspaceId (idOrCurrent event))
  else
    Ok (Js.coalesce data (VObj [])).

(** [transformEvent] returns [AppServerEvent | null]. *)
Definition transformEvent (workspaceId : string) (event : SessionEvent)
  : js (option AppServerEvent) :=
  match mapEventToMethod event with
  | None =>
      Ok (Some {| workspace_id := workspaceId;
                  message := {| msg_id := None;
                                method := "copilot/" +:+ ev_type event;
                                params := Js.coalesce (ev_data event)
                                            (VObj []) |} |})
  | Some m =>
      p <-? mappedParams workspaceId event;
      Ok (Some {| workspace_id := workspaceId;
                  message := {| msg_id := None;
                                method := m;
                                params := p |} |})
  end.

(** The mapped types whose [params] are read from [event.data]. *)
Definition readsData (t : string) : bool :=
  existsb (String.eqb t)
    ["assistant.message_delta"; "assistant.message"; "session.error";
     "tool.execution_start"; "tool.execution_complete";
     "assistant.reasoning"; "assistant.reasoning_delta"].

(** The types whose data is tested with ["deltaContent" in event.data]. *)
Definition testsData (t : string) : bool :=
  existsb (String.eqb t) ["assistant.reasoning"; "assistant.reasoning_delta"].

(** A boolean, a number or a string. *)
Definition primitive (v : value) : bool :=
  match v with
  | VBool _ | VNum _ | VStr _ => true
  | _ => false
  end.

(** The events at which [transformEvent] throws a [TypeError]: a property
    read of [undefined] or [null], or [in] applied to a primitive. *)
Definition throwsOn (event : SessionEvent) : bool :=
  Js.nullish (ev_data event) && readsData (ev_type event)
  || primitive (ev_data event) && testsData (ev_type event).

End Adapter.

(** ** The world outside the program

    [workspaceClients] is the module-level map of copilot-sdk.ts, [now] is
    what [Date.now()] returns, and [calls] records, in program order, every
    call that leaves the program: events handed to [emitAppServerEvent] and
    requests made on SDK objects. *)

(** A [CopilotClient], identified by the options it was created with. *)
Record CopilotClient : Type := mkClient {
  cwd : string;
  cliPath : option string;
  cliArgs : option (list string);
}.

Record CopilotSession : Type := mkSession {
  sessionId : string;
}.

Record CopilotWorkspaceClient : Type := mkWorkspaceClient {
  client : CopilotClient;
  session : option CopilotSession;
  workspacePath : string;
  connected : bool;
}.

Record MessageOptions : Type := mkMessageOptions {
  prompt : string;
  attachments : option (list string);   (* paths, each sent as a file *)
}.

Inductive Call : Type :=
| EmitAppServerEvent (e : AppServerEvent)
| SessionDestroy (s : CopilotSession)
| SessionOn (s : CopilotSession)
| SessionSend (s : CopilotSession) (o : MessageOptions)
| SessionAbort (s : CopilotSession)
| ClientCreateSession (c : CopilotClient) (config : value)
| ClientListModels (c : CopilotClient)
| ClientGetAuthStatus (c : CopilotClient).

Record World : Type := mkWorld {
  workspaceClients : gmap string CopilotWorkspaceClient;
  now : Z;
  calls : list Call;
}.

(** What the SDK hands back, as far as the program reads it. *)
Record ModelInfo : Type := mkModelInfo {
  model_id : string;
  model_name : option string;
}.

Record GetAuthStatusResponse : Type := mkAuthStatus {
  isAuthenticated : bool;
  login : option string;
}.

(** The behaviour of the SDK objects: each request is answered or rejected,
    possibly depending on everything that happened before. *)
Record Sdk : Type := mkSdk {
  session_destroy : World -> CopilotSession -> js unit;
  session_send : World -> CopilotSession -> MessageOptions -> js string;
  session_abort : World -> CopilotSession -> js unit;
  client_createSession : World -> CopilotClient -> value -> js CopilotSession;
  client_listModels : World -> CopilotClient -> js (list ModelInfo);
  client_getAuthStatus : World -> CopilotClient -> js GetAuthStatusResponse;
}.

(** Programs: a state monad over [World] in which a computation may throw;
    what was done before the throw stays done. *)
Definition M (A : Type) : Type := World -> js A * World.

Module MonadM.

Definition ret {A} (a : A) : M A := fun w => (Ok a, w).

Definition throw {A} (msg : string) : M A := fun w => (Throw msg, w).

Definition bind {A B} (m : M A) (f : A -> M B) : M B :=
  fun w =>
    match m w with
    | (Ok a, w') => f a w'
    | (Throw e, w') => (Throw e, w')
    end.

Definition getWorld : M World := fun w => (Ok w, w).

Definition record (c : Call) : M unit :=
  fun w => (Ok tt, {| workspaceClients := workspaceClients w;
                      now := now w;
                      calls := calls w ++ [c] |}).

(** Make the call [c] and wait for the answer [answer] gives. *)
Definition await {A} (c : Call) (answer : World -> js A) : M A :=
  fun w =>
    let w' := {| workspaceClients := workspaceClients w;
                 now := now w;
                 calls := calls w ++ [c] |} in
    (answer w, w').

(** [workspace.session = s] on the entry of [workspaceId]. *)
Definition setSession (workspaceId : string) (s : option CopilotSession)
  : M unit :=
  fun w =>
    (Ok tt,
     {| workspaceClients :=
          alter (fun ws => {| client := client ws;
                              session := s;
                              workspacePath := workspacePath ws;
                              connected := connected ws |})
                workspaceId (workspaceClients w);
        now := now w;
        calls := calls w |}).

End MonadM.

Notation "x <- m ;; k" := (MonadM.bind m (fun x => k))
  (at level 100, m at next level, right associativity).
Notation "m ;;; k" := (MonadM.bind m (fun _ => k))
  (at level 100, right associativity).

(** [emitAppServerEvent] of services/events.ts hands the event to the
    subscribers; here it is recorded. *)
Definition emitAppServerEvent (e : AppServerEvent) : M unit :=
  MonadM.record (EmitAppServerEvent e).

(** ** src/services/copilot-sdk.ts *)

Module CopilotSdk.
Section WithSdk.

Variable sdk : Sdk.

Definition notConnected (workspaceId : string) : string :=
  "Workspace " +:+ workspaceId +:+ " is not connected".

Definition noActiveSession (workspaceId : string) : string :=
  "No active session for workspace " +:+ workspaceId.

(** [session.on(event => globalEventCallback?.(workspaceId, event))] *)
Definition subscribe (s : CopilotSession) : M unit :=
  MonadM.record (SessionOn s).

Definition sessionConfig (config : option (list (string * value))) : value :=
  let model :=
    Js.coalesce (default VUndefined (Js.assoc "model" (default [] config)))
                (VStr "claude-sonnet-4") in
  VObj (Js.spread [("model", model); ("streaming", VBool true)]
                  (default [] config)).

Definition createSession (workspaceId : string)
    (config : option (list (string * value))) : M string :=
  w <- MonadM.getWorld ;;
  match workspaceClients w !! workspaceId with
  | None => MonadM.throw (notConnected workspaceId)
  | Some workspace =>
      (match session workspace with
       | Some old =>
           MonadM.await (SessionDestroy old)
             (fun w => session_destroy sdk w old) ;;;
           MonadM.setSession workspaceId None
       | None => MonadM.ret tt
       end) ;;;
      let cfg := sessionConfig config in
      s <- MonadM.await (ClientCreateSession (client workspace) cfg)
             (fun w => client_createSession sdk w (client workspace) cfg) ;;
      MonadM.setSession workspaceId (Some s) ;;;
      subscribe s ;;;
      MonadM.ret (sessionId s)
  end.

Definition messageOptions (text : string) (images : option (list string))
  : MessageOptions :=
  {| prompt := text;
     attachments := match images with
                    | Some (p :: ps) => Some (p :: ps)
                    | _ => None
                    end |}.

(** [sendMessage]; of its [options] only [images] is read. *)
Definition sendMessage (workspaceId text : string)
    (images : option (list string)) : M string :=
  w <- MonadM.getWorld ;;
  match workspaceClients w !! workspaceId ≫= session with
  | None => MonadM.throw (noActiveSession workspaceId)
  | Some s =>
      let o := messageOptions text images in
      MonadM.await (SessionSend s o) (fun w => session_send sdk w s o)
  end.

Definition abortSession (workspaceId : string) : M unit :=
  w <- MonadM.getWorld ;;
  match workspaceClients w !! workspaceId ≫= session with
  | None => MonadM.ret tt
  | Some s => MonadM.await (SessionAbort s) (fun w => session_abort sdk w s)
  end.

Definition listModels (workspaceId : string) : M (list (string * string)) :=
  w <- MonadM.getWorld ;;
  match workspaceClients w !! workspaceId with
  | None => MonadM.throw (notConnected workspaceId)
  | Some workspace =>
      models <- MonadM.await (ClientListModels (client workspace))
                  (fun w => client_listModels sdk w (client workspace)) ;;
      MonadM.ret
        (map (fun m => (model_id m, default (model_id m) (model_name m)))
             models)
  end.

Definition getAuthStatus (workspaceId : string)
  : M (bool * option string) :=
  w <- MonadM.getWorld ;;
  match workspaceClients w !! workspaceId with
  | None => MonadM.throw (notConnected workspaceId)
  | Some workspace =>
      status <- MonadM.await (ClientGetAuthStatus (client workspace))
                  (fun w => client_getAuthStatus sdk w (client workspace)) ;;
      MonadM.ret (isAuthenticated status, login status)
  end.

End WithSdk.
End CopilotSdk.

(** ** src/services/copilot-backend.ts: commands *)

Module CopilotBackend.
Section WithSdk.

Variable sdk : Sdk.

(** The callback [initCopilotBackend] installs with
    [setGlobalEventCallback]. *)
Definition onSessionEvent (workspaceId : string) (event : SessionEvent)
  : M unit :=
  match Adapter.transformEvent workspaceId event with
  | Throw e => MonadM.throw e
  | Ok (Some transformedEvent) => emitAppServerEvent transformedEvent
  | Ok None => MonadM.ret tt
  end.

(** [`turn-${Date.now()}`] *)
Definition turnId (t : Z) : string := "turn-" +:+ pretty t.

Definition turnStarted (workspaceId threadId : string) (t : Z)
  : AppServerEvent :=
  {| workspace_id := workspaceId;
     message :=
       {| msg_id := None;
          method := "turn/started";
          params :=
            VObj [("threadId", VStr threadId);
                  ("turn", VObj [("id", VStr (turnId t));
                                 ("threadId", VStr threadId)])] |} |}.

Definition sendUserMessage (workspaceId _threadId text : string)
    (images : option (list string)) : M unit :=
  w <- MonadM.getWorld ;;
  emitAppServerEvent (turnStarted workspaceId _threadId (now w)) ;;;
  CopilotSdk.sendMessage sdk workspaceId text images ;;;
  MonadM.ret tt.

Definition interruptTurn (workspaceId : string) : M unit :=
  CopilotSdk.abortSession sdk workspaceId.

Definition listModels (workspaceId : string) : M (list (string * string)) :=
  result <- CopilotSdk.listModels sdk workspaceId ;;
  MonadM.ret (map (fun m => (m.1, m.2)) result).

Definition getAccountInfo (workspaceId : string)
  : M (bool * option string) :=
  CopilotSdk.getAuthStatus sdk workspaceId.

Definition threadStarted (workspaceId sessionId : string) (t : Z)
  : AppServerEvent :=
  {| workspace_id := workspaceId;
     message :=
       {| msg_id := None;
          method := "thread/started";
          params :=
            VObj [("thread", VObj [("id", VStr sessionId);
                                   ("name", VNull);
                                   ("createdAt", VNum t)])] |} |}.

Definition startThread (workspaceId : string) (model : value) : M string :=
  sessionId <- CopilotSdk.createSession sdk workspaceId
                 (Some [("model", model)]) ;;
  w <- MonadM.getWorld ;;
  emitAppServerEvent (threadStarted workspaceId sessionId (now w)) ;;;
  MonadM.ret sessionId.

End WithSdk.
End CopilotBackend.

(** ** The thread state machine

    [ThreadStatus] is what [state.threadStatusById] holds, as far as the
    code under study reads it. *)

Record ThreadStatus : Type := mkThreadStatus {
  isProcessing : bool;
  isReviewing : bool;
}.

Module ThreadStateMachine.

Record Threads : Type := mkThreads {
  threadStatusById : gmap string ThreadStatus;
  activeTurnIdByThread : gmap string string;
}.

Definition initial : Threads :=
  {| threadStatusById := ∅; activeTurnIdByThread := ∅ |}.

Definition statusOf (t : Threads) (threadId : string) : ThreadStatus :=
  default {| isProcessing := false; isReviewing := false |}
          (threadStatusById t !! threadId).

Definition stringOf (v : value) : option string :=
  match v with
  | VStr s => Some s
  | _ => None
  end.

Definition startTurn (threadId turn : string) (t : Threads) : Threads :=
  {| threadStatusById :=
       <[threadId := {| isProcessing := true;
                        isReviewing := isReviewing (statusOf t threadId) |}]>
         (threadStatusById t);
     activeTurnIdByThread := <[threadId := turn]> (activeTurnIdByThread t) |}.

Definition endTurn (threadId : string) (t : Threads) : Threads :=
  {| threadStatusById :=
       <[threadId := {| isProcessing := false; isReviewing := false |}]>
         (threadStatusById t);
     activeTurnIdByThread := delete threadId (activeTurnIdByThread t) |}.

(** Modelled from the spec: the reducer and the event handlers that apply
    a canonical event to the thread state (useThreadsReducer,
    useThreadEventHandlers, useAppServerEvents) are not under src/.
    Section 4.3: [turn/started] sets Processing and the active turn id of
    the turn's thread; [turn/completed] and [error] clear Processing,
    Reviewing and the active turn id; no other method changes the
    status. *)
Definition applyEvent (e : AppServerEvent) (t : Threads) : Threads :=
  let p := params (message e) in
  let m := method (message e) in
  if String.eqb m "turn/started" then
    match stringOf (Js.getOpt (Js.getOpt p "turn") "threadId"),
          stringOf (Js.getOpt (Js.getOpt p "turn") "id") with
    | Some threadId, Some turn => startTurn threadId turn t
    | _, _ => t
    end
  else if String.eqb m "turn/completed" then
    match stringOf (Js.getOpt (Js.getOpt p "turn") "threadId") with
    | Some threadId => endTurn threadId t
    | None => t
    end
  else if String.eqb m "error" then
    match stringOf (Js.getOpt p "threadId") with
    | Some threadId => endTurn threadId t
    | None => t
    end
  else t.

Definition applyCall (t : Threads) (c : Call) : Threads :=
  match c with
  | EmitAppServerEvent e => applyEvent e t
  | _ => t
  end.

(** The thread state after the events emitted so far, in order. *)
Definition threadsOf (w : World) : Threads :=
  fold_left applyCall (calls w) initial.

(** One direction of the invariant of section 8, for Processing: a thread
    that is Processing has an active turn. *)
Definition turnsConsistent (t : Threads) : Prop :=
  forall T st, threadStatusById t !! T = Some st ->
               isProcessing st = true ->
               is_Some (activeTurnIdByThread t !! T).

(** Modelled from the spec: the orchestrator's reaction to the answer of an
    interrupt is not under src/. Section 4.3, Interrupt: on backend
    acknowledgement the state machine force-clears Processing and the
    active turn id of the thread, even if no [turn/completed] arrives. *)
Definition interruptAcknowledged (threadId : string) (t : Threads) : Threads :=
  {| threadStatusById :=
       alter (fun st => {| isProcessing := false;
                           isReviewing := isReviewing st |})
             threadId (threadStatusById t);
     activeTurnIdByThread := delete threadId (activeTurnIdByThread t) |}.

(** Modelled from the spec: the interrupt command of the orchestrator for
    thread [threadId] of workspace [workspaceId] is not under src/.
    Section 4.3: it sends the cancellation request, here
    [CopilotBackend.interruptTurn], and applies [interruptAcknowledged]
    when the backend acknowledges that request. The result is the outcome
    and world of the request and the thread state after it. *)
Definition interrupt (sdk : Sdk) (workspaceId threadId : string) (w : World)
  : (js unit * World) * Threads :=
  let r := CopilotBackend.interruptTurn sdk workspaceId w in
  let acknowledged :=
    match workspaceClients w !! workspaceId ≫= session, r.1 with
    | Some _, Ok _ => true
    | _, _ => false
    end in
  (r, if acknowledged then interruptAcknowledged threadId (threadsOf r.2)
      else threadsOf r.2).

End ThreadStateMachine.

(** ** Debug entries

    [DebugEntry] as the hooks build it for the optional [onDebug]
    callback. *)

Record DebugEntry : Type := mkDebugEntry {
  d_id : string;
  d_timestamp : Z;
  d_source : string;
  d_label : string;
  d_payload : value;
}.

(** ** useThreads: history merge, history save, detached reviews *)

Module UseThreads.

(** [ThreadSummary]: the code reads [id] and [updatedAt]. *)
Record ThreadSummary : Type := mkThreadSummary {
  ts_id : string;
  ts_name : string;
  ts_updatedAt : option Z;
}.

(** Modelled from the spec: types.ts is not under src/. Section 3: a
    conversation item is a tagged variant over message(role, text),
    tool-call(toolType, status, arguments, output), reasoning(text), diff
    and plan. *)
Inductive ConversationItem : Type :=
| ItemMessage (id role text : string)
| ItemTool (id toolType status : string) (arguments output : value)
| ItemReasoning (id text : string)
| ItemDiff (id diff : string)
| ItemPlan (id : string) (plan : value).

(** A snapshot as read from disk or as built for saving. The fields the
    code checks before use carry an [option]: [None] for [snap_threads]
    and for an item log means "not an array", a [None] thread is a
    [null] entry. *)
Record ThreadHistorySnapshot : Type := mkSnapshot {
  version : Z;
  snap_workspaceId : string;
  snap_activeThreadId : option string;
  snap_threads : option (list (option ThreadSummary));
  snap_itemsByThread :
    option (list (string * option (list ConversationItem)));
  snap_threadParentById : option (list (string * value));
  savedAt : Z;
}.

Inductive ThreadAction : Type :=
| setThreads (workspaceId : string) (threads : list ThreadSummary)
| setThreadItems (threadId : string) (items : list ConversationItem)
| setLastAgentMessage (threadId text : string) (timestamp : Z)
| setThreadParent (threadId parentId : string)
| setActiveThreadId (workspaceId : string) (threadId : option string)
| setThreadTimestamp (workspaceId threadId : string) (timestamp : Z)
| addAssistantMessage (threadId text : string)
| markUnread (threadId : string) (hasUnread : bool).

(** What a callback of the hook does besides updating its refs, in
    program order. *)
Inductive HookCall : Type :=
| dispatch (a : ThreadAction)
| markReviewing (threadId : string) (isReviewing : bool)
| markProcessing (threadId : string) (isProcessing : bool)
| setActiveTurnId (threadId : string) (turnId : option string)
| recordThreadActivity (workspaceId threadId : string) (timestamp : Z)
| safeMessageActivity
| saveThreadHistory (workspaceId : string) (snapshot : ThreadHistorySnapshot)
| loadThreadHistory (workspaceId : string)
| onDebug (entry : DebugEntry).

(** The reducer state the callbacks close over. The refs of the hook
    ([loadedThreadsRef], [detachedReviewNoticeRef], [lastSavedHistoryRef])
    are passed to the callback that uses them and returned updated. *)
Record ThreadState : Type := mkThreadState {
  threadsByWorkspace : gmap string (list ThreadSummary);
  itemsByThread : gmap string (list ConversationItem);
  threadParentById : gmap string string;
  threadStatusById : gmap string ThreadStatus;
  activeThreadIdByWorkspace : gmap string (option string);
}.

Definition nonEmpty (s : string) : bool := negb (String.eqb s "").

(** *** Reading a plain object

    The objects of the reducer state and of the refs are plain objects
    keyed by a workspace or thread id; the finite maps hold their own
    properties. [o[k]] finds, besides them, what every plain object
    inherits from [Object.prototype]. *)

(** The property names of [Object.prototype]. *)
Definition inheritedNames : list string :=
  ["constructor"; "__defineGetter__"; "__defineSetter__"; "hasOwnProperty";
   "__lookupGetter__"; "__lookupSetter__"; "isPrototypeOf";
   "propertyIsEnumerable"; "toString"; "valueOf"; "__proto__";
   "toLocaleString"].

Definition inherited (k : string) : bool :=
  existsb (String.eqb k) inheritedNames.

(** What [o[k]] is: an own property, the member [k] of
    [Object.prototype] (a function, or for [__proto__] the prototype
    itself), or [undefined]. *)
Inductive Read (A : Type) : Type :=
| Own (a : A)
| Inherited (k : string)
| Absent.
Arguments Own {A} a.
Arguments Inherited {A} k.
Arguments Absent {A}.

Definition read {A} (o : gmap string A) (k : string) : Read A :=
  match o !! k with
  | Some a => Own a
  | None => if inherited k then Inherited k else Absent
  end.

(** [m.length] for an inherited member [m]: the number of parameters of
    the function; [__proto__] is inherited as [Object.prototype] itself,
    which has no [length]. *)
Definition inheritedLength (k : string) : option Z :=
  if String.eqb k "__proto__" then None
  else if existsb (String.eqb k) ["toString"; "valueOf"; "toLocaleString"]
  then Some 0
  else if existsb (String.eqb k) ["__defineGetter__"; "__defineSetter__"]
  then Some 2
  else Some 1.

(** [ref[k] = true] on a plain object: an assignment to [__proto__] goes to
    the inherited setter, which ignores a boolean, unless the object has an
    own property of that name. *)
Definition assignTrue (k : string) (ref : gmap string bool)
  : gmap string bool :=
  match ref !! k with
  | None => if String.eqb k "__proto__" then ref else <[k := true]> ref
  | Some _ => <[k := true]> ref
  end.

(** *** applyThreadHistory *)

(** [(a, b) => (b.updatedAt ?? 0) - (a.updatedAt ?? 0)] *)
Definition compareThreads (a b : ThreadSummary) : Z :=
  default 0 (ts_updatedAt b) - default 0 (ts_updatedAt a).

Fixpoint insertThread (x : ThreadSummary) (l : list ThreadSummary)
  : list ThreadSummary :=
  match l with
  | [] => [x]
  | y :: l' =>
      if compareThreads x y <=? 0 then x :: l else y :: insertThread x l'
  end.

(** [Array.prototype.sort] with [compareThreads]: a stable sort. *)
Definition sortThreads (l : list ThreadSummary) : list ThreadSummary :=
  foldr insertThread [] l.

(** [thread?.id && !existingIds.has(thread.id)] *)
Definition isAddition (existingIds : gset string)
    (thread : option ThreadSummary) : option ThreadSummary :=
  match thread with
  | Some t =>
      if nonEmpty (ts_id t) && bool_decide (ts_id t ∉ existingIds)
      then Some t else None
  | None => None
  end.

Definition additionsOf (state : ThreadState) (workspaceId : string)
    (snapshot : ThreadHistorySnapshot) : list ThreadSummary :=
  let persistedThreads := default [] (snap_threads snapshot) in
  let existingThreads :=
    default [] (threadsByWorkspace state !! workspaceId) in
  let existingIds : gset string := list_to_set (map ts_id existingThreads) in
  omap (isAddition existingIds) persistedThreads.

Definition mergedThreadsOf (state : ThreadState) (workspaceId : string)
    (snapshot : ThreadHistorySnapshot) : list ThreadSummary :=
  sortThreads (default [] (threadsByWorkspace state !! workspaceId)
                 ++ additionsOf state workspaceId snapshot).

Definition isAssistantMessage (item : ConversationItem) : bool :=
  match item with
  | ItemMessage _ role _ => String.eqb role "assistant"
  | _ => false
  end.

(** [itemsByThread[k]] on the snapshot's object. *)
Fixpoint itemsFor (k : string)
    (o : list (string * option (list ConversationItem)))
  : option (list ConversationItem) :=
  match o with
  | [] => None
  | (k', v) :: o' => if String.eqb k k' then v else itemsFor k o'
  end.

(** [(state.itemsByThread[threadId] ?? []).length === 0] *)
Definition liveLogEmpty (state : ThreadState) (threadId : string) : bool :=
  match read (itemsByThread state) threadId with
  | Own items => (length items =? 0)%nat
  | Inherited k => bool_decide (inheritedLength k = Some 0)
  | Absent => true
  end.

(** The body of [mergedThreads.forEach]. *)
Definition restoreThread (state : ThreadState) (now : Z)
    (itemsByThread' : list (string * option (list ConversationItem)))
    (thread : ThreadSummary) (acc : list HookCall * gmap string bool)
  : list HookCall * gmap string bool :=
  match itemsFor (ts_id thread) itemsByThread' with
  | None | Some [] => acc
  | Some items =>
      let c1 := if liveLogEmpty state (ts_id thread)
                then [dispatch (setThreadItems (ts_id thread) items)]
                else [] in
      let c2 := match List.find isAssistantMessage (rev items) with
                | Some (ItemMessage _ _ text) =>
                    [dispatch (setLastAgentMessage (ts_id thread) text
                                 (default now (ts_updatedAt thread)))]
                | _ => []
                end in
      (acc.1 ++ c1 ++ c2, assignTrue (ts_id thread) acc.2)
  end.

(** [typeof parentId === "string" && parentId] *)
Definition restoreParent (entry : string * value) : list HookCall :=
  match entry.2 with
  | VStr parentId =>
      if nonEmpty parentId
      then [dispatch (setThreadParent entry.1 parentId)] else []
  | _ => []
  end.

(** [!state.activeThreadIdByWorkspace[workspaceId]] *)
Definition noSelection (state : ThreadState) (workspaceId : string) : bool :=
  match read (activeThreadIdByWorkspace state) workspaceId with
  | Own (Some s) => String.eqb s ""
  | Own None => true
  | Inherited _ => false
  | Absent => true
  end.

(** [applyThreadHistory], a callback that closes over [state]: the reducer
    state of the render that created it. It throws, before it dispatches
    anything, when [state.threadsByWorkspace[workspaceId]] is an inherited
    member, which has no [map]. *)
Definition applyThreadHistory (state : ThreadState) (now : Z)
    (workspaceId : string) (snapshot : ThreadHistorySnapshot)
    (loaded : gmap string bool)
  : js (list HookCall * gmap string bool) :=
  let itemsByThread' := default [] (snap_itemsByThread snapshot) in
  match read (threadsByWorkspace state) workspaceId with
  | Inherited _ => Throw "existingThreads.map is not a function"
  | _ =>
      let existingThreads :=
        default [] (threadsByWorkspace state !! workspaceId) in
      let additions := additionsOf state workspaceId snapshot in
      let mergedThreads := mergedThreadsOf state workspaceId snapshot in
      let c1 :=
        if (0 <? length mergedThreads)%nat && (0 <? length additions)%nat
        then [dispatch (setThreads workspaceId mergedThreads)]
        else if (length existingThreads =? 0)%nat
                && (0 <? length mergedThreads)%nat
        then [dispatch (setThreads workspaceId mergedThreads)]
        else [] in
      let r := fold_left (fun acc thread =>
                            restoreThread state now itemsByThread' thread acc)
                         mergedThreads ([], loaded) in
      let c3 := flat_map restoreParent
                  (default [] (snap_threadParentById snapshot)) in
      let c4 :=
        match snap_activeThreadId snapshot with
        | Some a =>
            if nonEmpty a && noSelection state workspaceId
            then [dispatch (setActiveThreadId workspaceId (Some a))] else []
        | None => []
        end in
      Ok (c1 ++ r.1 ++ c3 ++ c4, r.2)
  end.

(** *** The load effect

    The effect of l.292-316 runs after a render and starts the load of the
    active workspace's history, once per workspace. The
    [applyThreadHistory] it calls when the snapshot arrives is the one of
    that render: it reads [rendered], the state of the render in which the
    effect ran, whatever the reducer state has become while
    [loadThreadHistory] was pending ([historyLoadedRef] keeps the effect
    from running again with a later callback). [answer] is what
    [loadThreadHistory] of services/tauri resolves or rejects with, [t1]
    and [t2] are the two readings of the clock for a debug entry. The
    report to [onDebug] is the last action of the discarded promise, so
    what the callback returns or throws changes nothing of the result,
    which holds what the effect does, [historyLoadedRef.current] and
    [loadedThreadsRef.current]. *)
Definition loadHistoryEffect (rendered : ThreadState) (now : Z)
    (activeWorkspaceId : option string)
    (answer : js (option ThreadHistorySnapshot))
    (hasOnDebug : bool) (t1 t2 : Z)
    (historyLoaded loaded : gmap string bool)
  : list HookCall * gmap string bool * gmap string bool :=
  let report (error : string) :=
    if hasOnDebug
    then [onDebug {| d_id := pretty t1
                               +:+ "-client-thread-history-load-error";
                     d_timestamp := t2;
                     d_source := "error";
                     d_label := "thread/history load error";
                     d_payload := VStr error |}]
    else [] in
  match activeWorkspaceId with
  | None => ([], historyLoaded, loaded)
  | Some workspaceId =>
      if String.eqb workspaceId "" then ([], historyLoaded, loaded)
      else
        match read historyLoaded workspaceId with
        | Own true | Inherited _ => ([], historyLoaded, loaded)
        | _ =>
            let historyLoaded' := assignTrue workspaceId historyLoaded in
            match answer with
            | Throw error =>
                (loadThreadHistory workspaceId :: report error,
                 historyLoaded', loaded)
            | Ok None =>
                ([loadThreadHistory workspaceId], historyLoaded', loaded)
            | Ok (Some snapshot) =>
                match applyThreadHistory rendered now workspaceId snapshot
                        loaded with
                | Ok (cs, loaded') =>
                    (loadThreadHistory workspaceId :: cs,
                     historyLoaded', loaded')
                | Throw error =>
                    (loadThreadHistory workspaceId :: report error,
                     historyLoaded', loaded)
                end
            end
        end
  end.

(** *** handleReviewExited *)

Definition noticeKey (parentId threadId : string) : string :=
  parentId +:+ "->" +:+ threadId.

Definition noticeText (threadId : string) : string :=
  "Detached review completed. [Open review thread](/thread/"
    +:+ threadId +:+ ")".

(** l.430-479. [threadParentById] is read at its own properties: a review
    thread whose id names a member of [Object.prototype] and that has no
    parent of its own would read that member, under whose text no status
    is stored, so that nothing is done for it either. *)
Definition handleReviewExited (state : ThreadState)
    (activeThreadId : option string) (now : Z)
    (workspaceId threadId : string) (notified : gset string)
  : list HookCall * gset string :=
  match threadParentById state !! threadId with
  | None => ([], notified)
  | Some parentId =>
      if negb (nonEmpty parentId) || String.eqb parentId threadId
      then ([], notified)
      else if negb (default false
                      (isReviewing <$> threadStatusById state !! parentId))
      then ([], notified)
      else
        let timestamp := now in
        let key := noticeKey parentId threadId in
        let alreadyNotified := bool_decide (key ∈ notified) in
        ([markReviewing parentId false;
          markProcessing parentId false;
          setActiveTurnId parentId None;
          recordThreadActivity workspaceId parentId timestamp;
          dispatch (setThreadTimestamp workspaceId parentId timestamp)]
           ++ (if alreadyNotified then []
               else [dispatch (addAssistantMessage parentId
                                 (noticeText threadId))])
           ++ (if bool_decide (Some parentId ≠ activeThreadId)
               then [dispatch (markUnread parentId true)] else [])
           ++ [safeMessageActivity],
         if alreadyNotified then notified else {[key]} ∪ notified)
  end.

(** One exit of a review thread: the state and the active thread that the
    callback handling it closed over, the clock, the workspace and the
    thread. *)
Record ReviewExit : Type := mkReviewExit {
  ex_state : ThreadState;
  ex_active : option string;
  ex_now : Z;
  ex_workspaceId : string;
  ex_threadId : string;
}.

(** The exits handled one after the other, [detachedReviewNoticeRef]
    carried from each to the next. *)
Definition handleReviewExits (exits : list ReviewExit) (notified : gset string)
  : list HookCall * gset string :=
  fold_left (fun acc x =>
               let r := handleReviewExited (ex_state x) (ex_active x)
                          (ex_now x) (ex_workspaceId x) (ex_threadId x)
                          acc.2 in
               (acc.1 ++ r.1, r.2))
            exits ([], notified).

(** [state.threadStatusById[parentId]?.isReviewing], as a boolean. *)
Definition reviewing (state : ThreadState) (parentId : string) : bool :=
  default false (isReviewing <$> threadStatusById state !! parentId).

(** [s] does not contain ["->"], the separator of [noticeKey]. *)
Fixpoint arrowFree (s : string) : bool :=
  match s with
  | EmptyString => true
  | String c s' =>
      negb (Ascii.eqb c "-"
            && match s' with
               | String d _ => Ascii.eqb d ">"
               | EmptyString => false
               end)
      && arrowFree s'
  end.

(** *** buildThreadHistorySnapshot and the save timer *)

Definition threadValue (t : ThreadSummary) : value :=
  VObj [("id", VStr (ts_id t));
        ("name", VStr (ts_name t));
        ("updatedAt", match ts_updatedAt t with
                      | Some n => VNum n
                      | None => VUndefined
                      end)].

Definition itemValue (item : ConversationItem) : value :=
  match item with
  | ItemMessage id role text =>
      VObj [("id", VStr id); ("kind", VStr "message");
            ("role", VStr role); ("text", VStr text)]
  | ItemTool id toolType status arguments output =>
      VObj [("id", VStr id); ("kind", VStr "tool");
            ("toolType", VStr toolType); ("status", VStr status);
            ("arguments", arguments); ("output", output)]
  | ItemReasoning id text =>
      VObj [("id", VStr id); ("kind", VStr "reasoning");
            ("text", VStr text)]
  | ItemDiff id diff =>
      VObj [("id", VStr id); ("kind", VStr "diff"); ("diff", VStr diff)]
  | ItemPlan id plan =>
      VObj [("id", VStr id); ("kind", VStr "plan"); ("plan", plan)]
  end.

(** The fields of a snapshot object that precede [savedAt]. *)
Definition snapshotFields (s : ThreadHistorySnapshot)
  : list (string * value) :=
  [("version", VNum (version s));
   ("workspaceId", VStr (snap_workspaceId s));
   ("activeThreadId", match snap_activeThreadId s with
                      | Some a => VStr a
                      | None => VNull
                      end);
   ("threads",
     match snap_threads s with
     | Some ts => VArr (map (fun t => match t with
                                      | Some t => threadValue t
                                      | None => VNull
                                      end) ts)
     | None => VNull
     end);
   ("itemsByThread",
     match snap_itemsByThread s with
     | Some o => VObj (map (fun kv =>
                              (kv.1, match kv.2 with
                                     | Some items =>
                                         VArr (map itemValue items)
                                     | None => VNull
                                     end)) o)
     | None => VNull
     end);
   ("threadParentById",
     match snap_threadParentById s with
     | Some o => VObj o
     | None => VNull
     end)].

(** The snapshot as the object handed to [JSON.stringify]. *)
Definition snapshotValue (s : ThreadHistorySnapshot) : value :=
  VObj (snapshotFields s ++ [("savedAt", VNum (savedAt s))]).

(** l.259-290, for a workspace id and thread ids that name no member of
    [Object.prototype] (see [inherited]), so that every lookup reads an own
    property. The two objects hold their properties in insertion order,
    the order in which [JSON.stringify] writes ids that are not array
    indices. *)
Definition buildThreadHistorySnapshot (state : ThreadState) (now : Z)
    (workspaceId : string) : ThreadHistorySnapshot :=
  let threads := default [] (threadsByWorkspace state !! workspaceId) in
  let itemsByThread' :=
    fold_left (fun acc thread =>
                 match itemsByThread state !! ts_id thread with
                 | Some (i :: items) =>
                     Js.set (ts_id thread) (Some (i :: items)) acc
                 | _ => acc
                 end) threads [] in
  let threadParentById' :=
    fold_left (fun acc thread =>
                 match threadParentById state !! ts_id thread with
                 | Some parentId =>
                     if nonEmpty parentId
                     then Js.set (ts_id thread) (VStr parentId) acc
                     else acc
                 | None => acc
                 end) threads [] in
  {| version := 1;
     snap_workspaceId := workspaceId;
     snap_activeThreadId :=
       default None (activeThreadIdByWorkspace state !! workspaceId);
     snap_threads := Some (map Some threads);
     snap_itemsByThread := Some itemsByThread';
     snap_threadParentById := Some threadParentById';
     savedAt := now |}.

(** The body of [workspaceIds.forEach] in the save timer: what is
    written, and the new [lastSavedHistoryRef.current]. *)
Definition saveWorkspace (state : ThreadState) (now : Z)
    (acc : list HookCall * gmap string string) (workspaceId : string)
  : list HookCall * gmap string string :=
  let snapshot := buildThreadHistorySnapshot state now workspaceId in
  let serialized := Js.stringify (snapshotValue snapshot) in
  if bool_decide (acc.2 !! workspaceId = Some serialized) then acc
  else (acc.1 ++ [saveThreadHistory workspaceId snapshot],
        <[workspaceId := serialized]> acc.2).

(** *** Reading a callback's calls *)

(** The [addAssistantMessage] actions among [cs]: thread and text. *)
Definition assistantMessages (cs : list HookCall) : list (string * string) :=
  omap (fun c => match c with
                 | dispatch (addAssistantMessage threadId text) =>
                     Some (threadId, text)
                 | _ => None
                 end) cs.

(** The [markUnread] actions among [cs]. *)
Definition unreadMarks (cs : list HookCall) : list (string * bool) :=
  omap (fun c => match c with
                 | dispatch (markUnread threadId hasUnread) =>
                     Some (threadId, hasUnread)
                 | _ => None
                 end) cs.

(** The [setThreads] and [setThreadItems] actions among [cs]. *)
Definition threadLists (cs : list HookCall)
  : list (string * list ThreadSummary) :=
  omap (fun c => match c with
                 | dispatch (setThreads workspaceId threads) =>
                     Some (workspaceId, threads)
                 | _ => None
                 end) cs.

Definition itemLogs (cs : list HookCall)
  : list (string * list ConversationItem) :=
  omap (fun c => match c with
                 | dispatch (setThreadItems threadId items) =>
                     Some (threadId, items)
                 | _ => None
                 end) cs.

(** The merge that history load is to perform on workspace [W], read
    against [live], the reducer state the dispatched actions [cs] meet: a
    thread list set for [W] holds every live thread of [W] and, besides
    them, only threads of the snapshot whose id no live thread has; and an
    item log is set only for a thread whose live log is empty. *)
Definition additive (live : ThreadState) (W : string)
    (snapshot : ThreadHistorySnapshot) (cs : list HookCall) : Prop :=
  let liveThreads := default [] (threadsByWorkspace live !! W) in
  (forall threads, (W, threads) ∈ threadLists cs ->
      (forall t, t ∈ liveThreads -> t ∈ threads)
      /\ (forall t, t ∈ threads ->
            t ∈ liveThreads
            \/ (Some t ∈ default [] (snap_threads snapshot)
                /\ ts_id t ∉ map ts_id liveThreads)))
  /\ (forall threadId items, (threadId, items) ∈ itemLogs cs ->
        default [] (itemsByThread live !! threadId) = []).

(** The snapshots written by [saveThreadHistory] among [cs]. *)
Definition writes (cs : list HookCall) : list (string * ThreadHistorySnapshot) :=
  omap (fun c => match c with
                 | saveThreadHistory workspaceId snapshot =>
                     Some (workspaceId, snapshot)
                 | _ => None
                 end) cs.

End UseThreads.

(** ** Concrete inputs used by the examples below *)

Module Examples.

(** The native event of the turn-start scenario. *)
Definition turnStartEvent : SessionEvent :=
  {| ev_type := "assistant.turn_start";
     ev_id := Some "t1";
     ev_data := VObj [] |}.

(** The canonical event as the scenario writes it: [params] holds the
    turn and nothing else. *)
Definition scenarioTurnStarted (W : string) : AppServerEvent :=
  {| workspace_id := W;
     message :=
       {| msg_id := None;
          method := "turn/started";
          params := VObj [("turn", VObj [("id", VStr "t1");
                                         ("threadId", VStr W)])] |} |}.

(** A native event the mapping table does not know. *)
Definition usageEvent : SessionEvent :=
  {| ev_type := "assistant.usage";
     ev_id := Some "u1";
     ev_data := VObj [("inputTokens", VNum 12); ("model", VStr "m")] |}.

Definition aClient : CopilotClient :=
  {| cwd := "/repo"; cliPath := None; cliArgs := None |}.

(** An SDK whose requests all succeed. *)
Definition okSdk : Sdk :=
  {| session_destroy := fun _ _ => Ok tt;
     session_send := fun _ _ _ => Ok "m1";
     session_abort := fun _ _ => Ok tt;
     client_createSession := fun _ _ _ => Ok {| sessionId := "s1" |};
     client_listModels := fun _ _ => Ok [];
     client_getAuthStatus :=
       fun _ _ => Ok {| isAuthenticated := true; login := None |} |}.

(** An SDK whose [session.abort()] and [session.send()] reject. *)
Definition failingSdk : Sdk :=
  {| session_destroy := fun _ _ => Ok tt;
     session_send := fun _ _ _ => Throw "Connection is closed";
     session_abort := fun _ _ => Throw "Connection is closed";
     client_createSession := fun _ _ _ => Ok {| sessionId := "s1" |};
     client_listModels := fun _ _ => Ok [];
     client_getAuthStatus :=
       fun _ _ => Ok {| isAuthenticated := true; login := None |} |}.

(** Workspace ["W"] is connected and has session ["s1"]; nothing has been
    emitted yet, so no thread has an active turn. *)
Definition idleWorld : World :=
  {| workspaceClients :=
       {[ "W" := {| client := aClient;
                    session := Some {| sessionId := "s1" |};
                    workspacePath := "/repo";
                    connected := true |} ]};
     now := 1000;
     calls := [] |}.

(** As [idleWorld], one second later, after a first message was sent on
    thread ["s1"]: its [turn/started] is the only event so far. *)
Definition busyWorld : World :=
  {| workspaceClients := workspaceClients idleWorld;
     now := 2000;
     calls := [EmitAppServerEvent
                 (CopilotBackend.turnStarted "W" "s1" 1000);
               SessionSend {| sessionId := "s1" |}
                 {| prompt := "first"; attachments := None |}] |}.

(** Review thread ["R"] was forked from ["P"], which is being reviewed. *)
Definition reviewState : UseThreads.ThreadState :=
  {| UseThreads.threadsByWorkspace := ∅;
     UseThreads.itemsByThread := ∅;
     UseThreads.threadParentById := {[ "R" := "P" ]};
     UseThreads.threadStatusById :=
       {[ "P" := {| isProcessing := true; isReviewing := true |} ]};
     UseThreads.activeThreadIdByWorkspace := {[ "W" := Some "R" ]} |}.

(** As [reviewState], but ["P"] has no status entry, as after a restart:
    the parent link is restored from the snapshot, the status is not. *)
Definition restartedState : UseThreads.ThreadState :=
  {| UseThreads.threadsByWorkspace := ∅;
     UseThreads.itemsByThread := ∅;
     UseThreads.threadParentById := {[ "R" := "P" ]};
     UseThreads.threadStatusById := ∅;
     UseThreads.activeThreadIdByWorkspace := {[ "W" := Some "R" ]} |}.

Definition liveThread : UseThreads.ThreadSummary :=
  {| UseThreads.ts_id := "T1";
     UseThreads.ts_name := "live";
     UseThreads.ts_updatedAt := Some 50 |}.

Definition savedThread : UseThreads.ThreadSummary :=
  {| UseThreads.ts_id := "T2";
     UseThreads.ts_name := "saved";
     UseThreads.ts_updatedAt := Some 70 |}.

(** Workspace ["W"] has one live thread with a one-item log. *)
Definition liveState : UseThreads.ThreadState :=
  {| UseThreads.threadsByWorkspace := {[ "W" := [liveThread] ]};
     UseThreads.itemsByThread :=
       {[ "T1" := [UseThreads.ItemMessage "i1" "user" "hello"] ]};
     UseThreads.threadParentById := ∅;
     UseThreads.threadStatusById := ∅;
     UseThreads.activeThreadIdByWorkspace := {[ "W" := Some "T1" ]} |}.

(** The state of a render in which nothing is known yet. *)
Definition emptyState : UseThreads.ThreadState :=
  {| UseThreads.threadsByWorkspace := ∅;
     UseThreads.itemsByThread := ∅;
     UseThreads.threadParentById := ∅;
     UseThreads.threadStatusById := ∅;
     UseThreads.activeThreadIdByWorkspace := ∅ |}.

Definition lateThread : UseThreads.ThreadSummary :=
  {| UseThreads.ts_id := "T3";
     UseThreads.ts_name := "late";
     UseThreads.ts_updatedAt := Some 90 |}.

(** The reducer state when the snapshot arrives, if threads ["T1"] (with
    one item) and ["T3"] became live after the render of [emptyState]. *)
Definition lateState : UseThreads.ThreadState :=
  {| UseThreads.threadsByWorkspace := {[ "W" := [lateThread; liveThread] ]};
     UseThreads.itemsByThread :=
       {[ "T1" := [UseThreads.ItemMessage "i1" "user" "hello"] ]};
     UseThreads.threadParentById := ∅;
     UseThreads.threadStatusById := ∅;
     UseThreads.activeThreadIdByWorkspace := {[ "W" := Some "T3" ]} |}.

(** A snapshot that knows ["T1"] with an older log and also ["T2"]. *)
Definition savedSnapshot : UseThreads.ThreadHistorySnapshot :=
  {| UseThreads.version := 1;
     UseThreads.snap_workspaceId := "W";
     UseThreads.snap_activeThreadId := Some "T2";
     UseThreads.snap_threads :=
       Some [Some {| UseThreads.ts_id := "T1";
                     UseThreads.ts_name := "stale";
                     UseThreads.ts_updatedAt := Some 10 |};
             Some savedThread; None];
     UseThreads.snap_itemsByThread :=
       Some [("T1", Some [UseThreads.ItemMessage "i0" "assistant" "old"]);
             ("T2", Some [UseThreads.ItemMessage "i2" "assistant" "kept"])];
     UseThreads.snap_threadParentById := Some [];
     UseThreads.savedAt := 900 |}.

End Examples.

From Stdlib Require Import Sorted.

(** ** JavaScript string operations

    A [string] holds the UTF-8 bytes of a well-formed JavaScript string. *)

Module JsString.

Definition bytes (l : list nat) : string :=
  string_of_list_ascii (map ascii_of_nat l).

(** The characters that [\s] matches and [trim] removes, in UTF-8: tab,
    line feed, vertical tab, form feed, carriage return, space, U+00A0,
    U+1680, U+2000 to U+200A, U+2028, U+2029, U+202F, U+205F, U+3000 and
    U+FEFF. *)
Definition whiteSpace : list string :=
  map bytes
    [[9]; [10]; [11]; [12]; [13]; [32]; [194; 160]; [225; 154; 128];
     [226; 128; 128]; [226; 128; 129]; [226; 128; 130]; [226; 128; 131];
     [226; 128; 132]; [226; 128; 133]; [226; 128; 134]; [226; 128; 135];
     [226; 128; 136]; [226; 128; 137]; [226; 128; 138]; [226; 128; 168];
     [226; 128; 169]; [226; 128; 175]; [226; 129; 159]; [227; 128; 128];
     [239; 187; 191]]%nat.

(** The length of the first of [pats] that [s] starts with, [0] if there
    is none. *)
Fixpoint matchLen (pats : list string) (s : string) : nat :=
  match pats with
  | [] => 0%nat
  | p :: pats' =>
      if String.prefix p s then String.length p else matchLen pats' s
  end.

(** The number of bytes of the white space character [s] starts with. *)
Definition wsLen (s : string) : nat := matchLen whiteSpace s.

(** [s.split(/\s+/)], scanning [s]: [skip] bytes of a white space
    character are still to be passed, [piece] is the piece read so far, and
    [inSep] tells that the last character was white space. *)
Fixpoint splitGo (s : string) (skip : nat) (piece : string) (inSep : bool)
  : list string :=
  match s with
  | EmptyString => [piece]
  | String c s' =>
      match skip with
      | S k => splitGo s' k piece inSep
      | O =>
          match wsLen s with
          | O => splitGo s' 0 (piece +:+ String c EmptyString) false
          | S k =>
              if inSep then splitGo s' k EmptyString true
              else piece :: splitGo s' k EmptyString true
          end
      end
  end.

Definition split (s : string) : list string := splitGo s 0 EmptyString false.

(** Remove from the front of [s] every leading character among [pats]. *)
Fixpoint stripGo (pats : list string) (s : string) (skip : nat) : string :=
  match s with
  | EmptyString => EmptyString
  | String c s' =>
      match skip with
      | S k => stripGo pats s' k
      | O =>
          match matchLen pats s with
          | O => s
          | S k => stripGo pats s' k
          end
      end
  end.

Definition trimStart (s : string) : string := stripGo whiteSpace s 0.

Definition trimEnd (s : string) : string :=
  String.rev (stripGo (map String.rev whiteSpace) (String.rev s) 0).

(** [s.trim()] *)
Definition trim (s : string) : string := trimEnd (trimStart s).

End JsString.

(** ** The host: lifecycle requests and the module-level callbacks

    [connectWorkspace], [disconnectWorkspace], [resumeSession] and the
    readers of a session make requests that [World] does not record. A
    [Host] keeps them beside the world, each with the number of [calls]
    made before it, which fixes its place among them; it also holds the two
    module-level callbacks of copilot-sdk.ts. *)

Module Lifecycle.

(** [PermissionRequest] of the SDK: its kind, the optional tool call id,
    and whatever else the request carries. *)
Record PermissionRequest : Type := mkPermissionRequest {
  pr_kind : string;
  pr_toolCallId : option string;
  pr_rest : list (string * value);
}.

Inductive HostCall : Type :=
| ClientNew (c : CopilotClient)
| ClientStop (c : CopilotClient)
| ClientResumeSession (c : CopilotClient) (sessionId : string)
| SessionSendAndWait (s : CopilotSession) (o : MessageOptions)
    (timeout : option Z)
| SessionGetMessages (s : CopilotSession).

Record Host : Type := mkHost {
  world : World;
  requests : list (nat * HostCall);
  globalEventCallback : option (string -> SessionEvent -> M unit);
  globalPermissionCallback :
    option (string -> PermissionRequest -> M value);
}.

(** The behaviour of the SDK objects towards a host: every request is
    answered or rejected, possibly depending on everything that happened
    before. *)
Record HostSdk : Type := mkHostSdk {
  h_session_destroy : Host -> CopilotSession -> js unit;
  h_session_send : Host -> CopilotSession -> MessageOptions -> js string;
  h_session_abort : Host -> CopilotSession -> js unit;
  h_client_createSession : Host -> CopilotClient -> value -> js CopilotSession;
  h_client_listModels : Host -> CopilotClient -> js (list ModelInfo);
  h_client_getAuthStatus : Host -> CopilotClient -> js GetAuthStatusResponse;
  h_client_new : Host -> CopilotClient -> js unit;
  h_client_stop : Host -> CopilotClient -> js unit;
  h_client_resumeSession : Host -> CopilotClient -> string -> js CopilotSession;
  h_session_sendAndWait :
    Host -> CopilotSession -> MessageOptions -> option Z -> js (option string);
  h_session_getMessages : Host -> CopilotSession -> js (list SessionEvent);
}.

Definition withWorld (h : Host) (w : World) : Host :=
  {| world := w;
     requests := requests h;
     globalEventCallback := globalEventCallback h;
     globalPermissionCallback := globalPermissionCallback h |}.

(** The SDK as the programs over [World] see it while the host is [h]. *)
Definition sdkAt (hs : HostSdk) (h : Host) : Sdk :=
  {| session_destroy := fun w => h_session_destroy hs (withWorld h w);
     session_send := fun w => h_session_send hs (withWorld h w);
     session_abort := fun w => h_session_abort hs (withWorld h w);
     client_createSession := fun w => h_client_createSession hs (withWorld h w);
     client_listModels := fun w => h_client_listModels hs (withWorld h w);
     client_getAuthStatus :=
       fun w => h_client_getAuthStatus hs (withWorld h w) |}.

(** Programs over a host. *)
Definition H (A : Type) : Type := Host -> js A * Host.

Module MonadH.

Definition ret {A} (a : A) : H A := fun h => (Ok a, h).

Definition throw {A} (msg : string) : H A := fun h => (Throw msg, h).

Definition bind {A B} (m : H A) (f : A -> H B) : H B :=
  fun h =>
    match m h with
    | (Ok a, h') => f a h'
    | (Throw e, h') => (Throw e, h')
    end.

Definition getHost : H Host := fun h => (Ok h, h).

(** Run a program over [World] in the host. *)
Definition liftM {A} (hs : HostSdk) (m : Sdk -> M A) : H A :=
  fun h => let r := m (sdkAt hs h) (world h) in (r.1, withWorld h r.2).

(** Make the request [c] and wait for the answer. *)
Definition request {A} (c : HostCall) (answer : Host -> js A) : H A :=
  fun h =>
    (answer h,
     {| world := world h;
        requests := requests h ++ [(length (calls (world h)), c)];
        globalEventCallback := globalEventCallback h;
        globalPermissionCallback := globalPermissionCallback h |}).

(** [try { m } catch (error) { console.warn(...) }] *)
Definition attempt {A} (m : H A) : H unit :=
  fun h => (Ok tt, (m h).2).

(** An update of the [workspaceClients] map. *)
Definition updateClients
    (f : gmap string CopilotWorkspaceClient -> gmap string CopilotWorkspaceClient)
  : H unit :=
  fun h =>
    (Ok tt,
     withWorld h {| workspaceClients := f (workspaceClients (world h));
                    now := now (world h);
                    calls := calls (world h) |}).

End MonadH.

Notation "x <~ m ;; k" := (MonadH.bind m (fun x => k))
  (at level 100, m at next level, right associativity).
Notation "m ~;; k" := (MonadH.bind m (fun _ => k))
  (at level 100, right associativity).

(** *** src/services/copilot-sdk.ts, continued *)

Section WithHostSdk.

Variable hs : HostSdk.

Definition setGlobalEventCallback
    (callback : option (string -> SessionEvent -> M unit)) : H unit :=
  fun h =>
    (Ok tt,
     {| world := world h;
        requests := requests h;
        globalEventCallback := callback;
        globalPermissionCallback := globalPermissionCallback h |}).

Definition setGlobalPermissionCallback
    (callback : option (string -> PermissionRequest -> M value)) : H unit :=
  fun h =>
    (Ok tt,
     {| world := world h;
        requests := requests h;
        globalEventCallback := globalEventCallback h;
        globalPermissionCallback := callback |}).

(** [globalEventCallback?.(workspaceId, event)]: what the handler given to
    [session.on] does with an event of the session. *)
Definition deliver (workspaceId : string) (event : SessionEvent) : H unit :=
  h <~ MonadH.getHost ;;
  match globalEventCallback h with
  | Some callback => MonadH.liftM hs (fun _ => callback workspaceId event)
  | None => MonadH.ret tt
  end.

Definition disconnectWorkspace (workspaceId : string) : H unit :=
  h <~ MonadH.getHost ;;
  match workspaceClients (world h) !! workspaceId with
  | None => MonadH.ret tt
  | Some workspace =>
      MonadH.attempt
        ((match session workspace with
          | Some s =>
              MonadH.liftM hs
                (fun sdk => MonadM.await (SessionDestroy s)
                              (fun w => session_destroy sdk w s))
          | None => MonadH.ret tt
          end) ~;;
         MonadH.request (ClientStop (client workspace))
           (fun h => h_client_stop hs h (client workspace))) ~;;
      MonadH.updateClients (delete workspaceId)
  end.

(** [clientOptions] of [connectWorkspace]: the three fixed flags
    ([useStdio], [autoStart], [autoRestart]) are left out. A path is kept
    when it is a non-empty string, arguments whenever an array is given. *)
Definition clientOptions (workspacePath : string) (cliPath : option string)
    (cliArgs : option (list string)) : CopilotClient :=
  {| cwd := workspacePath;
     cliPath := match cliPath with
                | Some p => if String.eqb p "" then None else Some p
                | None => None
                end;
     cliArgs := cliArgs |}.

(** The synthetic event of a successful connect. *)
Definition connectedEvent (t : Z) : SessionEvent :=
  {| ev_type := "session.info";
     ev_id := Some ("connected-" +:+ pretty t);
     ev_data := VObj [("infoType", VStr "connected");
                      ("message", VStr "Workspace connected")] |}.

Definition connectWorkspace (workspaceId workspacePath : string)
    (cliPath : option string) (cliArgs : option (list string)) : H unit :=
  disconnectWorkspace workspaceId ~;;
  let c := clientOptions workspacePath cliPath cliArgs in
  MonadH.request (ClientNew c) (fun h => h_client_new hs h c) ~;;
  MonadH.updateClients
    (insert workspaceId {| client := c;
                           session := None;
                           workspacePath := workspacePath;
                           connected := true |}) ~;;
  h <~ MonadH.getHost ;;
  deliver workspaceId (connectedEvent (now (world h))).

Definition isWorkspaceConnected (workspaceId : string) (h : Host) : bool :=
  bool_decide (is_Some (workspaceClients (world h) !! workspaceId)).

(** [workspace?.session?.sessionId ?? null] *)
Definition getSessionId (workspaceId : string) (h : Host) : option string :=
  sessionId <$> (workspaceClients (world h) !! workspaceId ≫= session).


(** [sendMessageAndWait]; the answer is [response?.data.content]. *)
Definition sendMessageAndWait (workspaceId text : string)
    (images : option (list string)) (timeout : option Z)
  : H (option string) :=
  h <~ MonadH.getHost ;;
  match workspaceClients (world h) !! workspaceId ≫= session with
  | None => MonadH.throw (CopilotSdk.noActiveSession workspaceId)
  | Some s =>
      let o := CopilotSdk.messageOptions text images in
      MonadH.request (SessionSendAndWait s o timeout)
        (fun h => h_session_sendAndWait hs h s o timeout)
  end.


Definition getSessionMessages (workspaceId : string)
  : H (list SessionEvent) :=
  h <~ MonadH.getHost ;;
  match workspaceClients (world h) !! workspaceId ≫= session with
  | None => MonadH.ret []
  | Some s =>
      MonadH.request (SessionGetMessages s)
        (fun h => h_session_getMessages hs h s)
  end.

End WithHostSdk.

End Lifecycle.

(** *** src/services/copilot-backend.ts, continued *)

Module BackendLifecycle.
Section WithHostSdk.

Import Lifecycle.

Variable hs : HostSdk.

(** The request as the object that becomes the [params] of the approval
    event. *)
Definition requestValue (request : PermissionRequest) : value :=
  VObj (("kind", VStr (pr_kind request))
          :: match pr_toolCallId request with
             | Some i => [("toolCallId", VStr i)]
             | None => []
             end
          ++ pr_rest request).

Definition approvalEvent (workspaceId : string) (request : PermissionRequest)
    (t : Z) : AppServerEvent :=
  {| workspace_id := workspaceId;
     message :=
       {| msg_id := Some (default ("approval-" +:+ pretty t)
                            (pr_toolCallId request));
          method := "approval/" +:+ pr_kind request;
          params := requestValue request |} |}.

(** The callback [initCopilotBackend] installs with
    [setGlobalPermissionCallback]. *)
Definition onPermissionRequest (workspaceId : string)
    (request : PermissionRequest) : M value :=
  w <- MonadM.getWorld ;;
  emitAppServerEvent (approvalEvent workspaceId request (now w)) ;;;
  MonadM.ret (VObj [("kind", VStr "approved")]).

Definition initCopilotBackend : H unit :=
  setGlobalEventCallback (Some CopilotBackend.onSessionEvent) ~;;
  setGlobalPermissionCallback (Some onPermissionRequest).

(** [options?.copilotArgs ? options.copilotArgs.split(/\s+/).filter(Boolean)
    : undefined] *)
Definition cliArgsOf (copilotArgs : option string) : option (list string) :=
  match copilotArgs with
  | Some a =>
      if String.eqb a "" then None
      else Some (List.filter (fun x => negb (String.eqb x ""))
                   (JsString.split a))
  | None => None
  end.

Definition codexConnected (workspaceId : string) : AppServerEvent :=
  {| workspace_id := workspaceId;
     message := {| msg_id := None;
                   method := "codex/connected";
                   params := VObj [] |} |}.

Definition connectWorkspace (workspaceId workspacePath : string)
    (copilotBin copilotArgs : option string) : H unit :=
  Lifecycle.connectWorkspace hs workspaceId workspacePath copilotBin
    (cliArgsOf copilotArgs) ~;;
  MonadH.liftM hs (fun _ => emitAppServerEvent (codexConnected workspaceId)).

Definition disconnectWorkspace (workspaceId : string) : H unit :=
  Lifecycle.disconnectWorkspace hs workspaceId.



Definition isConnected (workspaceId : string) (h : Host) : bool :=
  Lifecycle.isWorkspaceConnected workspaceId h.

End WithHostSdk.
End BackendLifecycle.

(** ** Reading worlds and calls *)

(** The entry [workspace] with [workspace.session = s]. *)
Definition withSession (workspace : CopilotWorkspaceClient)
    (s : option CopilotSession) : CopilotWorkspaceClient :=
  {| client := client workspace;
     session := s;
     workspacePath := workspacePath workspace;
     connected := connected workspace |}.

(** The canonical events among [cs], in order. *)
Definition emitted (cs : list Call) : list AppServerEvent :=
  omap (fun c => match c with
                 | EmitAppServerEvent e => Some e
                 | _ => None
                 end) cs.

(** ** Concrete hosts used by the examples below *)

Module HostExamples.

Import Lifecycle.

(** An SDK whose requests all succeed. *)
Definition okHostSdk : HostSdk :=
  {| h_session_destroy := fun _ _ => Ok tt;
     h_session_send := fun _ _ _ => Ok "m1";
     h_session_abort := fun _ _ => Ok tt;
     h_client_createSession := fun _ _ _ => Ok {| sessionId := "s2" |};
     h_client_listModels := fun _ _ => Ok [];
     h_client_getAuthStatus :=
       fun _ _ => Ok {| isAuthenticated := true; login := None |};
     h_client_new := fun _ _ => Ok tt;
     h_client_stop := fun _ _ => Ok tt;
     h_client_resumeSession := fun _ _ i => Ok {| sessionId := i |};
     h_session_sendAndWait := fun _ _ _ _ => Ok None;
     h_session_getMessages := fun _ _ => Ok [] |}.

(** An SDK that rejects [session.destroy()] and cannot create a client. *)
Definition brokenHostSdk : HostSdk :=
  {| h_session_destroy := fun _ _ => Throw "Session not found";
     h_session_send := fun _ _ _ => Ok "m1";
     h_session_abort := fun _ _ => Ok tt;
     h_client_createSession := fun _ _ _ => Ok {| sessionId := "s2" |};
     h_client_listModels := fun _ _ => Ok [];
     h_client_getAuthStatus :=
       fun _ _ => Ok {| isAuthenticated := true; login := None |};
     h_client_new := fun _ _ => Throw "spawn ENOENT";
     h_client_stop := fun _ _ => Ok tt;
     h_client_resumeSession := fun _ _ i => Ok {| sessionId := i |};
     h_session_sendAndWait := fun _ _ _ _ => Ok None;
     h_session_getMessages := fun _ _ => Ok [] |}.

(** The same towards programs over [World]. *)
Definition brokenSdk : Sdk :=
  {| session_destroy := fun _ _ => Throw "Session not found";
     session_send := fun _ _ _ => Ok "m1";
     session_abort := fun _ _ => Ok tt;
     client_createSession := fun _ _ _ => Ok {| sessionId := "s2" |};
     client_listModels := fun _ _ => Ok [];
     client_getAuthStatus :=
       fun _ _ => Ok {| isAuthenticated := true; login := None |} |}.

(** Workspace ["W"] is connected with session ["s1"]; no callback is
    installed. *)
Definition idleHost : Host :=
  {| world := Examples.idleWorld;
     requests := [];
     globalEventCallback := None;
     globalPermissionCallback := None |}.

(** As [idleHost], after [initCopilotBackend]. *)
Definition routedHost : Host :=
  {| world := Examples.idleWorld;
     requests := [];
     globalEventCallback := Some CopilotBackend.onSessionEvent;
     globalPermissionCallback := Some BackendLifecycle.onPermissionRequest |}.

(** The canonical event the backend's callback makes of the synthetic
    connect event. *)
Definition connectedInfo (workspaceId : string) : AppServerEvent :=
  {| workspace_id := workspaceId;
     message :=
       {| msg_id := None;
          method := "copilot/session.info";
          params := VObj [("infoType", VStr "connected");
                          ("message", VStr "Workspace connected")] |} |}.

End HostExamples.


(** ** Reading strings *)

(** [a] holds no white space character. *)
Definition noWhiteSpace (a : string) : Prop :=
  forall u v, a = u +:+ v -> JsString.wsLen v = 0%nat.

(** A command-line argument: not empty and free of white space. *)
Definition validArg (a : string) : Prop :=
  a <> EmptyString /\ noWhiteSpace a.

(** No character after the first is a space. *)
Definition spaceFreeTail (p : string) : bool :=
  match p with
  | EmptyString => false
  | String _ p' =>
      forallb (fun c => negb (Ascii.eqb c " ")) (list_ascii_of_string p')
  end.

(** ** Reading thread lists and snapshots *)






(** Some thread of [l] has the id [k]. *)
Definition hasThread (k : string) (l : list UseThreads.ThreadSummary) : bool :=
  existsb (fun t => String.eqb (UseThreads.ts_id t) k) l.

(** The item logs [buildThreadHistorySnapshot] collects from [l]. *)
Definition collectItems (state : UseThreads.ThreadState)
    (l : list UseThreads.ThreadSummary)
    (acc : list (string * option (list UseThreads.ConversationItem)))
  : list (string * option (list UseThreads.ConversationItem)) :=
  fold_left (fun acc thread =>
               match UseThreads.itemsByThread state !! UseThreads.ts_id thread with
               | Some (i :: items) =>
                   Js.set (UseThreads.ts_id thread) (Some (i :: items)) acc
               | _ => acc
               end) l acc.

Definition collectParents (state : UseThreads.ThreadState)
    (l : list UseThreads.ThreadSummary)
    (acc : list (string * value)) : list (string * value) :=
  fold_left (fun acc thread =>
               match UseThreads.threadParentById state !! UseThreads.ts_id thread with
               | Some parentId =>
                   if UseThreads.nonEmpty parentId
                   then Js.set (UseThreads.ts_id thread) (VStr parentId) acc
                   else acc
               | None => acc
               end) l acc.


(** What [splitGo] keeps of the piece it is reading: no suffix of it,
    followed by the rest of the input, starts with white space. *)
Definition pieceOk (piece s : string) : Prop :=
  forall u v, piece = u +:+ v -> v <> EmptyString ->
              JsString.wsLen (v +:+ s) = 0%nat.

(** ** useThreadAccountInfo: normalizeAccountSnapshot *)

Module AccountInfo.

(** [AccountSnapshot]; [None] is [null]. *)
Record AccountSnapshot : Type := mkAccountSnapshot {
  acc_type : string;
  email : option string;
  planType : option string;
  requiresOpenaiAuth : option bool;
}.

(** [typeof v === "object"]: objects, arrays and [null]. *)
Definition isObjectType (v : value) : bool :=
  match v with
  | VObj _ | VArr _ | VNull => true
  | _ => false
  end.

(** [v1 ?? v2 ?? ...] *)
Fixpoint firstPresent (vs : list value) : value :=
  match vs with
  | [] => VUndefined
  | [v] => v
  | v :: vs' => if Js.nullish v then firstPresent vs' else v
  end.

(** [typeof v === "boolean" ? v : null] *)
Definition booleanOrNull (v : value) : option bool :=
  match v with
  | VBool b => Some b
  | _ => None
  end.

(** [typeof v === "string" ? v.trim() : ""] *)
Definition trimmedString (v : value) : string :=
  match v with
  | VStr s => JsString.trim s
  | _ => EmptyString
  end.

(** [a || b] on strings *)
Definition orElse (a b : string) : string :=
  if String.eqb a "" then b else a.

(** [s ? s : null] *)
Definition nonEmptyOrNull (s : string) : option string :=
  if String.eqb s "" then None else Some s.

Definition lowerAscii (c : ascii) : ascii :=
  let n := nat_of_ascii c in
  if (Nat.leb 65 n && Nat.leb n 90)%bool then ascii_of_nat (n + 32)%nat else c.

(** [s.toLowerCase()], as far as a comparison with a word of ASCII letters
    can tell: ASCII capitals and the Kelvin sign U+212A become their small
    letters, every other character stays (no other character has a lower
    case form made of ASCII characters only). *)
Fixpoint lowerGo (s : string) (skip : nat) : string :=
  match s with
  | EmptyString => EmptyString
  | String c s' =>
      match skip with
      | S k => lowerGo s' k
      | O =>
          if String.prefix (JsString.bytes [226; 132; 170]%nat) s
          then String "k" (lowerGo s' 2%nat)
          else String (lowerAscii c) (lowerGo s' 0%nat)
      end
  end.

Definition toLowerCase (s : string) : string := lowerGo s 0%nat.

Definition normalizeAccountSnapshot (response : value) : js AccountSnapshot :=
  result <-? (if Js.truthy (Js.getOpt response "result")
              then Js.get response "result" else Ok VUndefined);
  let resultValue :=
    if Js.truthy (Js.getOpt response "result") && isObjectType result
    then result else VNull in
  data <-? (if Js.truthy resultValue then Js.get resultValue "data"
            else Ok VUndefined);
  let dataValue :=
    if Js.truthy resultValue && isObjectType data then data else VNull in
  let accountValue :=
    firstPresent [Js.getOpt resultValue "account";
                  Js.getOpt dataValue "account";
                  Js.getOpt response "account";
                  Js.getOpt (Js.getOpt response "data") "account";
                  resultValue] in
  let account :=
    if Js.truthy accountValue && isObjectType accountValue
    then accountValue else VNull in
  let requiresOpenaiAuthRaw :=
    firstPresent [Js.getOpt (Js.getOpt response "result") "requiresOpenaiAuth";
                  Js.getOpt (Js.getOpt response "result") "requires_openai_auth";
                  Js.getOpt response "requiresOpenaiAuth";
                  Js.getOpt response "requires_openai_auth"] in
  let requiresOpenaiAuth := booleanOrNull requiresOpenaiAuthRaw in
  let authenticatedRaw :=
    firstPresent [Js.getOpt resultValue "authenticated";
                  Js.getOpt resultValue "isAuthenticated";
                  Js.getOpt dataValue "authenticated";
                  Js.getOpt dataValue "isAuthenticated";
                  Js.getOpt response "authenticated";
                  Js.getOpt response "isAuthenticated"] in
  let authenticated := booleanOrNull authenticatedRaw in
  let loginRaw :=
    firstPresent [Js.getOpt resultValue "login";
                  Js.getOpt resultValue "user";
                  Js.getOpt dataValue "login";
                  Js.getOpt dataValue "user";
                  Js.getOpt account "login";
                  Js.getOpt account "user";
                  Js.getOpt response "login";
                  Js.getOpt response "user"] in
  let login := trimmedString loginRaw in
  if negb (Js.truthy account) then
    Ok {| acc_type := "unknown";
          email := match authenticated with
                   | Some true => Some (orElse login "Copilot")
                   | _ => None
                   end;
          planType := None;
          requiresOpenaiAuth := requiresOpenaiAuth |}
  else
    type <-? Js.get account "type";
    let typeRaw := match type with
                   | VStr s => toLowerCase s
                   | _ => "unknown"
                   end in
    let type' := if String.eqb typeRaw "chatgpt" || String.eqb typeRaw "apikey"
                 then typeRaw else "unknown" in
    accountEmail <-? Js.get account "email";
    accountLogin <-? Js.get account "login";
    accountUser <-? Js.get account "user";
    let emailRaw :=
      match accountEmail with
      | VStr s => JsString.trim s
      | _ => match accountLogin with
             | VStr s => JsString.trim s
             | _ => trimmedString accountUser
             end
      end in
    let fallbackEmail := orElse login EmptyString in
    let email := orElse emailRaw fallbackEmail in
    plan <-? Js.get account "planType";
    let planRaw := trimmedString plan in
    Ok {| acc_type := type';
          email := nonEmptyOrNull email;
          planType := nonEmptyOrNull planRaw;
          requiresOpenaiAuth := requiresOpenaiAuth |}.

(** The object literal that [getAuthStatus] of copilot-sdk.ts returns, for
    the pair that models it. *)
Definition authStatusValue (status : bool * option string) : value :=
  VObj [("authenticated", VBool status.1);
        ("user", match status.2 with
                 | Some u => VStr u
                 | None => VUndefined
                 end)].

End AccountInfo.

(** ** useThreadAccountInfo and useThreadRateLimits: the refresh callbacks

    Both hooks ask the backend, report to the optional [onDebug] callback
    and dispatch what they learnt. A run records, in order, the requests,
    the debug entries and the dispatched actions, and counts the readings
    of the clock. *)

Module Hooks.

Inductive Effect : Type :=
| OnDebug (entry : DebugEntry)
| GetAccountInfo (workspaceId : string)
| FetchCopilotUsage
| GetAccountRateLimits (workspaceId : string)
| SetAccountInfo (workspaceId : string)
    (account : AccountInfo.AccountSnapshot)
| SetRateLimits (workspaceId : string) (rateLimits : value).

Record Run : Type := mkRun {
  reads : nat;
  trace : list Effect;
}.

Definition start : Run := {| reads := 0; trace := [] |}.

(** What the hooks are given: the successive readings of [Date.now()],
    the caller's [onDebug] if one is passed, with what it returns or
    throws for an entry, the answers of services/tauri and
    [normalizeRateLimits] of utils/threadNormalize. *)
Record Env : Type := mkEnv {
  clock : nat -> Z;
  onDebug : option (DebugEntry -> js unit);
  getAccountInfo : string -> js value;
  fetchCopilotUsage : js value;
  getAccountRateLimits : string -> js value;
  normalizeRateLimits : value -> js value;
}.

Definition K (A : Type) : Type := Run -> js A * Run.

Module MonadK.

Definition ret {A} (a : A) : K A := fun r => (Ok a, r).

Definition bind {A B} (m : K A) (f : A -> K B) : K B :=
  fun r =>
    match m r with
    | (Ok a, r') => f a r'
    | (Throw e, r') => (Throw e, r')
    end.

Definition lift {A} (m : js A) : K A := fun r => (m, r).

Definition emit (e : Effect) : K unit :=
  fun r => (Ok tt, {| reads := reads r; trace := trace r ++ [e] |}).

(** Make the request [e] and wait for [answer]. *)
Definition await {A} (e : Effect) (answer : js A) : K A :=
  fun r => (answer, {| reads := reads r; trace := trace r ++ [e] |}).

(** [Date.now()] *)
Definition dateNow (clock : nat -> Z) : K Z :=
  fun r => (Ok (clock (reads r)),
            {| reads := S (reads r); trace := trace r |}).

(** [try { body } catch (error) { handler }]; [error] is given by its
    message. *)
Definition tryCatch {A} (body : K A) (handler : string -> K A) : K A :=
  fun r =>
    match body r with
    | (Ok a, r') => (Ok a, r')
    | (Throw e, r') => handler e r'
    end.

End MonadK.

Notation "x <~~ m ;; k" := (MonadK.bind m (fun x => k))
  (at level 100, m at next level, right associativity).
Notation "m ~~;; k" := (MonadK.bind m (fun _ => k))
  (at level 100, right associativity).

Section WithEnv.

Variable env : Env.

(** [onDebug?.({ id: `${Date.now()}<suffix>`, timestamp: Date.now(),
    source, label, payload })]: without [onDebug] the entry is not built;
    with it, the call is made and throws what the callback throws. *)
Definition debug (suffix source label : string) (payload : value) : K unit :=
  match onDebug env with
  | Some callback =>
      t1 <~~ MonadK.dateNow (clock env) ;;
      t2 <~~ MonadK.dateNow (clock env) ;;
      let entry := {| d_id := pretty t1 +:+ suffix;
                      d_timestamp := t2;
                      d_source := source;
                      d_label := label;
                      d_payload := payload |} in
      MonadK.await (OnDebug entry) (callback entry)
  | None => MonadK.ret tt
  end.

(** [workspaceId ?? activeWorkspaceId], and [None] when [!targetId]. *)
Definition targetOf (activeWorkspaceId workspaceId : option string)
  : option string :=
  match (match workspaceId with
         | Some w => Some w
         | None => activeWorkspaceId
         end) with
  | Some t => if String.eqb t "" then None else Some t
  | None => None
  end.

(** useThreadAccountInfo.ts *)
Definition refreshAccountInfo (activeWorkspaceId workspaceId : option string)
  : K unit :=
  match targetOf activeWorkspaceId workspaceId with
  | None => MonadK.ret tt
  | Some targetId =>
      debug "-client-account-read" "client" "account/read"
        (VObj [("workspaceId", VStr targetId)]) ~~;;
      MonadK.tryCatch
        (response <~~ MonadK.await (GetAccountInfo targetId)
                        (getAccountInfo env targetId) ;;
         debug "-server-account-read" "server" "account/read response"
           response ~~;;
         account <~~ MonadK.lift
                       (AccountInfo.normalizeAccountSnapshot response) ;;
         MonadK.emit (SetAccountInfo targetId account))
        (fun error =>
           debug "-client-account-read-error" "error" "account/read error"
             (VStr error))
  end.

(** useThreadRateLimits.ts; the first [try] block tells whether it
    returned from the callback. *)
Definition refreshAccountRateLimits
    (activeWorkspaceId workspaceId : option string) : K unit :=
  match targetOf activeWorkspaceId workspaceId with
  | None => MonadK.ret tt
  | Some targetId =>
      debug "-client-account-rate-limits" "client" "account/rateLimits/read"
        (VObj [("workspaceId", VStr targetId)]) ~~;;
      returned <~~
        MonadK.tryCatch
          (copilotUsage <~~ MonadK.await FetchCopilotUsage
                              (fetchCopilotUsage env) ;;
           debug "-server-copilot-usage" "server" "copilot/usage response"
             copilotUsage ~~;;
           if Js.truthy (Js.getOpt copilotUsage "primary") then
             rateLimits <~~ MonadK.lift
                              (normalizeRateLimits env copilotUsage) ;;
             MonadK.emit (SetRateLimits targetId rateLimits) ~~;;
             MonadK.ret true
           else MonadK.ret false)
          (fun copilotError =>
             debug "-client-copilot-usage-error" "error"
               "copilot/usage error (falling back)" (VStr copilotError) ~~;;
             MonadK.ret false) ;;
      if returned : bool then MonadK.ret tt
      else
        MonadK.tryCatch
          (response <~~ MonadK.await (GetAccountRateLimits targetId)
                          (getAccountRateLimits env targetId) ;;
           debug "-server-account-rate-limits" "server"
             "account/rateLimits/read response" response ~~;;
           let rateLimits :=
             AccountInfo.firstPresent
               [Js.getOpt (Js.getOpt response "result") "rateLimits";
                Js.getOpt (Js.getOpt response "result") "rate_limits";
                Js.getOpt response "rateLimits";
                Js.getOpt response "rate_limits"] in
           if Js.truthy rateLimits then
             normalized <~~ MonadK.lift
                              (normalizeRateLimits env rateLimits) ;;
             MonadK.emit (SetRateLimits targetId normalized)
           else MonadK.ret tt)
          (fun error =>
             debug "-client-account-rate-limits-error" "error"
               "account/rateLimits/read error" (VStr error))
  end.

End WithEnv.

(** The requests and the dispatched actions of a trace. *)
Definition isRequest (e : Effect) : bool :=
  match e with
  | GetAccountInfo _ | FetchCopilotUsage | GetAccountRateLimits _ => true
  | _ => false
  end.

Definition isDispatch (e : Effect) : bool :=
  match e with
  | SetAccountInfo _ _ | SetRateLimits _ _ => true
  | _ => false
  end.

Definition requests (r : Run) : list Effect := List.filter isRequest (trace r).

Definition dispatches (r : Run) : list Effect :=
  List.filter isDispatch (trace r).

(** [onDebug] is absent or never throws. *)
Definition quietDebug (env : Env) : Prop :=
  forall callback entry,
    onDebug env = Some callback -> callback entry = Ok tt.

(** The error [e] is one that [onDebug] throws. *)
Definition thrownByDebug (env : Env) (e : string) : Prop :=
  exists callback entry,
    onDebug env = Some callback /\ callback entry = Throw e.

(** The rate limits that the Copilot usage yields, if it answers with a
    truthy [primary] that [normalizeRateLimits] accepts. *)
Definition usageLimits (env : Env) : option value :=
  match fetchCopilotUsage env with
  | Ok usage =>
      if Js.truthy (Js.getOpt usage "primary")
      then match normalizeRateLimits env usage with
           | Ok v => Some v
           | Throw _ => None
           end
      else None
  | Throw _ => None
  end.

(** The rate limits found in the answer of [getAccountRateLimits]. *)
Definition fallbackLimits (env : Env) (targetId : string) : option value :=
  match getAccountRateLimits env targetId with
  | Ok response =>
      let rateLimits :=
        AccountInfo.firstPresent
          [Js.getOpt (Js.getOpt response "result") "rateLimits";
           Js.getOpt (Js.getOpt response "result") "rate_limits";
           Js.getOpt response "rateLimits";
           Js.getOpt response "rate_limits"] in
      if Js.truthy rateLimits
      then match normalizeRateLimits env rateLimits with
           | Ok v => Some v
           | Throw _ => None
           end
      else None
  | Throw _ => None
  end.

End Hooks.

(** ** scripts/acp-smoke.mjs: readLines *)

Module AcpSmoke.

(** [buffer.indexOf("\n")] with the two slices taken there: the text before
    the first line feed and the text after it, [None] when the buffer has
    no line feed. *)
Fixpoint cut (buffer : string) : option (string * string) :=
  match buffer with
  | EmptyString => None
  | String c s =>
      if Ascii.eqb c "010" then Some (EmptyString, s)
      else match cut s with
           | Some (line, rest) => Some (String c line, rest)
           | None => None
           end
  end.

(** The [while (true)] loop of the data handler, at most [fuel] rounds:
    the lines handed to [onLine], in order, and the buffer left. *)
Fixpoint drain (fuel : nat) (buffer : string) : list string * string :=
  match fuel with
  | O => ([], buffer)
  | S fuel' =>
      match cut buffer with
      | None => ([], buffer)
      | Some (line, rest) =>
          let trimmed := JsString.trim line in
          let '(lines, buffer') := drain fuel' rest in
          (if Nat.eqb (String.length trimmed) 0 then lines
           else trimmed :: lines, buffer')
      end
  end.

(** The data handler on one chunk. Every round but the last removes a line
    feed from the buffer, so one round more than the buffer is long lets
    the loop reach its [break]. *)
Definition onData (buffer chunk : string) : list string * string :=
  let buffer := buffer +:+ chunk in
  drain (S (String.length buffer)) buffer.

(** The handler on the chunks of a stream, one after the other. *)
Fixpoint feed (buffer : string) (chunks : list string)
  : list string * string :=
  match chunks with
  | [] => ([], buffer)
  | chunk :: chunks' =>
      let '(lines, buffer') := onData buffer chunk in
      let '(lines', buffer'') := feed buffer' chunks' in
      (lines ++ lines', buffer'')
  end.

(** [readLines(stream, onLine)] on a stream that delivers [chunks]: the
    buffer starts empty. *)
Definition readLines (chunks : list string) : list string * string :=
  feed EmptyString chunks.

End AcpSmoke.

(** * Properties *)

(** ** The event adapter *)

Section AdapterFacts.

Import Adapter.

Lemma coalesce_present (v d : value) :
  Js.nullish v = false -> Js.coalesce v d = v.
Proof. unfold Js.coalesce. now intros ->. Qed.

Lemma onSessionEvent_frame (W : string) (event : SessionEvent) (w : World) :
  CopilotBackend.onSessionEvent W event w =
    (match transformEvent W event with
     | Ok _ => Ok tt
     | Throw e => Throw e
     end,
     {| workspaceClients := workspaceClients w;
        now := now w;
        calls := calls w ++ match transformEvent W event with
                            | Ok (Some e) => [EmitAppServerEvent e]
                            | _ => []
                            end |}).
Proof.
  unfold CopilotBackend.onSessionEvent.
  destruct (transformEvent W event) as [[e|]|msg]; cbn;
    rewrite ?app_nil_r; now destruct w.
Qed.

End AdapterFacts.

(** C5. A native event whose type has no entry in the mapping table is
    translated, without throwing, into one canonical event whose method is
    [copilot/] followed by the raw type and whose params are the event's
    payload itself ([{}] stands in when the event has no payload); the
    installed callback emits exactly that event. *)
Theorem unmapped_event_passthrough (W : string) (event : SessionEvent) :
  Adapter.mapEventToMethod event = None ->
  exists e : AppServerEvent,
    Adapter.transformEvent W event = Ok (Some e)
    /\ workspace_id e = W
    /\ method (message e) = "copilot/" +:+ ev_type event
    /\ params (message e) = Js.coalesce (ev_data event) (VObj [])
    /\ (Js.nullish (ev_data event) = false ->
        params (message e) = ev_data event)
    /\ forall w : World,
        CopilotBackend.onSessionEvent W event w =
          (Ok tt, {| workspaceClients := workspaceClients w;
                     now := now w;
                     calls := calls w ++ [EmitAppServerEvent e] |}).
Proof.
  intros Hnone. eexists. unfold Adapter.transformEvent at 1.
  rewrite Hnone. split; [reflexivity|]. cbn.
  repeat split; try reflexivity.
  - intros Hp. now apply coalesce_present.
  - intros w. rewrite onSessionEvent_frame.
    unfold Adapter.transformEvent. now rewrite Hnone.
Qed.

Lemma unmapped_event_passthrough_witness :
  Adapter.mapEventToMethod Examples.usageEvent = None
  /\ exists e : AppServerEvent,
    Adapter.transformEvent "W" Examples.usageEvent = Ok (Some e)
    /\ workspace_id e = "W"
    /\ method (message e) = "copilot/assistant.usage"
    /\ params (message e) = Js.coalesce (ev_data Examples.usageEvent) (VObj [])
    /\ (Js.nullish (ev_data Examples.usageEvent) = false ->
        params (message e) = ev_data Examples.usageEvent)
    /\ forall w : World,
        CopilotBackend.onSessionEvent "W" Examples.usageEvent w =
          (Ok tt, {| workspaceClients := workspaceClients w;
                     now := now w;
                     calls := calls w ++ [EmitAppServerEvent e] |}).
Proof.
  split; [reflexivity|].
  apply (unmapped_event_passthrough "W" Examples.usageEvent). reflexivity.
Defined.

(** The adapter on three mapped events: a message delta without an id, a
    failed tool call, and a delta whose payload is missing. *)
Example transformEvent_examples :
  Adapter.transformEvent "W"
    {| ev_type := "assistant.message_delta";
       ev_id := None;
       ev_data := VObj [("deltaContent", VStr "Hi")] |}
  = Ok (Some {| workspace_id := "W";
                message :=
                  {| msg_id := None;
                     method := "item/agentMessage/delta";
                     params := VObj [("threadId", VStr "W");
                                     ("itemId", VStr "current");
                                     ("delta", VStr "Hi")] |} |})
  /\ Adapter.transformEvent "W"
       {| ev_type := "tool.execution_complete";
          ev_id := Some "e9";
          ev_data := VObj [("toolCallId", VStr "c1");
                           ("success", VBool false);
                           ("error", VObj [("message", VStr "denied")])] |}
     = Ok (Some {| workspace_id := "W";
                   message :=
                     {| msg_id := None;
                        method := "item/completed";
                        params :=
                          VObj [("threadId", VStr "W");
                                ("item", VObj [("id", VStr "c1");
                                               ("type", VStr "tool");
                                               ("toolType", VStr "unknown");
                                               ("status", VStr "error");
                                               ("output", VStr "denied")])] |} |})
  /\ Adapter.transformEvent "W"
       {| ev_type := "assistant.message_delta";
          ev_id := Some "m1";
          ev_data := VUndefined |}
     = Throw "TypeError: Cannot read properties of undefined (reading 'deltaContent')".
Proof. repeat split. Qed.

(** C2 as stated fails: for the native turn-start event the adapter does
    not produce the event whose params hold only the turn. *)
Lemma turn_start_params_counterexample :
  Adapter.transformEvent "W" Examples.turnStartEvent
    <> Ok (Some (Examples.scenarioTurnStarted "W")).
Proof. vm_compute. intros H. discriminate H. Qed.

(** C2, amended. For the native event [{type:"assistant.turn_start",
    id:"t1"}] on workspace [W] the adapter produces exactly the canonical
    event with method [turn/started] and params
    [{threadId: W, turn: {id:"t1", threadId: W}}]; applying it makes thread
    [W] Processing with active turn ["t1"]. *)
Theorem turn_start_scenario (W : string) (data : value)
    (t : ThreadStateMachine.Threads) :
  let native := {| ev_type := "assistant.turn_start";
                   ev_id := Some "t1";
                   ev_data := data |} in
  let canonical :=
    {| workspace_id := W;
       message :=
         {| msg_id := None;
            method := "turn/started";
            params := VObj [("threadId", VStr W);
                            ("turn", VObj [("id", VStr "t1");
                                           ("threadId", VStr W)])] |} |} in
  Adapter.transformEvent W native = Ok (Some canonical)
  /\ isProcessing (ThreadStateMachine.statusOf
                     (ThreadStateMachine.applyEvent canonical t) W) = true
  /\ ThreadStateMachine.activeTurnIdByThread
       (ThreadStateMachine.applyEvent canonical t) !! W = Some "t1".
Proof.
  cbn. split; [reflexivity|].
  unfold ThreadStateMachine.statusOf. cbn.
  now rewrite !lookup_insert_eq.
Qed.

(** ** The SDK service and the backend commands *)

Section CommandFacts.

Variable sdk : Sdk.

(** [sendUserMessage], step by step. *)
Lemma sendUserMessage_eq (W T text : string) (images : option (list string))
    (w : World) :
  let started := CopilotBackend.turnStarted W T (now w) in
  let w1 := {| workspaceClients := workspaceClients w;
               now := now w;
               calls := calls w ++ [EmitAppServerEvent started] |} in
  CopilotBackend.sendUserMessage sdk W T text images w =
    match workspaceClients w !! W ≫= session with
    | None => (Throw (CopilotSdk.noActiveSession W), w1)
    | Some s =>
        let o := CopilotSdk.messageOptions text images in
        (match session_send sdk w1 s o with
         | Ok _ => Ok tt
         | Throw e => Throw e
         end,
         {| workspaceClients := workspaceClients w;
            now := now w;
            calls := calls w ++ [EmitAppServerEvent started; SessionSend s o] |})
    end.
Proof.
  cbn. unfold CopilotBackend.sendUserMessage, CopilotSdk.sendMessage,
    emitAppServerEvent, MonadM.bind, MonadM.getWorld, MonadM.record,
    MonadM.await, MonadM.throw, MonadM.ret.
  cbn. destruct (workspaceClients w !! W ≫= session) as [s|]; cbn.
  - rewrite <- app_assoc. cbn.
    now destruct (session_send sdk _ s _).
  - reflexivity.
Qed.

Lemma interruptTurn_eq (W : string) (w : World) :
  CopilotBackend.interruptTurn sdk W w =
    match workspaceClients w !! W ≫= session with
    | None => (Ok tt, w)
    | Some s =>
        (session_abort sdk w s,
         {| workspaceClients := workspaceClients w;
            now := now w;
            calls := calls w ++ [SessionAbort s] |})
    end.
Proof.
  unfold CopilotBackend.interruptTurn, CopilotSdk.abortSession,
    MonadM.bind, MonadM.getWorld, MonadM.await, MonadM.ret.
  cbn. now destruct (workspaceClients w !! W ≫= session).
Qed.

Lemma threadsOf_app (w : World) (cs : list Call) :
  ThreadStateMachine.threadsOf
    {| workspaceClients := workspaceClients w;
       now := now w;
       calls := calls w ++ cs |}
  = fold_left ThreadStateMachine.applyCall cs (ThreadStateMachine.threadsOf w).
Proof. unfold ThreadStateMachine.threadsOf. cbn. apply fold_left_app. Qed.

Lemma applyEvent_turnStarted (W T : string) (t : Z)
    (ts : ThreadStateMachine.Threads) :
  ThreadStateMachine.applyEvent (CopilotBackend.turnStarted W T t) ts
  = ThreadStateMachine.startTurn T (CopilotBackend.turnId t) ts.
Proof. reflexivity. Qed.

End CommandFacts.

(** C9. For a workspace id that is not in the connection map,
    [createSession], [listModels] and [getAuthStatus] reject with the error
    [Workspace <id> is not connected]; the connection map is left as it
    was, and so is everything else: no request is made. *)
Theorem not_connected_rejects (sdk : Sdk) (workspaceId : string)
    (config : option (list (string * value))) (w : World) :
  workspaceClients w !! workspaceId = None ->
  CopilotSdk.createSession sdk workspaceId config w
    = (Throw ("Workspace " +:+ workspaceId +:+ " is not connected"), w)
  /\ CopilotSdk.listModels sdk workspaceId w
    = (Throw ("Workspace " +:+ workspaceId +:+ " is not connected"), w)
  /\ CopilotSdk.getAuthStatus sdk workspaceId w
    = (Throw ("Workspace " +:+ workspaceId +:+ " is not connected"), w).
Proof.
  intros Hnone.
  unfold CopilotSdk.createSession, CopilotSdk.listModels,
    CopilotSdk.getAuthStatus, MonadM.bind, MonadM.getWorld.
  cbn. rewrite Hnone. repeat split.
Qed.

Lemma not_connected_rejects_witness :
  workspaceClients Examples.idleWorld !! "other" = None
  /\ CopilotSdk.createSession Examples.okSdk "other" None Examples.idleWorld
     = (Throw "Workspace other is not connected", Examples.idleWorld)
  /\ CopilotSdk.listModels Examples.okSdk "other" Examples.idleWorld
     = (Throw "Workspace other is not connected", Examples.idleWorld)
  /\ CopilotSdk.getAuthStatus Examples.okSdk "other" Examples.idleWorld
     = (Throw "Workspace other is not connected", Examples.idleWorld).
Proof.
  split; [reflexivity|].
  apply (not_connected_rejects Examples.okSdk "other" None Examples.idleWorld).
  reflexivity.
Defined.

(** C10. Every call to [sendUserMessage] emits exactly one canonical event,
    a [turn/started] whose turn id is ["turn-"] followed by the current
    time, and emits it before [session.send] is requested; the event is
    emitted also when there is no session to send on and when the backend
    rejects the send. *)
Theorem sendUserMessage_emits_turn_started (sdk : Sdk) (W T text : string)
    (images : option (list string)) (w : World) :
  let started := CopilotBackend.turnStarted W T (now w) in
  let r := CopilotBackend.sendUserMessage sdk W T text images w in
  method (message started) = "turn/started"
  /\ Js.getOpt (params (message started)) "turn"
     = VObj [("id", VStr ("turn-" +:+ pretty (now w))); ("threadId", VStr T)]
  /\ workspaceClients r.2 = workspaceClients w
  /\ match workspaceClients w !! W ≫= session with
     | None =>
         r.1 = Throw ("No active session for workspace " +:+ W)
         /\ calls r.2 = calls w ++ [EmitAppServerEvent started]
     | Some s =>
         let o := CopilotSdk.messageOptions text images in
         calls r.2 = calls w ++ [EmitAppServerEvent started; SessionSend s o]
         /\ (r.1 = Ok tt \/ exists e, r.1 = Throw e)
     end.
Proof.
  cbn zeta. rewrite sendUserMessage_eq. cbn zeta.
  split; [reflexivity|]. split; [reflexivity|].
  destruct (workspaceClients w !! W ≫= session) as [s|]; cbn.
  - split; [reflexivity|]. split; [reflexivity|].
    destruct (session_send sdk _ s _); eauto.
  - repeat split.
Qed.

(** C1 as stated fails: thread ["s1"] is Processing, yet a further
    [sendUserMessage] on it is accepted, a second [turn/started] is emitted
    and the thread's active turn changes. *)
Lemma busy_thread_counterexample :
  let before := ThreadStateMachine.threadsOf Examples.busyWorld in
  let r := CopilotBackend.sendUserMessage Examples.okSdk "W" "s1" "again"
             None Examples.busyWorld in
  let after := ThreadStateMachine.threadsOf r.2 in
  isProcessing (ThreadStateMachine.statusOf before "s1") = true
  /\ ThreadStateMachine.activeTurnIdByThread before !! "s1" = Some "turn-1000"
  /\ r.1 = Ok tt
  /\ calls r.2
     = calls Examples.busyWorld
         ++ [EmitAppServerEvent (CopilotBackend.turnStarted "W" "s1" 2000);
             SessionSend {| sessionId := "s1" |}
               {| prompt := "again"; attachments := None |}]
  /\ ThreadStateMachine.activeTurnIdByThread after !! "s1" = Some "turn-2000".
Proof. vm_compute. repeat split. Qed.

(** C1, amended. [sendUserMessage] does not look at the thread's status:
    whatever it is, Processing included, the call emits a [turn/started]
    for the thread, which makes the thread Processing with the new turn as
    its active turn, and then requests [session.send] with the message. It
    rejects only when the workspace has no session, with
    [No active session for workspace <id>] and without a send, or when the
    backend rejects the send, with the backend's error; there is no Busy
    rejection. *)
Theorem sendUserMessage_ignores_status (sdk : Sdk) (W T text : string)
    (images : option (list string)) (w : World) :
  let started := CopilotBackend.turnStarted W T (now w) in
  let w1 := {| workspaceClients := workspaceClients w;
               now := now w;
               calls := calls w ++ [EmitAppServerEvent started] |} in
  let o := CopilotSdk.messageOptions text images in
  let r := CopilotBackend.sendUserMessage sdk W T text images w in
  let after := ThreadStateMachine.threadsOf r.2 in
  after = ThreadStateMachine.applyEvent started (ThreadStateMachine.threadsOf w)
  /\ isProcessing (ThreadStateMachine.statusOf after T) = true
  /\ ThreadStateMachine.activeTurnIdByThread after !! T
     = Some (CopilotBackend.turnId (now w))
  /\ workspaceClients r.2 = workspaceClients w
  /\ match workspaceClients w !! W ≫= session with
     | None =>
         r.1 = Throw ("No active session for workspace " +:+ W)
         /\ calls r.2 = calls w ++ [EmitAppServerEvent started]
     | Some s =>
         calls r.2 = calls w ++ [EmitAppServerEvent started; SessionSend s o]
         /\ r.1 = match session_send sdk w1 s o with
                  | Ok _ => Ok tt
                  | Throw e => Throw e
                  end
     end.
Proof.
  cbn zeta. rewrite sendUserMessage_eq. cbn zeta.
  destruct (workspaceClients w !! W ≫= session) as [s|]; cbn [fst snd];
    rewrite threadsOf_app; cbn [fold_left ThreadStateMachine.applyCall];
    rewrite applyEvent_turnStarted;
    unfold ThreadStateMachine.statusOf, ThreadStateMachine.startTurn;
    cbn [ThreadStateMachine.threadStatusById
         ThreadStateMachine.activeTurnIdByThread];
    rewrite !lookup_insert_eq; repeat split.
Qed.

(** C7 as stated fails: no thread of workspace ["W"] has an active turn,
    yet [interruptTurn] asks the session to abort and fails when that
    request is rejected. *)
Lemma interrupt_idle_counterexample :
  ThreadStateMachine.threadsOf Examples.idleWorld = ThreadStateMachine.initial
  /\ CopilotBackend.interruptTurn Examples.failingSdk "W" Examples.idleWorld
     = (Throw "Connection is closed",
        {| workspaceClients := workspaceClients Examples.idleWorld;
           now := now Examples.idleWorld;
           calls := [SessionAbort {| sessionId := "s1" |}] |}).
Proof.
  split; [reflexivity|].
  rewrite interruptTurn_eq. reflexivity.
Qed.

Section InterruptFacts.

Import ThreadStateMachine.

Lemma applyEvent_consistent (e : AppServerEvent) (t : Threads) :
  turnsConsistent t -> turnsConsistent (applyEvent e t).
Proof.
  intros Ht.
  assert (Hstart : forall T0 turn, turnsConsistent (startTurn T0 turn t)).
  { intros T0 turn T st. unfold startTurn. cbn.
    destruct (decide (T = T0)) as [->|Hne].
    - rewrite !lookup_insert_eq. eauto.
    - rewrite !lookup_insert_ne by congruence. apply Ht. }
  assert (Hend : forall T0, turnsConsistent (endTurn T0 t)).
  { intros T0 T st. unfold endTurn. cbn.
    destruct (decide (T = T0)) as [->|Hne].
    - rewrite lookup_insert_eq. intros [= <-]. discriminate.
    - rewrite lookup_insert_ne, lookup_delete_ne by congruence. apply Ht. }
  unfold applyEvent.
  destruct (String.eqb _ "turn/started").
  { destruct (stringOf _); [|exact Ht].
    destruct (stringOf _); [apply Hstart|exact Ht]. }
  destruct (String.eqb _ "turn/completed").
  { destruct (stringOf _); [apply Hend|exact Ht]. }
  destruct (String.eqb _ "error"); [|exact Ht].
  destruct (stringOf _); [apply Hend|exact Ht].
Qed.

Lemma threadsOf_consistent (w : World) : turnsConsistent (threadsOf w).
Proof.
  unfold threadsOf.
  assert (H : forall cs t, turnsConsistent t ->
                           turnsConsistent (fold_left applyCall cs t)).
  { induction cs as [|c cs IH]; intros t Ht; [exact Ht|].
    cbn [fold_left]. apply IH.
    destruct c; try exact Ht. now apply applyEvent_consistent. }
  apply H. intros T st Hst. cbn in Hst. now rewrite lookup_empty in Hst.
Qed.

(** Clearing a thread that has no active turn changes nothing. *)
Lemma interruptAcknowledged_idle (T : string) (t : Threads) :
  turnsConsistent t ->
  activeTurnIdByThread t !! T = None ->
  interruptAcknowledged T t = t.
Proof.
  intros Ht Hidle. unfold interruptAcknowledged. destruct t as [status active].
  cbn in *. f_equal.
  - apply alter_id. intros [p r] Hst. cbn. f_equal.
    destruct p; [|reflexivity].
    destruct (Ht T _ Hst eq_refl) as [turn Hturn]. cbn in Hturn. congruence.
  - now apply delete_id.
Qed.

End InterruptFacts.

(** C7, amended. Interrupting a thread that has no active turn is a no-op
    when the workspace has no session: no request is made, the call
    completes without error and nothing changes. When the workspace has a
    session, the session is asked to abort although no turn is active, and
    the call completes or throws as that request does. In every case the
    connection map and the thread state are left as they were: an
    acknowledged interrupt finds nothing to clear. *)
Theorem interrupt_without_active_turn (sdk : Sdk) (W T : string) (w : World) :
  ThreadStateMachine.activeTurnIdByThread (ThreadStateMachine.threadsOf w) !! T
    = None ->
  let r := CopilotBackend.interruptTurn sdk W w in
  ThreadStateMachine.interrupt sdk W T w = (r, ThreadStateMachine.threadsOf w)
  /\ workspaceClients r.2 = workspaceClients w
  /\ match workspaceClients w !! W ≫= session with
     | None => r = (Ok tt, w)
     | Some s =>
         r.1 = session_abort sdk w s
         /\ calls r.2 = calls w ++ [SessionAbort s]
     end.
Proof.
  intros Hidle. cbn zeta. unfold ThreadStateMachine.interrupt.
  rewrite interruptTurn_eq.
  destruct (workspaceClients w !! W ≫= session) as [s|]; cbn [fst snd].
  - rewrite threadsOf_app. cbn [fold_left ThreadStateMachine.applyCall].
    split; [|now repeat split].
    destruct (session_abort sdk w s); [|reflexivity].
    now rewrite (interruptAcknowledged_idle T _ (threadsOf_consistent w) Hidle).
  - now repeat split.
Qed.

Lemma interrupt_without_active_turn_witness :
  ThreadStateMachine.activeTurnIdByThread
    (ThreadStateMachine.threadsOf Examples.idleWorld) !! "s1" = None
  /\ let r := CopilotBackend.interruptTurn Examples.okSdk "W"
                Examples.idleWorld in
     ThreadStateMachine.interrupt Examples.okSdk "W" "s1" Examples.idleWorld
     = (r, ThreadStateMachine.threadsOf Examples.idleWorld)
     /\ workspaceClients r.2 = workspaceClients Examples.idleWorld
     /\ match workspaceClients Examples.idleWorld !! "W" ≫= session with
        | None => r = (Ok tt, Examples.idleWorld)
        | Some s =>
            r.1 = session_abort Examples.okSdk Examples.idleWorld s
            /\ calls r.2 = calls Examples.idleWorld ++ [SessionAbort s]
        end.
Proof.
  split; [reflexivity|].
  exact (interrupt_without_active_turn Examples.okSdk "W" "s1"
           Examples.idleWorld eq_refl).
Defined.

(** An acknowledged interrupt of a thread that is Processing clears it:
    thread ["s1"] of [busyWorld] has no active turn afterwards. *)
Example interrupt_busy_example :
  let r := ThreadStateMachine.interrupt Examples.okSdk "W" "s1"
             Examples.busyWorld in
  ThreadStateMachine.activeTurnIdByThread
    (ThreadStateMachine.threadsOf Examples.busyWorld) !! "s1"
  = Some "turn-1000"
  /\ r.1.1 = Ok tt
  /\ ThreadStateMachine.activeTurnIdByThread r.2 !! "s1" = None
  /\ isProcessing (ThreadStateMachine.statusOf r.2 "s1") = false.
Proof. vm_compute. repeat split. Qed.

(** ** Strings *)

Section StringFacts.

Lemma string_app_assoc (a b c : string) : (a +:+ b) +:+ c = a +:+ b +:+ c.
Proof.
  induction a as [|x a IH]; [reflexivity|].
  change (String x ((a +:+ b) +:+ c) = String x (a +:+ b +:+ c)).
  now rewrite IH.
Qed.

Lemma string_app_nil_inv (a b : string) :
  a +:+ b = EmptyString -> a = EmptyString /\ b = EmptyString.
Proof. destruct a; cbn; [now split|discriminate]. Qed.

(** A final character can be cancelled. *)
Lemma string_snoc_inj (a b : string) (c : ascii) :
  a +:+ String c EmptyString = b +:+ String c EmptyString -> a = b.
Proof.
  revert b. induction a as [|x a IH]; intros [|y b]; cbn.
  - reflexivity.
  - intros [= -> H]. symmetry in H.
    apply string_app_nil_inv in H as [_ H]. discriminate H.
  - intros [= -> H]. apply string_app_nil_inv in H as [_ H]. discriminate H.
  - intros [= -> H]. f_equal. now apply IH.
Qed.

End StringFacts.

(** ** useThreads: detached reviews *)

Section ReviewFacts.

Import UseThreads.

(** [handleReviewExited] once its two guards are passed. *)
Lemma handleReviewExited_eq (state : ThreadState) (active : option string)
    (now : Z) (W R P : string) (notified : gset string) :
  threadParentById state !! R = Some P ->
  P <> "" ->
  P <> R ->
  isReviewing <$> threadStatusById state !! P = Some true ->
  handleReviewExited state active now W R notified =
    ([markReviewing P false;
      markProcessing P false;
      setActiveTurnId P None;
      recordThreadActivity W P now;
      dispatch (setThreadTimestamp W P now)]
       ++ (if bool_decide (noticeKey P R ∈ notified) then []
           else [dispatch (addAssistantMessage P (noticeText R))])
       ++ (if bool_decide (Some P ≠ active)
           then [dispatch (markUnread P true)] else [])
       ++ [safeMessageActivity],
     if bool_decide (noticeKey P R ∈ notified) then notified
     else {[noticeKey P R]} ∪ notified).
Proof.
  intros Hparent Hne HPR Hrev. unfold handleReviewExited.
  rewrite Hparent, Hrev. cbn [default negb].
  assert (nonEmpty P = true) as ->.
  { unfold nonEmpty. destruct (String.eqb_spec P ""); [contradiction|reflexivity]. }
  destruct (String.eqb_spec P R); [contradiction|]. reflexivity.
Qed.

End ReviewFacts.

(** C4 as stated fails: ["R"] is a review thread with parent ["P"], but
    ["P"] has no Reviewing status; when ["R"] exits, nothing is appended to
    ["P"] and ["P"] is not marked unread although it is not the active
    thread. *)
Lemma detached_review_counterexample :
  UseThreads.threadParentById Examples.restartedState !! "R" = Some "P"
  /\ UseThreads.handleReviewExited Examples.restartedState (Some "R") 1000
       "W" "R" ∅ = ([], ∅).
Proof. split; reflexivity. Qed.

Section NoticeFacts.

Import UseThreads.

Lemma assistantMessages_app (a b : list HookCall) :
  assistantMessages (a ++ b) = assistantMessages a ++ assistantMessages b.
Proof. apply omap_app. Qed.

(** A parent id without ["->"] can be read back from the key. *)
Lemma noticeKey_inj (P P' R R' : string) :
  arrowFree P = true -> arrowFree P' = true ->
  noticeKey P R = noticeKey P' R' -> P = P' /\ R = R'.
Proof.
  unfold noticeKey. revert P'.
  induction P as [|c P IH]; intros [|c' P'] HP HP' H.
  - now apply (inj (String.app "->")) in H.
  - change (String "-" (String ">" R)
            = String c' (P' +:+ String "-" (String ">" R'))) in H.
    injection H as <- H. destruct P' as [|d P'].
    + discriminate H.
    + injection H as <- _. cbn in HP'. discriminate HP'.
  - change (String c (P +:+ String "-" (String ">" R))
            = String "-" (String ">" R')) in H.
    injection H as -> H. destruct P as [|d P].
    + discriminate H.
    + injection H as -> _. cbn in HP. discriminate HP.
  - change (String c (P +:+ "->" +:+ R) = String c' (P' +:+ "->" +:+ R')) in H.
    injection H as -> H.
    cbn [arrowFree] in HP, HP'.
    apply andb_prop in HP as [_ HP]. apply andb_prop in HP' as [_ HP'].
    destruct (IH P' HP HP' H) as [-> ->]. now split.
Qed.

Lemma noticeText_inj (R R' : string) : noticeText R = noticeText R' -> R = R'.
Proof.
  unfold noticeText. intros H.
  apply (inj (String.app _)) in H. now apply string_snoc_inj in H.
Qed.

(** One exit: the notice it appends, if any, and what it records. *)
Lemma handleReviewExited_notice (state : ThreadState)
    (active : option string) (now : Z) (W R : string)
    (notified : gset string) :
  let r := handleReviewExited state active now W R notified in
  (assistantMessages r.1 = [] /\ r.2 = notified)
  \/ exists P,
       threadParentById state !! R = Some P
       /\ (noticeKey P R ∉ notified)
       /\ assistantMessages r.1 = [(P, noticeText R)]
       /\ r.2 = {[noticeKey P R]} ∪ notified.
Proof.
  cbn zeta. unfold handleReviewExited.
  destruct (threadParentById state !! R) as [P|]; [|now left].
  destruct (negb (nonEmpty P) || String.eqb P R); [now left|].
  destruct (negb _); [now left|].
  case_bool_decide as Hkey; cbn [fst snd].
  - left. split; [|reflexivity]. cbn.
    now destruct (bool_decide (Some P ≠ active)).
  - right. exists P. repeat split; [exact Hkey|]. cbn.
    now destruct (bool_decide (Some P ≠ active)).
Qed.

Lemma handleReviewExits_snoc (exits : list ReviewExit) (x : ReviewExit)
    (notified : gset string) :
  handleReviewExits (exits ++ [x]) notified
  = let acc := handleReviewExits exits notified in
    let r := handleReviewExited (ex_state x) (ex_active x) (ex_now x)
               (ex_workspaceId x) (ex_threadId x) acc.2 in
    (acc.1 ++ r.1, r.2).
Proof. unfold handleReviewExits. now rewrite fold_left_app. Qed.

(** Every key recorded in a run that started with no record belongs to a
    notice the run appended. *)
Lemma handleReviewExits_recorded (exits : list ReviewExit) (k : string) :
  k ∈ (handleReviewExits exits ∅).2 ->
  exists x P,
    x ∈ exits
    /\ threadParentById (ex_state x) !! ex_threadId x = Some P
    /\ k = noticeKey P (ex_threadId x)
    /\ (P, noticeText (ex_threadId x))
       ∈ assistantMessages (handleReviewExits exits ∅).1.
Proof.
  induction exits as [|x exits IH] using rev_ind.
  - cbn. intros H. now apply not_elem_of_empty in H.
  - rewrite handleReviewExits_snoc. cbn zeta. cbn [fst snd].
    rewrite assistantMessages_app.
    destruct (handleReviewExited_notice (ex_state x) (ex_active x) (ex_now x)
                (ex_workspaceId x) (ex_threadId x)
                (handleReviewExits exits ∅).2)
      as [[Hnone ->]|(P & Hparent & Hkey & Hmsg & ->)].
    + intros Hk. destruct (IH Hk) as (x' & P & Hin & Hp & -> & Hm).
      exists x', P. repeat split; try assumption.
      * apply elem_of_app. now left.
      * apply elem_of_app. now left.
    + rewrite Hmsg, elem_of_union, elem_of_singleton. intros [->|Hk].
      * exists x, P. repeat split; try assumption.
        -- apply elem_of_app. right. constructor.
        -- apply elem_of_app. right. constructor.
      * destruct (IH Hk) as (x' & P' & Hin & Hp & -> & Hm).
        exists x', P'. repeat split; try assumption.
        -- apply elem_of_app. now left.
        -- apply elem_of_app. now left.
Qed.

(** Once the key of a pair is recorded, no run appends a notice for the
    pair. *)
Lemma handleReviewExits_silent (exits : list ReviewExit) (P R : string)
    (notified : gset string) :
  noticeKey P R ∈ notified ->
  noticeKey P R ∈ (handleReviewExits exits notified).2
  /\ (P, noticeText R) ∉ assistantMessages (handleReviewExits exits notified).1.
Proof.
  intros Hkey. induction exits as [|x exits [IH1 IH2]] using rev_ind.
  - cbn. split; [exact Hkey|]. intros H. inversion H.
  - rewrite handleReviewExits_snoc. cbn zeta. cbn [fst snd].
    rewrite assistantMessages_app.
    destruct (handleReviewExited_notice (ex_state x) (ex_active x) (ex_now x)
                (ex_workspaceId x) (ex_threadId x)
                (handleReviewExits exits notified).2)
      as [[Hnone ->]|(P' & Hparent & Hfresh & Hmsg & ->)].
    + rewrite Hnone, app_nil_r. now split.
    + rewrite Hmsg. split; [set_solver|].
      rewrite elem_of_app, list_elem_of_singleton. intros [H|H]; [now apply IH2|].
      assert (HPeq : P = P') by exact (f_equal fst H).
      assert (HR : noticeText R = noticeText (ex_threadId x))
        by exact (f_equal snd H).
      apply noticeText_inj in HR. subst P' R. now apply Hfresh.
Qed.

End NoticeFacts.

(** C4, amended. Let review thread [R] exit under parent [P] (a different
    thread, whose id does not contain ["->"]), after any earlier exits, of
    review threads whose parents' ids do not contain ["->"] either, in
    which no notice for the pair was appended. If [P] is Reviewing,
    exactly one assistant message is appended to [P], the notice that
    links to [R]; [P] is marked unread exactly when it is not the active
    thread; and whatever exits follow, no further notice for the pair is
    appended. If [P] is not Reviewing, nothing is done: no notice, no
    unread mark. *)
Theorem detached_review_notice_once (history : list UseThreads.ReviewExit)
    (state : UseThreads.ThreadState) (active : option string) (now : Z)
    (W R P : string) :
  let before := UseThreads.handleReviewExits history ∅ in
  (forall x P',
      x ∈ history ->
      UseThreads.threadParentById (UseThreads.ex_state x)
        !! UseThreads.ex_threadId x = Some P' ->
      UseThreads.arrowFree P' = true) ->
  UseThreads.arrowFree P = true ->
  UseThreads.threadParentById state !! R = Some P ->
  P <> "" ->
  P <> R ->
  ((P, UseThreads.noticeText R) ∉ UseThreads.assistantMessages before.1) ->
  let r := UseThreads.handleReviewExited state active now W R before.2 in
  if UseThreads.reviewing state P
  then UseThreads.assistantMessages r.1 = [(P, UseThreads.noticeText R)]
       /\ UseThreads.unreadMarks r.1
          = (if bool_decide (Some P ≠ active) then [(P, true)] else [])
       /\ forall later : list UseThreads.ReviewExit,
            (P, UseThreads.noticeText R)
            ∉ UseThreads.assistantMessages
                (UseThreads.handleReviewExits later r.2).1
  else r = ([], before.2).
Proof.
  cbn zeta. intros Hhistory HP Hparent Hne HPR Hfresh.
  assert (Hkey : UseThreads.noticeKey P R
                 ∉ (UseThreads.handleReviewExits history ∅).2).
  { intros Hin.
    destruct (handleReviewExits_recorded _ _ Hin)
      as (x & P' & Hx & Hp & Heq & Hmsg).
    apply noticeKey_inj in Heq as [-> ->];
      [now apply Hfresh|assumption|now apply (Hhistory x)]. }
  destruct (UseThreads.reviewing state P) eqn:Hrev.
  - assert (Hrev' : isReviewing <$> UseThreads.threadStatusById state !! P
                    = Some true).
    { revert Hrev. unfold UseThreads.reviewing.
      now destruct (isReviewing <$> UseThreads.threadStatusById state !! P)
        as [[|]|]. }
    rewrite (handleReviewExited_eq _ _ _ _ _ _ _ Hparent Hne HPR Hrev').
    rewrite (bool_decide_eq_false_2 _ Hkey). cbn [fst snd].
    split; [|split].
    + cbn. now destruct (bool_decide (Some P ≠ active)).
    + cbn. now destruct (bool_decide (Some P ≠ active)).
    + intros later. apply handleReviewExits_silent. set_solver.
  - unfold UseThreads.handleReviewExited. rewrite Hparent.
    destruct (negb (UseThreads.nonEmpty P) || String.eqb P R); [reflexivity|].
    fold (UseThreads.reviewing state P). now rewrite Hrev.
Qed.

Lemma detached_review_notice_once_witness :
  let history :=
    [{| UseThreads.ex_state := Examples.restartedState;
        UseThreads.ex_active := Some "R";
        UseThreads.ex_now := 500;
        UseThreads.ex_workspaceId := "W";
        UseThreads.ex_threadId := "R" |}] in
  let before := UseThreads.handleReviewExits history ∅ in
  (forall x P',
      x ∈ history ->
      UseThreads.threadParentById (UseThreads.ex_state x)
        !! UseThreads.ex_threadId x = Some P' ->
      UseThreads.arrowFree P' = true)
  /\ UseThreads.arrowFree "P" = true
  /\ UseThreads.threadParentById Examples.reviewState !! "R" = Some "P"
  /\ "P" <> ""
  /\ "P" <> "R"
  /\ (("P", UseThreads.noticeText "R")
      ∉ UseThreads.assistantMessages before.1)
  /\ UseThreads.reviewing Examples.reviewState "P" = true
  /\ let r := UseThreads.handleReviewExited Examples.reviewState (Some "R")
                1000 "W" "R" before.2 in
     UseThreads.assistantMessages r.1 = [("P", UseThreads.noticeText "R")]
     /\ UseThreads.unreadMarks r.1
        = (if bool_decide (Some "P" ≠ Some "R") then [("P", true)] else [])
     /\ forall later : list UseThreads.ReviewExit,
          ("P", UseThreads.noticeText "R")
          ∉ UseThreads.assistantMessages
              (UseThreads.handleReviewExits later r.2).1.
Proof.
  cbn zeta.
  assert (H0 : forall x P',
             x ∈ [{| UseThreads.ex_state := Examples.restartedState;
                     UseThreads.ex_active := Some "R";
                     UseThreads.ex_now := 500;
                     UseThreads.ex_workspaceId := "W";
                     UseThreads.ex_threadId := "R" |}] ->
             UseThreads.threadParentById (UseThreads.ex_state x)
               !! UseThreads.ex_threadId x = Some P' ->
             UseThreads.arrowFree P' = true).
  { intros x P' Hx. apply list_elem_of_singleton in Hx as ->.
    intros H. apply (inj Some) in H. now subst P'. }
  assert (H1 : UseThreads.arrowFree "P" = true) by reflexivity.
  assert (H2 : UseThreads.threadParentById Examples.reviewState !! "R"
               = Some "P") by reflexivity.
  assert (H3 : "P" <> "") by discriminate.
  assert (H4 : "P" <> "R") by discriminate.
  assert (H5 : ("P", UseThreads.noticeText "R")
               ∉ UseThreads.assistantMessages
                   (UseThreads.handleReviewExits
                      [{| UseThreads.ex_state := Examples.restartedState;
                          UseThreads.ex_active := Some "R";
                          UseThreads.ex_now := 500;
                          UseThreads.ex_workspaceId := "W";
                          UseThreads.ex_threadId := "R" |}] ∅).1).
  { vm_compute. intros H. inversion H. }
  pose proof (detached_review_notice_once _ Examples.reviewState (Some "R")
                1000 "W" "R" "P" H0 H1 H2 H3 H4 H5) as H.
  cbn zeta in H.
  change (UseThreads.reviewing Examples.reviewState "P") with true in H.
  cbv iota in H.
  split; [exact H0|]. split; [exact H1|]. split; [exact H2|].
  split; [exact H3|]. split; [exact H4|]. split; [exact H5|].
  split; [reflexivity|]. exact H.
Defined.

(** Why the parents' ids are taken free of ["->"]: the hook records a
    notice under the parent id, ["->"] and the thread id written one after
    the other, which two different pairs can share; after the exit of one
    of them, the first exit of the other appends no notice. *)
Example noticeKey_shared :
  UseThreads.noticeKey "a" "b->c" = UseThreads.noticeKey "a->b" "c"
  /\ ("a", "b->c") <> ("a->b", "c").
Proof. split; [reflexivity|discriminate]. Qed.

(** ** useThreads: merge on load *)

Section HistoryFacts.

Import UseThreads.

Lemma insertThread_perm (x : ThreadSummary) (l : list ThreadSummary) :
  insertThread x l ≡ₚ x :: l.
Proof.
  induction l as [|y l IH]; cbn; [reflexivity|].
  destruct (compareThreads x y <=? 0); [reflexivity|].
  rewrite IH. apply Permutation_swap.
Qed.

Lemma sortThreads_perm (l : list ThreadSummary) : sortThreads l ≡ₚ l.
Proof.
  induction l as [|x l IH]; cbn; [reflexivity|].
  rewrite insertThread_perm. now rewrite IH.
Qed.

Lemma isAddition_Some (ids : gset string) (o : option ThreadSummary)
    (t : ThreadSummary) :
  isAddition ids o = Some t -> o = Some t /\ ts_id t <> "" /\ ts_id t ∉ ids.
Proof.
  destruct o as [t'|]; cbn; [|discriminate].
  destruct (nonEmpty (ts_id t')) eqn:Hne; cbn; [|discriminate].
  case_bool_decide as Hin; cbn; [|discriminate].
  intros [= <-]. repeat split; [|assumption].
  intros Heq. unfold nonEmpty in Hne. now rewrite Heq in Hne.
Qed.

Lemma additionsOf_elem (state : ThreadState) (W : string)
    (snapshot : ThreadHistorySnapshot) (t : ThreadSummary) :
  t ∈ additionsOf state W snapshot ->
  Some t ∈ default [] (snap_threads snapshot)
  /\ ts_id t <> ""
  /\ ts_id t ∉ map ts_id (default [] (threadsByWorkspace state !! W)).
Proof.
  unfold additionsOf. rewrite list_elem_of_omap.
  intros (o & Hin & Hadd). apply isAddition_Some in Hadd as (-> & Hne & Hfresh).
  repeat split; [assumption..|].
  intros Hmem. apply Hfresh. now apply elem_of_list_to_set.
Qed.

(** What one round of [mergedThreads.forEach] dispatches. *)
Lemma restoreThread_fst (state : ThreadState) (now : Z)
    (its : list (string * option (list ConversationItem)))
    (th : ThreadSummary) (acc : list HookCall * gmap string bool) :
  (restoreThread state now its th acc).1
  = acc.1 ++ (restoreThread state now its th ([], acc.2)).1.
Proof.
  unfold restoreThread.
  destruct (itemsFor (ts_id th) its) as [[|i items]|]; cbn;
    now rewrite ?app_nil_r.
Qed.

Lemma restoreThread_shape (state : ThreadState) (now : Z)
    (its : list (string * option (list ConversationItem)))
    (th : ThreadSummary) (m : gmap string bool) (c : HookCall) :
  c ∈ (restoreThread state now its th ([], m)).1 ->
  (exists items,
      c = dispatch (setThreadItems (ts_id th) items)
      /\ liveLogEmpty state (ts_id th) = true
      /\ itemsFor (ts_id th) its = Some items)
  \/ (exists text timestamp,
        c = dispatch (setLastAgentMessage (ts_id th) text timestamp)).
Proof.
  unfold restoreThread.
  destruct (itemsFor (ts_id th) its) as [[|i items]|] eqn:Hits; cbn;
    [intros H; inversion H| |intros H; inversion H].
  rewrite elem_of_app. intros [Hc|Hc].
  - destruct (liveLogEmpty state (ts_id th)) eqn:Hlive; [|inversion Hc].
    apply list_elem_of_singleton in Hc as ->. left. eauto.
  - destruct (List.find isAssistantMessage _)
      as [[id role text| | | |]|]; try (inversion Hc; fail).
    apply list_elem_of_singleton in Hc as ->. right. eauto.
Qed.

(** A log that the callback finds empty is empty or missing in the state
    it reads. *)
Lemma liveLogEmpty_own (state : ThreadState) (k : string) :
  liveLogEmpty state k = true -> default [] (itemsByThread state !! k) = [].
Proof.
  unfold liveLogEmpty, read.
  destruct (itemsByThread state !! k) as [[|i items]|]; cbn; try done.
Qed.

Lemma restoreThreads_elem (state : ThreadState) (now : Z)
    (its : list (string * option (list ConversationItem)))
    (l : list ThreadSummary) (acc : list HookCall * gmap string bool)
    (c : HookCall) :
  c ∈ (fold_left (fun acc thread => restoreThread state now its thread acc)
         l acc).1 ->
  c ∈ acc.1
  \/ exists th m, th ∈ l /\ c ∈ (restoreThread state now its th ([], m)).1.
Proof.
  revert acc. induction l as [|th l IH]; intros acc; cbn; [now left|].
  intros Hc. apply IH in Hc as [Hc|(th' & m & Hin & Hc)].
  - rewrite restoreThread_fst, elem_of_app in Hc. destruct Hc as [Hc|Hc].
    + now left.
    + right. exists th, acc.2. split; [constructor|assumption].
  - right. exists th', m. split; [now constructor|assumption].
Qed.

Lemma restoreThreads_intro (state : ThreadState) (now : Z)
    (its : list (string * option (list ConversationItem)))
    (l : list ThreadSummary)
    (acc : list HookCall * gmap string bool) (c : HookCall) :
  c ∈ acc.1
  \/ (exists th m, th ∈ l /\ c ∈ (restoreThread state now its th ([], m)).1) ->
  c ∈ (fold_left (fun acc thread => restoreThread state now its thread acc)
         l acc).1.
Proof.
  revert acc. induction l as [|th l IH]; intros acc.
  - intros [Hc|(th & m & Hin & _)]; [exact Hc|inversion Hin].
  - intros Hc. cbn [fold_left]. apply IH.
    destruct Hc as [Hc|(th' & m & Hin & Hc)].
    + left. rewrite restoreThread_fst, elem_of_app. now left.
    + apply elem_of_cons in Hin as [->|Hin].
      * left. rewrite restoreThread_fst, elem_of_app. right.
        revert Hc. unfold restoreThread.
        now destruct (itemsFor (ts_id th) its) as [[|i items]|].
      * right. eauto.
Qed.

Lemma restoreParent_shape (entry : string * value) (c : HookCall) :
  c ∈ restoreParent entry ->
  exists parentId, c = dispatch (setThreadParent entry.1 parentId).
Proof.
  unfold restoreParent.
  destruct entry.2 as [| | | |p| |]; try (intros H; inversion H; fail).
  destruct (nonEmpty p); [|intros H; inversion H].
  intros ->%list_elem_of_singleton. eauto.
Qed.

End HistoryFacts.

Section MergeFacts.

Import UseThreads.

Lemma elem_threadLists (W : string) (l : list ThreadSummary)
    (cs : list HookCall) :
  (W, l) ∈ threadLists cs <-> dispatch (setThreads W l) ∈ cs.
Proof.
  unfold threadLists. rewrite list_elem_of_omap. split.
  - intros (c & Hin & Hc).
    destruct c as [[]| | | | | | | |]; try discriminate.
    apply (inj Some) in Hc. now injection Hc as -> ->.
  - intros Hin. eexists. split; [exact Hin|reflexivity].
Qed.

Lemma elem_itemLogs (k : string) (items : list ConversationItem)
    (cs : list HookCall) :
  (k, items) ∈ itemLogs cs <-> dispatch (setThreadItems k items) ∈ cs.
Proof.
  unfold itemLogs. rewrite list_elem_of_omap. split.
  - intros (c & Hin & Hc).
    destruct c as [[]| | | | | | | |]; try discriminate.
    apply (inj Some) in Hc. now injection Hc as -> ->.
  - intros Hin. eexists. split; [exact Hin|reflexivity].
Qed.

(** [applyThreadHistory] when it does not throw. *)
Lemma applyThreadHistory_Ok (state : ThreadState) (now : Z) (W : string)
    (snapshot : ThreadHistorySnapshot) (loaded loaded' : gmap string bool)
    (cs : list HookCall) :
  applyThreadHistory state now W snapshot loaded = Ok (cs, loaded') ->
  let its := default [] (snap_itemsByThread snapshot) in
  let merged := mergedThreadsOf state W snapshot in
  let r := fold_left (fun acc thread => restoreThread state now its thread acc)
                     merged ([], loaded) in
  cs = (if (0 <? length merged)%nat
           && (0 <? length (additionsOf state W snapshot))%nat
        then [dispatch (setThreads W merged)]
        else if (length (default [] (threadsByWorkspace state !! W)) =? 0)%nat
                && (0 <? length merged)%nat
        then [dispatch (setThreads W merged)]
        else [])
       ++ r.1
       ++ flat_map restoreParent (default [] (snap_threadParentById snapshot))
       ++ match snap_activeThreadId snapshot with
          | Some a =>
              if nonEmpty a && noSelection state W
              then [dispatch (setActiveThreadId W (Some a))] else []
          | None => []
          end
  /\ loaded' = r.2.
Proof.
  unfold applyThreadHistory.
  destruct (read (threadsByWorkspace state) W) as [l|k|]; try discriminate;
    intros H; injection H as <- <-; now split.
Qed.

(** What [applyThreadHistory] dispatches when it does not throw. *)
Lemma applyThreadHistory_calls (state : ThreadState) (now : Z) (W : string)
    (snapshot : ThreadHistorySnapshot) (loaded loaded' : gmap string bool)
    (cs : list HookCall) (c : HookCall) :
  applyThreadHistory state now W snapshot loaded = Ok (cs, loaded') ->
  c ∈ cs ->
  c = dispatch (setThreads W (mergedThreadsOf state W snapshot))
  \/ (exists th items,
        th ∈ mergedThreadsOf state W snapshot
        /\ c = dispatch (setThreadItems (ts_id th) items)
        /\ liveLogEmpty state (ts_id th) = true
        /\ itemsFor (ts_id th) (default [] (snap_itemsByThread snapshot))
           = Some items)
  \/ (exists threadId text timestamp,
        c = dispatch (setLastAgentMessage threadId text timestamp))
  \/ (exists threadId parentId,
        c = dispatch (setThreadParent threadId parentId))
  \/ (exists threadId,
        c = dispatch (setActiveThreadId W (Some threadId))).
Proof.
  intros H. apply applyThreadHistory_Ok in H as [-> _].
  rewrite !elem_of_app. intros [Hc|[Hc|[Hc|Hc]]].
  - left.
    destruct ((0 <? _)%nat && (0 <? _)%nat);
      [now apply list_elem_of_singleton in Hc|].
    destruct ((_ =? 0)%nat && (0 <? _)%nat);
      [now apply list_elem_of_singleton in Hc|inversion Hc].
  - apply restoreThreads_elem in Hc as [Hc|(th & m & Hth & Hc)];
      [inversion Hc|].
    apply restoreThread_shape in Hc
      as [(items & -> & Hlive & Hits)|(text & ts & ->)].
    + right; left. eauto 10.
    + right; right; left. eauto.
  - apply list_elem_of_In, in_flat_map in Hc as (entry & _ & Hc).
    apply list_elem_of_In, restoreParent_shape in Hc as (q & ->).
    right; right; right; left. eauto.
  - destruct (snap_activeThreadId snapshot) as [a|]; [|inversion Hc].
    destruct (nonEmpty a && _); [|inversion Hc].
    apply list_elem_of_singleton in Hc as ->.
    right; right; right; right. eauto.
Qed.

(** The thread list is dispatched whenever the snapshot adds a thread. *)
Lemma applyThreadHistory_sets_threads (state : ThreadState) (now : Z)
    (W : string) (snapshot : ThreadHistorySnapshot)
    (loaded loaded' : gmap string bool) (cs : list HookCall) :
  applyThreadHistory state now W snapshot loaded = Ok (cs, loaded') ->
  additionsOf state W snapshot <> [] ->
  dispatch (setThreads W (mergedThreadsOf state W snapshot)) ∈ cs.
Proof.
  intros H Hadd. apply applyThreadHistory_Ok in H as [-> _].
  assert (Hlen : (0 <? length (mergedThreadsOf state W snapshot))%nat
                 && (0 <? length (additionsOf state W snapshot))%nat = true).
  { unfold mergedThreadsOf.
    rewrite (Permutation_length (sortThreads_perm _)), length_app.
    destruct (additionsOf state W snapshot); [congruence|].
    cbn [length]. apply andb_true_intro. split; apply Nat.ltb_lt; lia. }
  rewrite Hlen, elem_of_app. left. constructor.
Qed.

(** The item log of a merged thread is dispatched when the callback finds
    no live items for it. *)
Lemma applyThreadHistory_sets_items (state : ThreadState) (now : Z)
    (W : string) (snapshot : ThreadHistorySnapshot)
    (loaded loaded' : gmap string bool) (cs : list HookCall)
    (th : ThreadSummary) (i : ConversationItem)
    (items : list ConversationItem) :
  applyThreadHistory state now W snapshot loaded = Ok (cs, loaded') ->
  th ∈ mergedThreadsOf state W snapshot ->
  itemsFor (ts_id th) (default [] (snap_itemsByThread snapshot))
  = Some (i :: items) ->
  liveLogEmpty state (ts_id th) = true ->
  dispatch (setThreadItems (ts_id th) (i :: items)) ∈ cs.
Proof.
  intros H Hth Hits Hlive. apply applyThreadHistory_Ok in H as [-> _].
  assert (Hin : dispatch (setThreadItems (ts_id th) (i :: items))
                ∈ (fold_left (fun acc thread =>
                                restoreThread state now
                                  (default [] (snap_itemsByThread snapshot))
                                  thread acc)
                             (mergedThreadsOf state W snapshot)
                             ([], loaded)).1).
  { apply restoreThreads_intro. right. exists th, loaded.
    split; [exact Hth|]. unfold restoreThread. rewrite Hits, Hlive.
    cbn [fst]. rewrite !elem_of_app. right; left. constructor. }
  rewrite !elem_of_app. right; left. exact Hin.
Qed.

(** Read against the state it closed over, the merge is additive. *)
Lemma applyThreadHistory_additive (state : ThreadState) (now : Z)
    (W : string) (snapshot : ThreadHistorySnapshot)
    (loaded loaded' : gmap string bool) (cs : list HookCall) :
  applyThreadHistory state now W snapshot loaded = Ok (cs, loaded') ->
  additive state W snapshot cs.
Proof.
  intros H.
  assert (Hperm : mergedThreadsOf state W snapshot
                  ≡ₚ default [] (threadsByWorkspace state !! W)
                     ++ additionsOf state W snapshot)
    by apply sortThreads_perm.
  split.
  - intros threads Hin. apply elem_threadLists in Hin.
    destruct (applyThreadHistory_calls _ _ _ _ _ _ _ _ H Hin)
      as [Hc|[(th & items & _ & Hc & _)|[(k & text & ts & Hc)
         |[(k & q & Hc)|(k & Hc)]]]]; try discriminate.
    injection Hc as ->. split.
    + intros t Ht. rewrite Hperm, elem_of_app. now left.
    + intros t Ht. rewrite Hperm, elem_of_app in Ht.
      destruct Ht as [Ht|Ht]; [now left|right].
      apply additionsOf_elem in Ht as (Hp & _ & Hfresh). now split.
  - intros k items Hin. apply elem_itemLogs in Hin.
    destruct (applyThreadHistory_calls _ _ _ _ _ _ _ _ H Hin)
      as [Hc|[(th & items' & _ & Hc & Hlive & _)|[(k' & text & ts & Hc)
         |[(k' & q & Hc)|(k' & Hc)]]]]; try discriminate.
    injection Hc as -> _. now apply liveLogEmpty_own.
Qed.

(** The effect hands the actions of [applyThreadHistory] on. *)
Lemma loadHistoryEffect_loads (rendered : ThreadState) (now : Z) (W : string)
    (snapshot : ThreadHistorySnapshot) (hasOnDebug : bool) (t1 t2 : Z)
    (historyLoaded loaded loaded' : gmap string bool) (cs : list HookCall) :
  W <> "" ->
  historyLoaded !! W = None ->
  inherited W = false ->
  applyThreadHistory rendered now W snapshot loaded = Ok (cs, loaded') ->
  loadHistoryEffect rendered now (Some W) (Ok (Some snapshot)) hasOnDebug
    t1 t2 historyLoaded loaded
  = (loadThreadHistory W :: cs, assignTrue W historyLoaded, loaded').
Proof.
  intros HW Hnew Hplain Happly. unfold loadHistoryEffect.
  destruct (String.eqb_spec W ""); [contradiction|].
  unfold read. rewrite Hnew, Hplain. now rewrite Happly.
Qed.

Lemma additive_cons (live : ThreadState) (W : string)
    (snapshot : ThreadHistorySnapshot) (cs : list HookCall) :
  additive live W snapshot (loadThreadHistory W :: cs)
  <-> additive live W snapshot cs.
Proof. reflexivity. Qed.

End MergeFacts.

(** C3, on the code. The merge that history load performs is additive with
    respect to the state of the render in which the load effect ran, the
    state [applyThreadHistory] closed over; the effect calls that callback
    when the snapshot arrives, so the merge does not see what became live
    while the snapshot was loading: a thread that is live by then and is
    neither in the render's list nor in the snapshot is missing from the
    thread list the effect sets, and a log that became non-empty meanwhile
    is replaced by the persisted log. *)
Theorem merge_on_load_reads_stale_state (rendered : UseThreads.ThreadState)
    (now : Z) (W : string) (snapshot : UseThreads.ThreadHistorySnapshot)
    (hasOnDebug : bool) (t1 t2 : Z)
    (historyLoaded loaded : gmap string bool) :
  W <> "" ->
  historyLoaded !! W = None ->
  UseThreads.inherited W = false ->
  let r := UseThreads.loadHistoryEffect rendered now (Some W)
             (Ok (Some snapshot)) hasOnDebug t1 t2 historyLoaded loaded in
  let merged := UseThreads.mergedThreadsOf rendered W snapshot in
  UseThreads.additive rendered W snapshot r.1.1
  /\ (forall live t,
        t ∈ default [] (UseThreads.threadsByWorkspace live !! W) ->
        t ∉ default [] (UseThreads.threadsByWorkspace rendered !! W) ->
        Some t ∉ default [] (UseThreads.snap_threads snapshot) ->
        UseThreads.additionsOf rendered W snapshot <> [] ->
        (W, merged) ∈ UseThreads.threadLists r.1.1
        /\ (t ∉ merged)
        /\ ~ UseThreads.additive live W snapshot r.1.1)
  /\ (forall live th i items,
        th ∈ merged ->
        UseThreads.itemsFor (UseThreads.ts_id th)
          (default [] (UseThreads.snap_itemsByThread snapshot))
        = Some (i :: items) ->
        UseThreads.liveLogEmpty rendered (UseThreads.ts_id th) = true ->
        default [] (UseThreads.itemsByThread live !! UseThreads.ts_id th)
        <> [] ->
        (UseThreads.ts_id th, i :: items) ∈ UseThreads.itemLogs r.1.1
        /\ ~ UseThreads.additive live W snapshot r.1.1).
Proof.
  intros HW Hnew Hplain. cbn zeta.
  destruct (UseThreads.applyThreadHistory rendered now W snapshot loaded)
    as [[cs loaded']|e] eqn:Happly.
  2:{ exfalso. revert Happly. unfold UseThreads.applyThreadHistory,
        UseThreads.read. rewrite Hplain.
      now destruct (UseThreads.threadsByWorkspace rendered !! W). }
  rewrite (loadHistoryEffect_loads _ _ _ _ _ _ _ _ _ _ _ HW Hnew Hplain Happly).
  cbn [fst snd]. rewrite !additive_cons.
  split; [exact (applyThreadHistory_additive _ _ _ _ _ _ _ Happly)|]. split.
  - intros live t Hlive Hold Hsnap Hadd.
    assert (Hset : (W, UseThreads.mergedThreadsOf rendered W snapshot)
                   ∈ UseThreads.threadLists (UseThreads.loadThreadHistory W :: cs)).
    { apply elem_threadLists. right.
      exact (applyThreadHistory_sets_threads _ _ _ _ _ _ _ Happly Hadd). }
    assert (Hout : t ∉ UseThreads.mergedThreadsOf rendered W snapshot).
    { unfold UseThreads.mergedThreadsOf.
      rewrite sortThreads_perm, elem_of_app. intros [Ht|Ht]; [now apply Hold|].
      apply additionsOf_elem in Ht as (Hp & _). now apply Hsnap. }
    split; [exact Hset|]. split; [exact Hout|].
    intros [Hthreads _]. apply Hout.
    now apply (Hthreads _ Hset).
  - intros live th i items Hth Hits Hempty Hlive.
    assert (Hset : (UseThreads.ts_id th, i :: items)
                   ∈ UseThreads.itemLogs (UseThreads.loadThreadHistory W :: cs)).
    { apply elem_itemLogs. right.
      exact (applyThreadHistory_sets_items _ _ _ _ _ _ _ _ _ _
               Happly Hth Hits Hempty). }
    split; [exact Hset|].
    intros [_ Hlogs]. apply Hlive. exact (Hlogs _ _ Hset).
Qed.

Lemma merge_on_load_reads_stale_state_witness :
  "W" <> ""
  /\ (∅ : gmap string bool) !! "W" = None
  /\ UseThreads.inherited "W" = false
  /\ let r := UseThreads.loadHistoryEffect Examples.emptyState 1000
                (Some "W") (Ok (Some Examples.savedSnapshot)) false 0 0 ∅ ∅ in
     let merged := UseThreads.mergedThreadsOf Examples.emptyState "W"
                     Examples.savedSnapshot in
     Examples.lateThread
       ∈ default [] (UseThreads.threadsByWorkspace Examples.lateState !! "W")
     /\ ("W", merged) ∈ UseThreads.threadLists r.1.1
     /\ (Examples.lateThread ∉ merged)
     /\ ("T1", [UseThreads.ItemMessage "i0" "assistant" "old"])
        ∈ UseThreads.itemLogs r.1.1
     /\ UseThreads.itemsByThread Examples.lateState !! "T1"
        = Some [UseThreads.ItemMessage "i1" "user" "hello"]
     /\ ~ UseThreads.additive Examples.lateState "W" Examples.savedSnapshot
           r.1.1.
Proof.
  assert (H1 : "W" <> "") by discriminate.
  assert (H2 : (∅ : gmap string bool) !! "W" = None) by reflexivity.
  assert (H3 : UseThreads.inherited "W" = false) by reflexivity.
  repeat (split; [assumption|]).
  destruct (merge_on_load_reads_stale_state Examples.emptyState 1000 "W"
              Examples.savedSnapshot false 0 0 ∅ ∅ H1 H2 H3)
    as (_ & Hthreads & Hlogs).
  assert (Hlive : Examples.lateThread
                  ∈ default [] (UseThreads.threadsByWorkspace
                                  Examples.lateState !! "W"))
    by (vm_compute; constructor).
  destruct (Hthreads Examples.lateState Examples.lateThread Hlive)
    as (Hset & Hout & Hbad).
  - vm_compute. intros H. inversion H.
  - vm_compute. intros H.
    repeat (apply elem_of_cons in H as [H|H]; [discriminate H|]).
    inversion H.
  - vm_compute. discriminate.
  - split; [exact Hlive|]. split; [exact Hset|]. split; [exact Hout|].
    destruct (Hlogs Examples.lateState
                {| UseThreads.ts_id := "T1";
                   UseThreads.ts_name := "stale";
                   UseThreads.ts_updatedAt := Some 10 |}
                (UseThreads.ItemMessage "i0" "assistant" "old") [])
      as (Hitems & _).
    + vm_compute. right. constructor.
    + reflexivity.
    + reflexivity.
    + vm_compute. discriminate.
    + split; [exact Hitems|]. split; [reflexivity|exact Hbad].
Defined.

(** The load at work. Merged into the state it closed over, the live
    thread ["T1"] stays and keeps its log and the persisted thread ["T2"]
    is added with its items; when the effect ran in a render that knew
    nothing yet, the list it sets holds the two persisted threads only and
    the persisted log of ["T1"] is dispatched. *)
Example merge_on_load_example :
  UseThreads.applyThreadHistory Examples.liveState 1000 "W"
    Examples.savedSnapshot ∅
  = Ok ([UseThreads.dispatch
           (UseThreads.setThreads "W"
              [Examples.savedThread; Examples.liveThread]);
         UseThreads.dispatch
           (UseThreads.setThreadItems "T2"
              [UseThreads.ItemMessage "i2" "assistant" "kept"]);
         UseThreads.dispatch (UseThreads.setLastAgentMessage "T2" "kept" 70);
         UseThreads.dispatch (UseThreads.setLastAgentMessage "T1" "old" 50)],
        {[ "T1" := true; "T2" := true ]})
  /\ (UseThreads.loadHistoryEffect Examples.emptyState 1000 (Some "W")
        (Ok (Some Examples.savedSnapshot)) false 0 0 ∅ ∅).1.1
     = [UseThreads.loadThreadHistory "W";
        UseThreads.dispatch
          (UseThreads.setThreads "W"
             [Examples.savedThread;
              {| UseThreads.ts_id := "T1";
                 UseThreads.ts_name := "stale";
                 UseThreads.ts_updatedAt := Some 10 |}]);
        UseThreads.dispatch
          (UseThreads.setThreadItems "T2"
             [UseThreads.ItemMessage "i2" "assistant" "kept"]);
        UseThreads.dispatch (UseThreads.setLastAgentMessage "T2" "kept" 70);
        UseThreads.dispatch
          (UseThreads.setThreadItems "T1"
             [UseThreads.ItemMessage "i0" "assistant" "old"]);
        UseThreads.dispatch (UseThreads.setLastAgentMessage "T1" "old" 10);
        UseThreads.dispatch (UseThreads.setActiveThreadId "W" (Some "T2"))]
  /\ UseThreads.applyThreadHistory Examples.emptyState 1000 "constructor"
       Examples.savedSnapshot ∅
     = Throw "existingThreads.map is not a function".
Proof. vm_compute. repeat split. Qed.

(** ** useThreads: history save *)

Section SaveFacts.

Import UseThreads.

Lemma concat_snoc (sep : string) (l : list string) (x : string) :
  String.concat sep (l ++ [x]) = Js.concatHead sep l +:+ x.
Proof.
  induction l as [|a l IH]; [reflexivity|].
  destruct l as [|b l].
  - change (a +:+ sep +:+ x = (a +:+ sep) +:+ x).
    now rewrite string_app_assoc.
  - change (String.concat sep ((a :: b :: l) ++ [x]))
      with (a +:+ sep +:+ String.concat sep ((b :: l) ++ [x])).
    rewrite IH.
    change (Js.concatHead sep (a :: b :: l))
      with ((a +:+ sep +:+ String.concat sep (b :: l)) +:+ sep).
    change (Js.concatHead sep (b :: l)) with (String.concat sep (b :: l) +:+ sep).
    now rewrite !string_app_assoc.
Qed.

(** An object whose last property is a number: the number is the last
    thing written before the closing brace. *)
Lemma stringify_last_number (fs : list (string * value)) (k : string) (m : Z) :
  Js.stringify (VObj (fs ++ [(k, VNum m)]))
  = ("{" +:+ Js.concatHead "," (flat_map (Js.printField Js.stringify) fs)
         +:+ Js.quote k +:+ ":")
      +:+ pretty m +:+ "}".
Proof.
  change (Js.stringify (VObj (fs ++ [(k, VNum m)])))
    with ("{" +:+ String.concat ","
                    (flat_map (Js.printField Js.stringify)
                       (fs ++ [(k, VNum m)]))
              +:+ "}").
  rewrite flat_map_app.
  change (flat_map (Js.printField Js.stringify) [(k, VNum m)])
    with [Js.quote k +:+ ":" +:+ pretty m].
  rewrite concat_snoc. now rewrite !string_app_assoc.
Qed.

(** Two snapshots of the same state taken at different times serialize
    differently. *)
Lemma serialized_snapshot_clock (state : ThreadState) (W : string)
    (now1 now2 : Z) :
  Js.stringify (snapshotValue (buildThreadHistorySnapshot state now1 W))
  = Js.stringify (snapshotValue (buildThreadHistorySnapshot state now2 W)) ->
  now1 = now2.
Proof.
  unfold snapshotValue.
  change (snapshotFields (buildThreadHistorySnapshot state now2 W))
    with (snapshotFields (buildThreadHistorySnapshot state now1 W)).
  change (savedAt (buildThreadHistorySnapshot state now1 W)) with now1.
  change (savedAt (buildThreadHistorySnapshot state now2 W)) with now2.
  rewrite !stringify_last_number. intros H.
  apply (inj (String.app _)) in H.
  apply string_snoc_inj in H.
  now apply (inj pretty) in H.
Qed.

(** What [lastSavedHistoryRef] holds for a workspace after its save. *)
Lemma saveWorkspace_lastSaved (state : ThreadState) (now : Z)
    (acc : list HookCall * gmap string string) (W : string) :
  (saveWorkspace state now acc W).2 !! W
  = Some (Js.stringify
            (snapshotValue (buildThreadHistorySnapshot state now W))).
Proof.
  unfold saveWorkspace. case_bool_decide as H; cbn.
  - exact H.
  - apply lookup_insert_eq.
Qed.

End SaveFacts.

(** A save writes exactly when the serialized snapshot differs from the
    one recorded for the workspace. *)
Lemma saveWorkspace_writes_iff (state : UseThreads.ThreadState) (now : Z)
    (lastSaved : gmap string string) (W : string) :
  UseThreads.writes (UseThreads.saveWorkspace state now ([], lastSaved) W).1
    = []
  <-> lastSaved !! W
      = Some (Js.stringify
                (UseThreads.snapshotValue
                   (UseThreads.buildThreadHistorySnapshot state now W))).
Proof.
  unfold UseThreads.saveWorkspace. cbn [fst snd].
  case_bool_decide as H; cbn; split; intros H'; try done.
Qed.

(** C6, on the code. A save writes exactly when the serialized snapshot
    differs from the one recorded for the workspace; but the serialized
    snapshot contains [savedAt], the time of the save, so for one and the
    same state a second save at a later time does not match the first and
    writes again. *)
Theorem save_unchanged_state_writes_again (state : UseThreads.ThreadState)
    (W : string) (now1 now2 : Z) (lastSaved : gmap string string) :
  now1 <> now2 ->
  let first := UseThreads.saveWorkspace state now1 ([], lastSaved) W in
  let second := UseThreads.saveWorkspace state now2 ([], first.2) W in
  UseThreads.writes second.1
  = [(W, UseThreads.buildThreadHistorySnapshot state now2 W)].
Proof.
  intros Hclock. cbn zeta.
  unfold UseThreads.saveWorkspace at 1. cbn [fst snd].
  rewrite saveWorkspace_lastSaved.
  rewrite bool_decide_eq_false_2; [reflexivity|].
  intros H. apply (inj Some) in H.
  apply serialized_snapshot_clock in H. congruence.
Qed.

Lemma save_unchanged_state_writes_again_witness :
  (1000 <> 2000)
  /\ let first := UseThreads.saveWorkspace Examples.liveState 1000 ([], ∅) "W" in
     let second :=
       UseThreads.saveWorkspace Examples.liveState 2000 ([], first.2) "W" in
     UseThreads.writes second.1
     = [("W", UseThreads.buildThreadHistorySnapshot Examples.liveState 2000 "W")].
Proof.
  assert (H : 1000 <> 2000) by lia.
  split; [exact H|].
  exact (save_unchanged_state_writes_again Examples.liveState "W" 1000 2000 ∅ H).
Defined.

(** * Further properties *)

(** ** Connecting and disconnecting *)

Section LifecycleFacts.

Import Lifecycle.

Variable hs : HostSdk.

Lemma withWorld_world (h : Host) : withWorld h (world h) = h.
Proof. now destruct h. Qed.

(** [disconnectWorkspace] on a connected workspace, step by step. *)
Lemma disconnectWorkspace_eq (workspaceId : string) (h : Host)
    (workspace : CopilotWorkspaceClient) :
  workspaceClients (world h) !! workspaceId = Some workspace ->
  let stop := (length (calls (world h)), ClientStop (client workspace)) in
  let gone := delete workspaceId (workspaceClients (world h)) in
  disconnectWorkspace hs workspaceId h =
    (Ok tt,
     match session workspace with
     | None =>
         {| world := {| workspaceClients := gone;
                        now := now (world h);
                        calls := calls (world h) |};
            requests := requests h ++ [stop];
            globalEventCallback := globalEventCallback h;
            globalPermissionCallback := globalPermissionCallback h |}
     | Some s =>
         match h_session_destroy hs h s with
         | Ok _ =>
             {| world := {| workspaceClients := gone;
                            now := now (world h);
                            calls := calls (world h) ++ [SessionDestroy s] |};
                requests :=
                  requests h
                    ++ [(S (length (calls (world h))),
                         ClientStop (client workspace))];
                globalEventCallback := globalEventCallback h;
                globalPermissionCallback := globalPermissionCallback h |}
         | Throw _ =>
             {| world := {| workspaceClients := gone;
                            now := now (world h);
                            calls := calls (world h) ++ [SessionDestroy s] |};
                requests := requests h;
                globalEventCallback := globalEventCallback h;
                globalPermissionCallback := globalPermissionCallback h |}
         end
     end).
Proof.
  intros Hws. cbn zeta.
  unfold disconnectWorkspace, MonadH.bind at 1, MonadH.getHost.
  rewrite Hws.
  unfold MonadH.bind at 1, MonadH.attempt, MonadH.updateClients.
  destruct (session workspace) as [s|]; cbn.
  - unfold MonadH.liftM, MonadM.await, sdkAt; cbn.
    rewrite withWorld_world.
    destruct (h_session_destroy hs h s); cbn; [|reflexivity].
    rewrite length_app, Nat.add_1_r. reflexivity.
  - reflexivity.
Qed.

Lemma disconnectWorkspace_absent (workspaceId : string) (h : Host) :
  workspaceClients (world h) !! workspaceId = None ->
  disconnectWorkspace hs workspaceId h = (Ok tt, h).
Proof.
  intros Hws. unfold disconnectWorkspace, MonadH.bind, MonadH.getHost.
  now rewrite Hws.
Qed.

End LifecycleFacts.

Lemma disconnectWorkspace_outcome (hs : Lifecycle.HostSdk)
    (workspaceId : string) (h : Lifecycle.Host) :
  (Lifecycle.disconnectWorkspace hs workspaceId h).1 = Ok tt
  /\ workspaceClients (Lifecycle.world
                         (Lifecycle.disconnectWorkspace hs workspaceId h).2)
     = delete workspaceId (workspaceClients (Lifecycle.world h))
  /\ now (Lifecycle.world (Lifecycle.disconnectWorkspace hs workspaceId h).2)
     = now (Lifecycle.world h).
Proof.
  destruct (workspaceClients (Lifecycle.world h) !! workspaceId)
    as [workspace|] eqn:Hws.
  - rewrite (disconnectWorkspace_eq hs _ _ _ Hws). cbn.
    destruct (session workspace) as [s|]; cbn; [|done].
    destruct (Lifecycle.h_session_destroy hs h s); done.
  - rewrite (disconnectWorkspace_absent hs _ _ Hws). cbn.
    now rewrite delete_id.
Qed.

(** X1. [disconnectWorkspace] never throws, whatever the SDK answers: it
    removes the entry of the workspace from the connection map, leaves every
    other entry and the clock as they were, and the workspace is not
    connected afterwards. *)
Theorem disconnect_always_succeeds (hs : Lifecycle.HostSdk)
    (workspaceId : string) (h : Lifecycle.Host) :
  let r := Lifecycle.disconnectWorkspace hs workspaceId h in
  r.1 = Ok tt
  /\ workspaceClients (Lifecycle.world r.2)
     = delete workspaceId (workspaceClients (Lifecycle.world h))
  /\ now (Lifecycle.world r.2) = now (Lifecycle.world h)
  /\ Lifecycle.isWorkspaceConnected workspaceId r.2 = false
  /\ (forall other, other <> workspaceId ->
        Lifecycle.isWorkspaceConnected other r.2
        = Lifecycle.isWorkspaceConnected other h).
Proof.
  cbn zeta.
  destruct (disconnectWorkspace_outcome hs workspaceId h) as (H1 & H2 & H3).
  repeat split; try assumption.
  - unfold Lifecycle.isWorkspaceConnected. rewrite H2, lookup_delete_eq.
    apply bool_decide_eq_false_2. now intros [? ?].
  - intros other Hother. unfold Lifecycle.isWorkspaceConnected.
    now rewrite H2, lookup_delete_ne.
Qed.

(** X2. Disconnecting is idempotent: on the state a disconnect leaves, a
    second disconnect of the same workspace makes no request and changes
    nothing. *)
Theorem disconnect_twice (hs : Lifecycle.HostSdk) (workspaceId : string)
    (h : Lifecycle.Host) :
  let h1 := (Lifecycle.disconnectWorkspace hs workspaceId h).2 in
  Lifecycle.disconnectWorkspace hs workspaceId h1 = (Ok tt, h1).
Proof.
  cbn zeta. apply disconnectWorkspace_absent.
  destruct (disconnectWorkspace_outcome hs workspaceId h) as (_ & -> & _).
  apply lookup_delete_eq.
Qed.

(** X3. When the workspace has a session and [session.destroy()] is
    rejected, [disconnectWorkspace] skips [client.stop()]: no request to
    stop the client is made, yet the entry is removed from the map. *)
Theorem disconnect_destroy_rejected_skips_stop (hs : Lifecycle.HostSdk)
    (workspaceId : string) (h : Lifecycle.Host)
    (workspace : CopilotWorkspaceClient) (s : CopilotSession) (e : string) :
  workspaceClients (Lifecycle.world h) !! workspaceId = Some workspace ->
  session workspace = Some s ->
  Lifecycle.h_session_destroy hs h s = Throw e ->
  let r := Lifecycle.disconnectWorkspace hs workspaceId h in
  r.1 = Ok tt
  /\ Lifecycle.requests r.2 = Lifecycle.requests h
  /\ calls (Lifecycle.world r.2)
     = calls (Lifecycle.world h) ++ [SessionDestroy s]
  /\ workspaceClients (Lifecycle.world r.2) !! workspaceId = None.
Proof.
  intros Hws Hs Hd. cbn zeta.
  rewrite (disconnectWorkspace_eq hs _ _ _ Hws), Hs, Hd. cbn.
  repeat split. apply lookup_delete_eq.
Qed.

Lemma disconnect_destroy_rejected_skips_stop_witness :
  workspaceClients (Lifecycle.world HostExamples.idleHost) !! "W"
  = Some {| client := Examples.aClient;
            session := Some {| sessionId := "s1" |};
            workspacePath := "/repo";
            connected := true |}
  /\ Lifecycle.h_session_destroy HostExamples.brokenHostSdk
       HostExamples.idleHost {| sessionId := "s1" |}
     = Throw "Session not found"
  /\ let r := Lifecycle.disconnectWorkspace HostExamples.brokenHostSdk "W"
                HostExamples.idleHost in
     r.1 = Ok tt
     /\ Lifecycle.requests r.2 = Lifecycle.requests HostExamples.idleHost
     /\ calls (Lifecycle.world r.2)
        = calls (Lifecycle.world HostExamples.idleHost)
            ++ [SessionDestroy {| sessionId := "s1" |}]
     /\ workspaceClients (Lifecycle.world r.2) !! "W" = None.
Proof.
  assert (H1 : workspaceClients (Lifecycle.world HostExamples.idleHost) !! "W"
               = Some {| client := Examples.aClient;
                         session := Some {| sessionId := "s1" |};
                         workspacePath := "/repo";
                         connected := true |}) by reflexivity.
  assert (H2 : Lifecycle.h_session_destroy HostExamples.brokenHostSdk
                 HostExamples.idleHost {| sessionId := "s1" |}
               = Throw "Session not found") by reflexivity.
  split; [exact H1|]. split; [exact H2|].
  exact (disconnect_destroy_rejected_skips_stop HostExamples.brokenHostSdk
           "W" HostExamples.idleHost _ _ _ H1 eq_refl H2).
Defined.

Section ConnectFacts.

Import Lifecycle.

Variable hs : HostSdk.

Lemma disconnectWorkspace_callbacks (workspaceId : string) (h : Host) :
  globalEventCallback (disconnectWorkspace hs workspaceId h).2
  = globalEventCallback h.
Proof.
  destruct (workspaceClients (world h) !! workspaceId) as [workspace|] eqn:Hws.
  - rewrite (disconnectWorkspace_eq hs _ _ _ Hws). cbn.
    destruct (session workspace) as [s|]; [|reflexivity].
    now destruct (h_session_destroy hs h s).
  - now rewrite (disconnectWorkspace_absent hs _ _ Hws).
Qed.

Lemma disconnectWorkspace_run (workspaceId : string) (h : Host) :
  disconnectWorkspace hs workspaceId h
  = (Ok tt, (disconnectWorkspace hs workspaceId h).2).
Proof.
  destruct (disconnectWorkspace_outcome hs workspaceId h) as (H1 & _).
  destruct (disconnectWorkspace hs workspaceId h) as [r h1].
  cbn in *. now subst.
Qed.

(** [connectWorkspace] of the backend, from the state its disconnect
    leaves. *)
Lemma connectWorkspace_eq (workspaceId workspacePath : string)
    (copilotBin copilotArgs : option string) (h : Host) :
  let h1 := (disconnectWorkspace hs workspaceId h).2 in
  let c := clientOptions workspacePath copilotBin
             (BackendLifecycle.cliArgsOf copilotArgs) in
  let new := (length (calls (world h1)), ClientNew c) in
  let entry := {| client := c;
                  session := None;
                  workspacePath := workspacePath;
                  connected := true |} in
  let info :=
    match globalEventCallback h with
    | Some _ => [EmitAppServerEvent (HostExamples.connectedInfo workspaceId)]
    | None => []
    end in
  (globalEventCallback h = None
   \/ globalEventCallback h = Some CopilotBackend.onSessionEvent) ->
  BackendLifecycle.connectWorkspace hs workspaceId workspacePath copilotBin
    copilotArgs h =
    match h_client_new hs h1 c with
    | Throw e =>
        (Throw e,
         {| world := world h1;
            requests := requests h1 ++ [new];
            globalEventCallback := globalEventCallback h1;
            globalPermissionCallback := globalPermissionCallback h1 |})
    | Ok _ =>
        (Ok tt,
         {| world :=
              {| workspaceClients :=
                   <[workspaceId := entry]> (workspaceClients (world h1));
                 now := now (world h1);
                 calls := calls (world h1) ++ info
                            ++ [EmitAppServerEvent
                                  (BackendLifecycle.codexConnected workspaceId)] |};
            requests := requests h1 ++ [new];
            globalEventCallback := globalEventCallback h1;
            globalPermissionCallback := globalPermissionCallback h1 |})
    end.
Proof.
  cbn zeta. intros Hcb.
  pose proof (disconnectWorkspace_callbacks workspaceId h) as Hcb1.
  set (h1 := (disconnectWorkspace hs workspaceId h).2) in *.
  unfold BackendLifecycle.connectWorkspace, connectWorkspace.
  unfold MonadH.bind at 1. unfold MonadH.bind at 1.
  rewrite disconnectWorkspace_run. fold h1.
  unfold MonadH.bind at 1, MonadH.request.
  destruct (h_client_new hs h1 _) as [[]|e]; [|reflexivity].
  unfold MonadH.bind, MonadH.updateClients, MonadH.getHost, deliver,
    MonadH.liftM, withWorld; cbn.
  rewrite Hcb1.
  destruct Hcb as [-> | ->]; cbn.
  - reflexivity.
  - rewrite <- app_assoc. reflexivity.
Qed.

End ConnectFacts.

(** X4. With the backend's event callback installed, a [connectWorkspace]
    that succeeds leaves the workspace connected to the newly created
    client with no session, whatever it was connected to before, and emits
    exactly two canonical events, in this order: the passthrough
    [copilot/session.info] of the synthetic connect event and
    [codex/connected]. *)
Theorem connect_success (hs : Lifecycle.HostSdk)
    (workspaceId workspacePath : string)
    (copilotBin copilotArgs : option string) (h : Lifecycle.Host) :
  Lifecycle.globalEventCallback h = Some CopilotBackend.onSessionEvent ->
  let r := BackendLifecycle.connectWorkspace hs workspaceId workspacePath
             copilotBin copilotArgs h in
  let h1 := (Lifecycle.disconnectWorkspace hs workspaceId h).2 in
  let c := Lifecycle.clientOptions workspacePath copilotBin
             (BackendLifecycle.cliArgsOf copilotArgs) in
  r.1 = Ok tt ->
  workspaceClients (Lifecycle.world r.2)
  = <[workspaceId := {| client := c;
                        session := None;
                        workspacePath := workspacePath;
                        connected := true |}]>
      (workspaceClients (Lifecycle.world h))
  /\ Lifecycle.getSessionId workspaceId r.2 = None
  /\ Lifecycle.isWorkspaceConnected workspaceId r.2 = true
  /\ calls (Lifecycle.world r.2)
     = calls (Lifecycle.world h1)
         ++ [EmitAppServerEvent
               (HostExamples.connectedInfo workspaceId);
             EmitAppServerEvent (BackendLifecycle.codexConnected workspaceId)].
Proof.
  intros Hcb. cbn zeta.
  rewrite (connectWorkspace_eq hs) by now right.
  destruct (disconnectWorkspace_outcome hs workspaceId h)
    as (_ & Hmap & Hnow).
  set (h1 := (Lifecycle.disconnectWorkspace hs workspaceId h).2) in *.
  destruct (Lifecycle.h_client_new hs h1 _) as [[]|e]; cbn [fst snd];
    [|discriminate].
  intros _.
  unfold Lifecycle.getSessionId, Lifecycle.isWorkspaceConnected.
  cbn [Lifecycle.world workspaceClients calls].
  rewrite Hcb, Hmap, insert_delete_eq, lookup_insert_eq.
  repeat split.
Qed.

Lemma connect_success_witness :
  Lifecycle.globalEventCallback HostExamples.routedHost
  = Some CopilotBackend.onSessionEvent
  /\ (BackendLifecycle.connectWorkspace HostExamples.okHostSdk "W" "/new"
        (Some "/bin/copilot") (Some "--a  b") HostExamples.routedHost).1
     = Ok tt
  /\ let r := BackendLifecycle.connectWorkspace HostExamples.okHostSdk "W"
                "/new" (Some "/bin/copilot") (Some "--a  b")
                HostExamples.routedHost in
     let h1 := (Lifecycle.disconnectWorkspace HostExamples.okHostSdk "W"
                  HostExamples.routedHost).2 in
     let c := Lifecycle.clientOptions "/new" (Some "/bin/copilot")
                (BackendLifecycle.cliArgsOf (Some "--a  b")) in
     workspaceClients (Lifecycle.world r.2)
     = <["W" := {| client := c;
                   session := None;
                   workspacePath := "/new";
                   connected := true |}]>
         (workspaceClients (Lifecycle.world HostExamples.routedHost))
     /\ Lifecycle.getSessionId "W" r.2 = None
     /\ Lifecycle.isWorkspaceConnected "W" r.2 = true
     /\ calls (Lifecycle.world r.2)
        = calls (Lifecycle.world h1)
            ++ [EmitAppServerEvent
                  (HostExamples.connectedInfo "W");
                EmitAppServerEvent (BackendLifecycle.codexConnected "W")].
Proof.
  assert (H1 : Lifecycle.globalEventCallback HostExamples.routedHost
               = Some CopilotBackend.onSessionEvent) by reflexivity.
  assert (H2 : (BackendLifecycle.connectWorkspace HostExamples.okHostSdk "W"
                  "/new" (Some "/bin/copilot") (Some "--a  b")
                  HostExamples.routedHost).1 = Ok tt) by reflexivity.
  split; [exact H1|]. split; [exact H2|].
  exact (connect_success HostExamples.okHostSdk "W" "/new"
           (Some "/bin/copilot") (Some "--a  b") HostExamples.routedHost
           H1 H2).
Defined.

(** X5. When [connectWorkspace] is rejected (the client could not be
    created), the workspace is not connected afterwards, even if it was
    connected before the call, and neither [copilot/session.info] nor
    [codex/connected] is emitted. *)
Theorem connect_failure_disconnects (hs : Lifecycle.HostSdk)
    (workspaceId workspacePath : string)
    (copilotBin copilotArgs : option string) (h : Lifecycle.Host)
    (e : string) :
  (Lifecycle.globalEventCallback h = None
   \/ Lifecycle.globalEventCallback h = Some CopilotBackend.onSessionEvent) ->
  let r := BackendLifecycle.connectWorkspace hs workspaceId workspacePath
             copilotBin copilotArgs h in
  let h1 := (Lifecycle.disconnectWorkspace hs workspaceId h).2 in
  r.1 = Throw e ->
  Lifecycle.isWorkspaceConnected workspaceId r.2 = false
  /\ calls (Lifecycle.world r.2) = calls (Lifecycle.world h1)
  /\ Lifecycle.h_client_new hs h1
       (Lifecycle.clientOptions workspacePath copilotBin
          (BackendLifecycle.cliArgsOf copilotArgs)) = Throw e.
Proof.
  intros Hcb. cbn zeta.
  rewrite (connectWorkspace_eq hs) by assumption.
  destruct (disconnectWorkspace_outcome hs workspaceId h)
    as (_ & Hgone & _).
  set (h1 := (Lifecycle.disconnectWorkspace hs workspaceId h).2) in *.
  destruct (Lifecycle.h_client_new hs h1 _) as [[]|e']; cbn [fst snd];
    [discriminate|].
  intros [= ->]. repeat split.
  unfold Lifecycle.isWorkspaceConnected. cbn [Lifecycle.world].
  rewrite Hgone, lookup_delete_eq.
  apply bool_decide_eq_false_2. now intros [? ?].
Qed.

Lemma connect_failure_disconnects_witness :
  (Lifecycle.globalEventCallback HostExamples.routedHost = None
   \/ Lifecycle.globalEventCallback HostExamples.routedHost
      = Some CopilotBackend.onSessionEvent)
  /\ (BackendLifecycle.connectWorkspace HostExamples.brokenHostSdk "W" "/new"
        None None HostExamples.routedHost).1 = Throw "spawn ENOENT"
  /\ let r := BackendLifecycle.connectWorkspace HostExamples.brokenHostSdk
                "W" "/new" None None HostExamples.routedHost in
     let h1 := (Lifecycle.disconnectWorkspace HostExamples.brokenHostSdk "W"
                  HostExamples.routedHost).2 in
     Lifecycle.isWorkspaceConnected "W" r.2 = false
     /\ calls (Lifecycle.world r.2) = calls (Lifecycle.world h1)
     /\ Lifecycle.h_client_new HostExamples.brokenHostSdk h1
          (Lifecycle.clientOptions "/new" None
             (BackendLifecycle.cliArgsOf None)) = Throw "spawn ENOENT".
Proof.
  assert (H1 : Lifecycle.globalEventCallback HostExamples.routedHost = None
               \/ Lifecycle.globalEventCallback HostExamples.routedHost
                  = Some CopilotBackend.onSessionEvent) by (right; reflexivity).
  assert (H2 : (BackendLifecycle.connectWorkspace HostExamples.brokenHostSdk
                  "W" "/new" None None HostExamples.routedHost).1
               = Throw "spawn ENOENT") by reflexivity.
  split; [exact H1|]. split; [exact H2|].
  exact (connect_failure_disconnects HostExamples.brokenHostSdk "W" "/new"
           None None HostExamples.routedHost "spawn ENOENT" H1 H2).
Defined.

(** X6. Session events reach the app only through the callback that
    [initCopilotBackend] installs: while no callback is installed a
    delivered event is dropped without any effect; after
    [initCopilotBackend] a delivered event is translated by the adapter and
    emitted, exactly as [onSessionEvent] does on the world. *)
Theorem events_routed_after_init (hs : Lifecycle.HostSdk)
    (workspaceId : string) (event : SessionEvent) (h : Lifecycle.Host) :
  (Lifecycle.globalEventCallback h = None ->
   Lifecycle.deliver hs workspaceId event h = (Ok tt, h))
  /\ let h1 := (BackendLifecycle.initCopilotBackend h).2 in
     let r := CopilotBackend.onSessionEvent workspaceId event
                (Lifecycle.world h) in
     (BackendLifecycle.initCopilotBackend h).1 = Ok tt
     /\ Lifecycle.world h1 = Lifecycle.world h
     /\ Lifecycle.deliver hs workspaceId event h1
        = (r.1, Lifecycle.withWorld h1 r.2).
Proof.
  split.
  - intros Hnone. unfold Lifecycle.deliver, Lifecycle.MonadH.bind,
      Lifecycle.MonadH.getHost. now rewrite Hnone.
  - cbn. repeat split.
Qed.

Section SessionFacts.

Variable sdk : Sdk.

Lemma alter_session (workspaceId : string) (s : option CopilotSession)
    (m : gmap string CopilotWorkspaceClient)
    (workspace : CopilotWorkspaceClient) :
  m !! workspaceId = Some workspace ->
  alter (fun ws => {| client := client ws;
                      session := s;
                      workspacePath := workspacePath ws;
                      connected := connected ws |}) workspaceId m
  = <[workspaceId := withSession workspace s]> m.
Proof.
  intros Hws. apply map_eq. intros k.
  destruct (decide (workspaceId = k)) as [<-|Hne].
  - now rewrite lookup_alter_eq, lookup_insert_eq, Hws.
  - now rewrite lookup_alter_ne, lookup_insert_ne.
Qed.

(** [createSession] on a connected workspace, step by step. *)
Lemma createSession_eq (workspaceId : string)
    (config : option (list (string * value))) (w : World)
    (workspace : CopilotWorkspaceClient) :
  workspaceClients w !! workspaceId = Some workspace ->
  let cfg := CopilotSdk.sessionConfig config in
  let create (w1 : World) :=
    match client_createSession sdk w1 (client workspace) cfg with
    | Throw e =>
        (Throw e,
         {| workspaceClients := workspaceClients w1;
            now := now w1;
            calls := calls w1 ++ [ClientCreateSession (client workspace) cfg] |})
    | Ok s =>
        (Ok (sessionId s),
         {| workspaceClients :=
              <[workspaceId := withSession workspace (Some s)]>
                (workspaceClients w);
            now := now w1;
            calls := calls w1 ++ [ClientCreateSession (client workspace) cfg;
                                  SessionOn s] |})
    end in
  CopilotSdk.createSession sdk workspaceId config w =
    match session workspace with
    | None => create w
    | Some old =>
        match session_destroy sdk w old with
        | Throw e =>
            (Throw e,
             {| workspaceClients := workspaceClients w;
                now := now w;
                calls := calls w ++ [SessionDestroy old] |})
        | Ok _ =>
            create {| workspaceClients :=
                        <[workspaceId := withSession workspace None]>
                          (workspaceClients w);
                      now := now w;
                      calls := calls w ++ [SessionDestroy old] |}
        end
    end.
Proof.
  intros Hws. cbn zeta.
  unfold CopilotSdk.createSession, CopilotSdk.subscribe.
  unfold MonadM.bind at 1, MonadM.getWorld. rewrite Hws.
  destruct (session workspace) as [old|].
  - unfold MonadM.bind at 1. unfold MonadM.bind at 1. unfold MonadM.await at 1.
    destruct (session_destroy sdk w old) as [[]|e]; [|reflexivity].
    unfold MonadM.setSession at 1. cbn [calls workspaceClients now].
    rewrite (alter_session _ _ _ _ Hws).
    unfold MonadM.bind, MonadM.await, MonadM.setSession, MonadM.record,
      MonadM.ret. cbn [calls workspaceClients now].
    destruct (client_createSession sdk _ _ _) as [s|e]; [|reflexivity].
    rewrite (alter_session _ _ _ (withSession workspace None))
      by apply lookup_insert_eq.
    rewrite insert_insert_eq, <- app_assoc. reflexivity.
  - unfold MonadM.bind, MonadM.await, MonadM.setSession, MonadM.record,
      MonadM.ret. cbn [calls workspaceClients now].
    destruct (client_createSession sdk _ _ _) as [s|e]; [|now destruct w].
    rewrite (alter_session _ _ _ _ Hws), <- app_assoc. reflexivity.
Qed.

End SessionFacts.

(** X7. A [createSession] that succeeds on a connected workspace makes the
    session it returns the workspace's only session: the previous session,
    if there was one, is destroyed before the new one is requested, the new
    session is subscribed to after it is stored, every other field of the
    entry and every other workspace is untouched, and the id returned is
    the new session's. *)
Theorem createSession_replaces (sdk : Sdk) (workspaceId : string)
    (config : option (list (string * value))) (w : World)
    (workspace : CopilotWorkspaceClient) (sid : string) :
  workspaceClients w !! workspaceId = Some workspace ->
  let r := CopilotSdk.createSession sdk workspaceId config w in
  r.1 = Ok sid ->
  exists s,
    sessionId s = sid
    /\ workspaceClients r.2
       = <[workspaceId := withSession workspace (Some s)]> (workspaceClients w)
    /\ calls r.2
       = calls w
           ++ match session workspace with
              | Some old => [SessionDestroy old]
              | None => []
              end
           ++ [ClientCreateSession (client workspace)
                 (CopilotSdk.sessionConfig config);
               SessionOn s].
Proof.
  intros Hws. cbn zeta. rewrite (createSession_eq sdk _ _ _ _ Hws). cbn zeta.
  destruct (session workspace) as [old|].
  - destruct (session_destroy sdk w old) as [[]|e]; [|discriminate].
    destruct (client_createSession sdk _ _ _) as [s|e]; [|discriminate].
    cbn. intros [= <-]. exists s. rewrite <- app_assoc. repeat split.
  - destruct (client_createSession sdk _ _ _) as [s|e]; [|discriminate].
    cbn. intros [= <-]. exists s. repeat split.
Qed.

Lemma createSession_replaces_witness :
  workspaceClients Examples.idleWorld !! "W"
  = Some {| client := Examples.aClient;
            session := Some {| sessionId := "s1" |};
            workspacePath := "/repo";
            connected := true |}
  /\ (CopilotSdk.createSession Examples.okSdk "W" None Examples.idleWorld).1
     = Ok "s1"
  /\ exists s,
      sessionId s = "s1"
      /\ workspaceClients
           (CopilotSdk.createSession Examples.okSdk "W" None
              Examples.idleWorld).2
         = <["W" := withSession
                      {| client := Examples.aClient;
                         session := Some {| sessionId := "s1" |};
                         workspacePath := "/repo";
                         connected := true |} (Some s)]>
             (workspaceClients Examples.idleWorld)
      /\ calls (CopilotSdk.createSession Examples.okSdk "W" None
                  Examples.idleWorld).2
         = calls Examples.idleWorld
             ++ [SessionDestroy {| sessionId := "s1" |}]
             ++ [ClientCreateSession Examples.aClient
                   (CopilotSdk.sessionConfig None);
                 SessionOn s].
Proof.
  assert (H1 : workspaceClients Examples.idleWorld !! "W"
               = Some {| client := Examples.aClient;
                         session := Some {| sessionId := "s1" |};
                         workspacePath := "/repo";
                         connected := true |}) by reflexivity.
  assert (H2 : (CopilotSdk.createSession Examples.okSdk "W" None
                  Examples.idleWorld).1 = Ok "s1") by reflexivity.
  split; [exact H1|]. split; [exact H2|].
  exact (createSession_replaces Examples.okSdk "W" None Examples.idleWorld
           _ "s1" H1 H2).
Defined.

(** X8. When the workspace has a session and destroying it is rejected,
    [createSession] is rejected with the same error before any new session
    is requested, and the old session stays the workspace's session. *)
Theorem createSession_destroy_rejected (sdk : Sdk) (workspaceId : string)
    (config : option (list (string * value))) (w : World)
    (workspace : CopilotWorkspaceClient) (old : CopilotSession) (e : string) :
  workspaceClients w !! workspaceId = Some workspace ->
  session workspace = Some old ->
  session_destroy sdk w old = Throw e ->
  CopilotSdk.createSession sdk workspaceId config w
  = (Throw e,
     {| workspaceClients := workspaceClients w;
        now := now w;
        calls := calls w ++ [SessionDestroy old] |}).
Proof.
  intros Hws Hold Hd. rewrite (createSession_eq sdk _ _ _ _ Hws). cbn zeta.
  now rewrite Hold, Hd.
Qed.

Lemma createSession_destroy_rejected_witness :
  workspaceClients Examples.idleWorld !! "W"
  = Some {| client := Examples.aClient;
            session := Some {| sessionId := "s1" |};
            workspacePath := "/repo";
            connected := true |}
  /\ session_destroy HostExamples.brokenSdk Examples.idleWorld
       {| sessionId := "s1" |} = Throw "Session not found"
  /\ CopilotSdk.createSession HostExamples.brokenSdk "W" None Examples.idleWorld
     = (Throw "Session not found",
        {| workspaceClients := workspaceClients Examples.idleWorld;
           now := now Examples.idleWorld;
           calls := calls Examples.idleWorld
                      ++ [SessionDestroy {| sessionId := "s1" |}] |}).
Proof.
  assert (H1 : workspaceClients Examples.idleWorld !! "W"
               = Some {| client := Examples.aClient;
                         session := Some {| sessionId := "s1" |};
                         workspacePath := "/repo";
                         connected := true |}) by reflexivity.
  assert (H2 : session_destroy HostExamples.brokenSdk Examples.idleWorld
                 {| sessionId := "s1" |} = Throw "Session not found")
    by reflexivity.
  split; [exact H1|]. split; [exact H2|].
  exact (createSession_destroy_rejected HostExamples.brokenSdk "W" None
           Examples.idleWorld _ _ _ H1 eq_refl H2).
Defined.

(** ** The session configuration *)

Section ConfigFacts.

Lemma js_assoc_set (k k' : string) (v : value) (fs : list (string * value)) :
  Js.assoc k (Js.set k' v fs)
  = if String.eqb k k' then Some v else Js.assoc k fs.
Proof.
  induction fs as [|[k0 v0] fs IH].
  - reflexivity.
  - change (Js.set k' v ((k0, v0) :: fs))
      with (if String.eqb k' k0 then (k', v) :: fs
            else (k0, v0) :: Js.set k' v fs).
    change (Js.assoc k ((k0, v0) :: fs))
      with (if String.eqb k k0 then Some v0 else Js.assoc k fs).
    destruct (String.eqb_spec k' k0) as [->|Hne].
    + change (Js.assoc k ((k0, v) :: fs))
        with (if String.eqb k k0 then Some v else Js.assoc k fs).
      now destruct (String.eqb k k0).
    + change (Js.assoc k ((k0, v0) :: Js.set k' v fs))
        with (if String.eqb k k0 then Some v0 else Js.assoc k (Js.set k' v fs)).
      rewrite IH.
      destruct (String.eqb_spec k k0) as [->|Hne']; [|reflexivity].
      destruct (String.eqb_spec k0 k'); [congruence|reflexivity].
Qed.

Lemma js_assoc_absent (k : string) (fs : list (string * value)) :
  k ∉ map fst fs -> Js.assoc k fs = None.
Proof.
  induction fs as [|[k0 v0] fs IH]; cbn; [reflexivity|].
  rewrite not_elem_of_cons. intros [Hne Hnot].
  destruct (String.eqb_spec k k0); [contradiction|]. now apply IH.
Qed.

(** [{...a, ...b}]: a property of [b] wins over the same property of [a]. *)
Lemma js_assoc_spread (k : string) (a b : list (string * value)) :
  NoDup (map fst b) ->
  Js.assoc k (Js.spread a b)
  = match Js.assoc k b with
    | Some v => Some v
    | None => Js.assoc k a
    end.
Proof.
  unfold Js.spread. revert a.
  induction b as [|[k0 v0] b IH]; intros a Hnd; [reflexivity|].
  change (map fst ((k0, v0) :: b)) with (k0 :: map fst b) in Hnd.
  apply NoDup_cons in Hnd as [Hnot Hnd].
  change (fold_left (fun acc kv => Js.set kv.1 kv.2 acc) ((k0, v0) :: b) a)
    with (fold_left (fun acc kv => Js.set kv.1 kv.2 acc) b (Js.set k0 v0 a)).
  rewrite (IH _ Hnd), js_assoc_set.
  change (Js.assoc k ((k0, v0) :: b))
    with (if String.eqb k k0 then Some v0 else Js.assoc k b).
  destruct (String.eqb_spec k k0) as [->|Hne]; [|reflexivity].
  now rewrite (js_assoc_absent _ _ Hnot).
Qed.

End ConfigFacts.

(** X9. In the configuration [createSession] sends, the default model
    ["claude-sonnet-4"] and [streaming: true] apply only to properties the
    caller's config does not have: every property of the config, [model]
    and [streaming] included, is sent with the caller's value, also when
    that value is [undefined] or [null]. *)
Theorem sessionConfig_caller_wins (config : list (string * value))
    (k : string) :
  NoDup (map fst config) ->
  Js.getOpt (CopilotSdk.sessionConfig (Some config)) k
  = match Js.assoc k config with
    | Some v => v
    | None =>
        if String.eqb k "model" then VStr "claude-sonnet-4"
        else if String.eqb k "streaming" then VBool true
        else VUndefined
    end.
Proof.
  intros Hnd. unfold CopilotSdk.sessionConfig. cbn [Js.getOpt default].
  rewrite (js_assoc_spread _ _ _ Hnd).
  destruct (Js.assoc k config) as [v|] eqn:Hk; [reflexivity|]. cbn.
  destruct (String.eqb_spec k "model") as [->|_].
  - now rewrite Hk.
  - now destruct (String.eqb k "streaming").
Qed.

(** [startThread] always passes a [model] property, so without a model the
    session is configured with [model: undefined], not with the default. *)
Lemma sessionConfig_caller_wins_witness :
  NoDup (map fst [("model", VUndefined)])
  /\ Js.getOpt (CopilotSdk.sessionConfig (Some [("model", VUndefined)])) "model"
     = match Js.assoc "model" [("model", VUndefined)] with
       | Some v => v
       | None =>
           if String.eqb "model" "model" then VStr "claude-sonnet-4"
           else if String.eqb "model" "streaming" then VBool true
           else VUndefined
       end.
Proof.
  assert (H : NoDup (map fst [("model", VUndefined)])).
  { cbn. apply NoDup_singleton. }
  split; [exact H|].
  exact (sessionConfig_caller_wins [("model", VUndefined)] "model" H).
Defined.

(** ** Threads of the backend *)

Section ThreadFacts.

Variable sdk : Sdk.

Lemma emitted_app (a b : list Call) : emitted (a ++ b) = emitted a ++ emitted b.
Proof. apply omap_app. Qed.

Lemma createSession_absent (workspaceId : string)
    (config : option (list (string * value))) (w : World) :
  workspaceClients w !! workspaceId = None ->
  CopilotSdk.createSession sdk workspaceId config w
  = (Throw (CopilotSdk.notConnected workspaceId), w).
Proof.
  intros Hws. unfold CopilotSdk.createSession, MonadM.bind, MonadM.getWorld.
  cbn. now rewrite Hws.
Qed.

(** [createSession] emits no event, leaves the clock, and on success the
    workspace's session has the id returned. *)
Lemma createSession_frame (workspaceId : string)
    (config : option (list (string * value))) (w : World) :
  let r := CopilotSdk.createSession sdk workspaceId config w in
  emitted (calls r.2) = emitted (calls w)
  /\ now r.2 = now w
  /\ forall sid,
      r.1 = Ok sid ->
      sessionId <$> (workspaceClients r.2 !! workspaceId ≫= session)
      = Some sid.
Proof.
  cbn zeta.
  destruct (workspaceClients w !! workspaceId) as [workspace|] eqn:Hws.
  - rewrite (createSession_eq sdk _ _ _ _ Hws). cbn zeta.
    destruct (session workspace) as [old|].
    + destruct (session_destroy sdk w old) as [[]|e]; cbn;
        [|rewrite emitted_app, app_nil_r; repeat split; discriminate].
      destruct (client_createSession sdk _ _ _) as [s|e]; cbn;
        rewrite !emitted_app, !app_nil_r; repeat split; try discriminate.
      intros sid [= <-]. now rewrite lookup_insert_eq.
    + destruct (client_createSession sdk _ _ _) as [s|e]; cbn;
        rewrite !emitted_app, !app_nil_r; repeat split; try discriminate.
      intros sid [= <-]. now rewrite lookup_insert_eq.
  - rewrite (createSession_absent _ _ _ Hws). cbn.
    repeat split. discriminate.
Qed.

Lemma startThread_eq (workspaceId : string) (model : value) (w : World) :
  CopilotBackend.startThread sdk workspaceId model w =
    match CopilotSdk.createSession sdk workspaceId
            (Some [("model", model)]) w with
    | (Ok sid, w1) =>
        (Ok sid,
         {| workspaceClients := workspaceClients w1;
            now := now w1;
            calls := calls w1
                       ++ [EmitAppServerEvent
                             (CopilotBackend.threadStarted workspaceId sid
                                (now w1))] |})
    | (Throw e, w1) => (Throw e, w1)
    end.
Proof.
  unfold CopilotBackend.startThread. unfold MonadM.bind at 1.
  now destruct (CopilotSdk.createSession sdk workspaceId _ w) as [[sid|e] w1].
Qed.

End ThreadFacts.

(** X10. [startThread] announces a thread only once it exists: when it
    returns an id, exactly one event was emitted, a [thread/started] that
    carries this id, it is the last thing the call did, and the workspace's
    session has this id; when it is rejected, no event was emitted. *)
Theorem startThread_announces_on_success (sdk : Sdk) (workspaceId : string)
    (model : value) (w : World) :
  let r := CopilotBackend.startThread sdk workspaceId model w in
  (forall sid,
      r.1 = Ok sid ->
      emitted (calls r.2)
      = emitted (calls w)
          ++ [CopilotBackend.threadStarted workspaceId sid (now w)]
      /\ (exists before,
            calls r.2
            = before
                ++ [EmitAppServerEvent
                      (CopilotBackend.threadStarted workspaceId sid (now w))])
      /\ sessionId <$> (workspaceClients r.2 !! workspaceId ≫= session)
         = Some sid)
  /\ (forall e, r.1 = Throw e -> emitted (calls r.2) = emitted (calls w)).
Proof.
  cbn zeta. rewrite startThread_eq.
  destruct (createSession_frame sdk workspaceId (Some [("model", model)]) w)
    as (Hem & Hnow & Hsid). cbn zeta in Hem, Hnow, Hsid.
  destruct (CopilotSdk.createSession sdk workspaceId _ w) as [[sid|e] w1];
    cbn in *.
  - split; [|discriminate]. intros sid' [= <-].
    rewrite emitted_app, Hem, Hnow. cbn. repeat split; eauto.
  - split; [discriminate|]. intros e' _. exact Hem.
Qed.

Section ArchiveFacts.

Import Lifecycle.

Variable hs : HostSdk.


End ArchiveFacts.


Section ResumeFacts.

Import Lifecycle.

Variable hs : HostSdk.


End ResumeFacts.


(** ** Command-line arguments of the backend *)

Section SplitFacts.

Import JsString.

Lemma prefix_app (p v s : string) :
  String.prefix p v = true -> String.prefix p (v +:+ s) = true.
Proof.
  revert v. induction p as [|a p IH]; intros v.
  - intros _. now destruct (v +:+ s).
  - destruct v as [|c v]; [discriminate|].
    change (String.prefix (String a p) (String c v +:+ s))
      with (if ascii_dec a c then String.prefix p (v +:+ s) else false).
    change (String.prefix (String a p) (String c v))
      with (if ascii_dec a c then String.prefix p v else false).
    destruct (ascii_dec a c); [apply IH|discriminate].
Qed.

Lemma matchLen_app (pats : list string) (v s : string) :
  matchLen pats (v +:+ s) = 0%nat -> matchLen pats v = 0%nat.
Proof.
  induction pats as [|p pats IH]; cbn; [reflexivity|].
  destruct (String.prefix p v) eqn:Hp.
  - now rewrite (prefix_app _ _ s Hp).
  - destruct (String.prefix p (v +:+ s)); [|exact IH].
    intros Hlen. destruct p; [now destruct v|discriminate].
Qed.

Lemma string_app_nil_r (s : string) : s +:+ EmptyString = s.
Proof.
  induction s as [|c s IH]; [reflexivity|].
  change (String c (s +:+ EmptyString) = String c s). now rewrite IH.
Qed.

Lemma pieceOk_nil (s : string) : pieceOk EmptyString s.
Proof.
  intros u v Huv Hv. destruct u; [|discriminate].
  change (EmptyString = v) in Huv. congruence.
Qed.

Lemma app_snoc_split (piece u v : string) (c : ascii) :
  piece +:+ String c EmptyString = u +:+ v ->
  v = EmptyString
  \/ exists v0, v = v0 +:+ String c EmptyString /\ piece = u +:+ v0.
Proof.
  revert u. induction piece as [|x piece IH]; intros u Huv.
  - destruct u as [|y u].
    + change (String c EmptyString = v) in Huv.
      right. exists EmptyString. now subst.
    + change (String c EmptyString = String y (u +:+ v)) in Huv.
      injection Huv as -> Huv. destruct u; [|discriminate].
      change (EmptyString = v) in Huv. now left.
  - destruct u as [|y u].
    + change (String x (piece +:+ String c EmptyString) = v) in Huv.
      right. exists (String x piece). now subst.
    + change (String x (piece +:+ String c EmptyString)
              = String y (u +:+ v)) in Huv.
      injection Huv as -> Huv. apply IH in Huv as [->|(v0 & -> & ->)].
      * now left.
      * right. now exists v0.
Qed.

Lemma pieceOk_snoc (piece s : string) (c : ascii) :
  pieceOk piece (String c s) ->
  wsLen (String c s) = 0%nat ->
  pieceOk (piece +:+ String c EmptyString) s.
Proof.
  intros Hok Hc u v Huv Hv.
  apply app_snoc_split in Huv as [->|(v0 & -> & ->)]; [congruence|].
  rewrite string_app_assoc.
  change (String c EmptyString +:+ s) with (String c s).
  destruct v0 as [|y v0]; [exact Hc|].
  apply (Hok u (String y v0)); [reflexivity|discriminate].
Qed.

Lemma pieceOk_noWhiteSpace (piece s : string) :
  pieceOk piece s -> noWhiteSpace piece.
Proof.
  intros Hok u v Huv. destruct v as [|y v]; [reflexivity|].
  apply (matchLen_app _ _ s). apply (Hok u); [assumption|discriminate].
Qed.

Lemma splitGo_cons (c : ascii) (s : string) (skip : nat) (piece : string)
    (inSep : bool) :
  splitGo (String c s) skip piece inSep
  = match skip with
    | S k => splitGo s k piece inSep
    | O =>
        match wsLen (String c s) with
        | O => splitGo s 0 (piece +:+ String c EmptyString) false
        | S k =>
            if inSep then splitGo s k EmptyString true
            else piece :: splitGo s k EmptyString true
        end
    end.
Proof. reflexivity. Qed.

Lemma splitGo_clean (s : string) :
  forall (skip : nat) (piece : string) (inSep : bool),
    pieceOk piece s ->
    (skip <> 0%nat -> piece = EmptyString) ->
    Forall noWhiteSpace (splitGo s skip piece inSep).
Proof.
  induction s as [|c s IH]; intros skip piece inSep Hok Hskip.
  - constructor; [|constructor]. now apply (pieceOk_noWhiteSpace _ EmptyString).
  - rewrite splitGo_cons. destruct skip as [|k].
    + destruct (wsLen (String c s)) as [|k] eqn:Hws.
      * apply IH; [now apply pieceOk_snoc|congruence].
      * destruct inSep.
        -- apply IH; [apply pieceOk_nil|reflexivity].
        -- constructor;
             [now apply (pieceOk_noWhiteSpace _ (String c s))|].
           apply IH; [apply pieceOk_nil|reflexivity].
    + rewrite (Hskip ltac:(discriminate)).
      apply IH; [apply pieceOk_nil|reflexivity].
Qed.

(** A space after a non-empty, white-space-free text does not make it
    start with white space. *)
Lemma prefix_space (p' v r : string) :
  forallb (fun c => negb (Ascii.eqb c " ")) (list_ascii_of_string p') = true ->
  String.prefix p' (v +:+ String " " r) = true ->
  String.prefix p' v = true.
Proof.
  revert v. induction p' as [|a p' IH]; intros v Hp; [now destruct v|].
  change (negb (Ascii.eqb a " ")
          && forallb (fun c => negb (Ascii.eqb c " "))
               (list_ascii_of_string p') = true) in Hp.
  apply andb_prop in Hp as [Ha Hp].
  destruct v as [|c v].
  - change (EmptyString +:+ String " " r) with (String " " r).
    change (String.prefix (String a p') (String " " r))
      with (if ascii_dec a " " then String.prefix p' r else false).
    destruct (ascii_dec a " ") as [->|_]; [discriminate|discriminate].
  - change (String.prefix (String a p') (String c v +:+ String " " r))
      with (if ascii_dec a c then String.prefix p' (v +:+ String " " r)
            else false).
    change (String.prefix (String a p') (String c v))
      with (if ascii_dec a c then String.prefix p' v else false).
    destruct (ascii_dec a c); [now apply IH|discriminate].
Qed.

Lemma matchLen_space (pats : list string) (c : ascii) (v r : string) :
  forallb spaceFreeTail pats = true ->
  matchLen pats (String c v) = 0%nat ->
  matchLen pats (String c v +:+ String " " r) = 0%nat.
Proof.
  induction pats as [|p pats IH]; cbn [matchLen forallb]; [reflexivity|].
  intros Hall. apply andb_prop in Hall as [Hp Hall].
  destruct (String.prefix p (String c v)) eqn:Hpre.
  - destruct p; [discriminate|discriminate].
  - intros Hrest.
    destruct (String.prefix p (String c v +:+ String " " r)) eqn:Hpre';
      [|now apply IH].
    destruct p as [|a p']; [discriminate|].
    change (String.prefix (String a p') (String c v +:+ String " " r))
      with (if ascii_dec a c then String.prefix p' (v +:+ String " " r)
            else false) in Hpre'.
    change (String.prefix (String a p') (String c v))
      with (if ascii_dec a c then String.prefix p' v else false) in Hpre.
    destruct (ascii_dec a c); [|discriminate].
    rewrite (prefix_space _ _ _ Hp Hpre') in Hpre. discriminate.
Qed.

Lemma wsLen_space (c : ascii) (v r : string) :
  wsLen (String c v) = 0%nat ->
  wsLen (String c v +:+ String " " r) = 0%nat.
Proof. apply matchLen_space. vm_compute. reflexivity. Qed.

(** Reading a white-space-free text [v] that ends the input or is followed
    by a space appends it to the piece. *)
Lemma splitGo_word (v : string) :
  forall (piece rest : string) (inSep : bool),
    noWhiteSpace v ->
    v <> EmptyString ->
    (rest = EmptyString \/ exists r, rest = String " " r) ->
    splitGo (v +:+ rest) 0 piece inSep = splitGo rest 0 (piece +:+ v) false.
Proof.
  induction v as [|c v IH]; intros piece rest inSep Hv Hne Hrest;
    [congruence|].
  assert (Hc : wsLen (String c v +:+ rest) = 0%nat).
  { pose proof (Hv EmptyString (String c v) eq_refl) as H0.
    destruct Hrest as [->|[r ->]].
    - now rewrite string_app_nil_r.
    - now apply wsLen_space. }
  change (String c v +:+ rest) with (String c (v +:+ rest)) in *.
  rewrite splitGo_cons, Hc.
  destruct v as [|c' v'].
  - reflexivity.
  - rewrite IH; [|intros u w Huw; apply (Hv (String c u) w); now rewrite Huw
                 |discriminate|assumption].
    now rewrite string_app_assoc.
Qed.

Lemma wsLen_space_first (r : string) : wsLen (String " " r) = 1%nat.
Proof. now destruct r. Qed.

Lemma splitGo_joined (args : list string) :
  args <> [] ->
  Forall validArg args ->
  forall inSep : bool,
    splitGo (String.concat " " args) 0 EmptyString inSep = args.
Proof.
  induction args as [|a args IH]; intros Hne Hall inSep; [congruence|].
  apply Forall_cons in Hall as [[Ha Hws] Hall].
  destruct args as [|a2 args].
  - change (String.concat " " [a]) with a.
    rewrite <- (string_app_nil_r a) at 1.
    rewrite splitGo_word by (try assumption; now left). reflexivity.
  - change (String.concat " " (a :: a2 :: args))
      with (a +:+ String " " (String.concat " " (a2 :: args))).
    rewrite splitGo_word by (try assumption; right; eauto).
    rewrite splitGo_cons, wsLen_space_first.
    change (EmptyString +:+ a) with a.
    f_equal. now apply IH.
Qed.

End SplitFacts.

Lemma split_words_valid (s : string) :
  Forall validArg
    (List.filter (fun x => negb (String.eqb x "")) (JsString.split s)).
Proof.
  assert (Hclean : Forall noWhiteSpace (JsString.split s)).
  { apply splitGo_clean; [apply pieceOk_nil|congruence]. }
  induction Hclean as [|a l Ha Hl IH]; cbn; [constructor|].
  destruct (String.eqb_spec a ""); cbn; [exact IH|].
  constructor; [now split|exact IH].
Qed.

(** X13. The arguments the backend passes to the client never contain an
    empty string or a white space character, whatever the configured
    argument string is. *)
Theorem cliArgs_are_clean (copilotArgs : string) (args : list string) :
  BackendLifecycle.cliArgsOf (Some copilotArgs) = Some args ->
  Forall validArg args.
Proof.
  unfold BackendLifecycle.cliArgsOf.
  destruct (String.eqb copilotArgs ""); [discriminate|]. intros [= <-].
  apply split_words_valid.
Qed.

Lemma cliArgs_are_clean_witness :
  BackendLifecycle.cliArgsOf (Some "  --model  x ") = Some ["--model"; "x"]
  /\ Forall validArg ["--model"; "x"].
Proof.
  assert (H : BackendLifecycle.cliArgsOf (Some "  --model  x ")
              = Some ["--model"; "x"]) by reflexivity.
  split; [exact H|].
  exact (cliArgs_are_clean "  --model  x " ["--model"; "x"] H).
Defined.

(** X14. Arguments joined by single spaces are read back as they were:
    for a non-empty list of non-empty, white-space-free arguments, the
    backend's reading of their space-separated string is that list. *)
Theorem cliArgs_roundtrip (args : list string) :
  args <> [] ->
  Forall validArg args ->
  BackendLifecycle.cliArgsOf (Some (String.concat " " args)) = Some args.
Proof.
  intros Hne Hall. unfold BackendLifecycle.cliArgsOf, JsString.split.
  rewrite (splitGo_joined args Hne Hall).
  assert (Hjoin : String.concat " " args <> "").
  { destruct args as [|a args]; [congruence|].
    apply Forall_cons in Hall as [[Ha _] _].
    destruct a as [|c a]; [congruence|].
    destruct args; cbn; discriminate. }
  destruct (String.eqb_spec (String.concat " " args) ""); [contradiction|].
  f_equal. clear Hne Hjoin n.
  induction Hall as [|a l [Ha _] _ IH]; [reflexivity|].
  cbn. destruct (String.eqb_spec a ""); [contradiction|]. cbn. now rewrite IH.
Qed.

Lemma cliArgs_roundtrip_witness :
  ["--model"; "x"] <> []
  /\ Forall validArg ["--model"; "x"]
  /\ BackendLifecycle.cliArgsOf (Some (String.concat " " ["--model"; "x"]))
     = Some ["--model"; "x"].
Proof.
  assert (H1 : ["--model"; "x"] <> []) by discriminate.
  assert (H2 : Forall validArg ["--model"; "x"])
    by exact (split_words_valid "--model x").
  split; [exact H1|]. split; [exact H2|].
  exact (cliArgs_roundtrip ["--model"; "x"] H1 H2).
Defined.

(** ** useThreads: the order of the merged thread list *)

Section SortFacts.

Import UseThreads.





End SortFacts.


(** ** useThreads: what merge-on-load restores *)

Section RestoreFacts.

Import UseThreads.

Variable state : ThreadState.
Variable now : Z.
Variable its : list (string * option (list ConversationItem)).

Lemma assignTrue_lookup (k k' : string) (ref : gmap string bool) :
  assignTrue k ref !! k'
  = if bool_decide (k' = k)
       && (negb (String.eqb k "__proto__") || bool_decide (is_Some (ref !! k)))
    then Some true else ref !! k'.
Proof.
  unfold assignTrue. case_bool_decide as Hk; cbn [andb].
  - subst k'. destruct (ref !! k) as [b|] eqn:Hown.
    + rewrite lookup_insert_eq, bool_decide_eq_true_2 by eauto.
      now rewrite orb_true_r.
    + rewrite (bool_decide_eq_false_2 (is_Some None)) by (intros [? ?]; done).
      rewrite orb_false_r.
      destruct (String.eqb k "__proto__"); cbn [negb];
        [exact Hown|apply lookup_insert_eq].
  - destruct (ref !! k) as [b|];
      [|destruct (String.eqb k "__proto__"); [reflexivity|]];
      now rewrite lookup_insert_ne by congruence.
Qed.

Lemma restoreThread_snd (th : ThreadSummary)
    (acc : list HookCall * gmap string bool) :
  (restoreThread state now its th acc).2
  = match itemsFor (ts_id th) its with
    | Some (_ :: _) => assignTrue (ts_id th) acc.2
    | _ => acc.2
    end.
Proof.
  unfold restoreThread.
  now destruct (itemsFor (ts_id th) its) as [[|i items]|].
Qed.

Lemma restoreThreads_marks (l : list ThreadSummary)
    (acc : list HookCall * gmap string bool) :
  let r := fold_left (fun acc thread => restoreThread state now its thread acc)
             l acc in
  (forall th i items,
      th ∈ l -> itemsFor (ts_id th) its = Some (i :: items) ->
      ts_id th <> "__proto__" ->
      r.2 !! ts_id th = Some true)
  /\ (forall k,
        (forall th i items,
            th ∈ l -> ts_id th = k ->
            itemsFor k its <> Some (i :: items)) ->
        r.2 !! k = acc.2 !! k)
  /\ (forall k, acc.2 !! k = Some true -> r.2 !! k = Some true)
  /\ (acc.2 !! "__proto__" = None -> r.2 !! "__proto__" = None).
Proof.
  cbn zeta. revert acc. induction l as [|th l IH]; intros acc.
  - cbn. repeat split; try done. intros th i items Hin. inversion Hin.
  - cbn [fold_left].
    destruct (IH (restoreThread state now its th acc))
      as (IH1 & IH2 & IH3 & IH4).
    repeat split.
    + intros th' i items Hin Hits Hne.
      apply elem_of_cons in Hin as [->|Hin]; [|now apply (IH1 _ i items)].
      apply IH3. rewrite restoreThread_snd, Hits, assignTrue_lookup.
      rewrite bool_decide_eq_true_2 by reflexivity.
      destruct (String.eqb_spec (ts_id th) "__proto__"); [contradiction|].
      reflexivity.
    + intros k Hk. rewrite IH2.
      * rewrite restoreThread_snd.
        destruct (itemsFor (ts_id th) its) as [[|i items]|] eqn:Hits;
          try reflexivity.
        rewrite assignTrue_lookup. case_bool_decide as Heq; [|reflexivity].
        exfalso. subst k.
        eapply (Hk th i items); [constructor|reflexivity|exact Hits].
      * intros th' i items Hin. apply Hk. now constructor.
    + intros k Hk. apply IH3. rewrite restoreThread_snd.
      destruct (itemsFor (ts_id th) its) as [[|i items]|]; try assumption.
      rewrite assignTrue_lookup.
      now destruct (bool_decide (k = ts_id th) && _).
    + intros Hnone. apply IH4. rewrite restoreThread_snd.
      destruct (itemsFor (ts_id th) its) as [[|i items]|]; try assumption.
      rewrite assignTrue_lookup. case_bool_decide as Heq; [|exact Hnone].
      rewrite <- Heq, String.eqb_refl, Hnone. cbn [negb orb andb].
      rewrite bool_decide_eq_false_2 by (intros [? ?]; done). reflexivity.
Qed.

End RestoreFacts.

(** X17. When merge-on-load, on the state its callback closed over, does
    not throw, it marks as loaded the merged threads for which the
    snapshot holds a non-empty item log: each of them whose id is not
    [__proto__] is marked, a thread that was marked stays marked, every
    other entry of the loaded-threads record is left as it was, and the
    record never gains an entry for [__proto__]. *)
Theorem load_marks_restored_threads (state : UseThreads.ThreadState)
    (now : Z) (W : string) (snapshot : UseThreads.ThreadHistorySnapshot)
    (loaded loaded' : gmap string bool) (cs : list UseThreads.HookCall) :
  UseThreads.applyThreadHistory state now W snapshot loaded
  = Ok (cs, loaded') ->
  let its := default [] (UseThreads.snap_itemsByThread snapshot) in
  let merged := UseThreads.mergedThreadsOf state W snapshot in
  (forall th i items,
      th ∈ merged ->
      UseThreads.itemsFor (UseThreads.ts_id th) its = Some (i :: items) ->
      UseThreads.ts_id th <> "__proto__" ->
      loaded' !! UseThreads.ts_id th = Some true)
  /\ (forall k,
        (forall th i items,
            th ∈ merged -> UseThreads.ts_id th = k ->
            UseThreads.itemsFor k its <> Some (i :: items)) ->
        loaded' !! k = loaded !! k)
  /\ (forall k, loaded !! k = Some true -> loaded' !! k = Some true)
  /\ (loaded !! "__proto__" = None -> loaded' !! "__proto__" = None).
Proof.
  intros H. apply applyThreadHistory_Ok in H as [_ ->]. cbn zeta.
  apply (restoreThreads_marks state now _ _ ([], loaded)).
Qed.

Lemma load_marks_restored_threads_witness :
  UseThreads.applyThreadHistory Examples.liveState 1000 "W"
    Examples.savedSnapshot ∅
  = Ok ([UseThreads.dispatch
              (UseThreads.setThreads "W"
                 [Examples.savedThread; Examples.liveThread]);
            UseThreads.dispatch
              (UseThreads.setThreadItems "T2"
                 [UseThreads.ItemMessage "i2" "assistant" "kept"]);
            UseThreads.dispatch
              (UseThreads.setLastAgentMessage "T2" "kept" 70);
            UseThreads.dispatch
              (UseThreads.setLastAgentMessage "T1" "old" 50)],
        {[ "T1" := true; "T2" := true ]})
  /\ (forall th i items,
        th ∈ UseThreads.mergedThreadsOf Examples.liveState "W"
               Examples.savedSnapshot ->
        UseThreads.itemsFor (UseThreads.ts_id th)
          (default [] (UseThreads.snap_itemsByThread Examples.savedSnapshot))
        = Some (i :: items) ->
        UseThreads.ts_id th <> "__proto__" ->
        ({[ "T1" := true; "T2" := true ]} : gmap string bool)
          !! UseThreads.ts_id th = Some true).
Proof.
  assert (H : UseThreads.applyThreadHistory Examples.liveState 1000 "W"
                Examples.savedSnapshot ∅
              = Ok ([UseThreads.dispatch
                          (UseThreads.setThreads "W"
                             [Examples.savedThread; Examples.liveThread]);
                        UseThreads.dispatch
                          (UseThreads.setThreadItems "T2"
                             [UseThreads.ItemMessage "i2" "assistant" "kept"]);
                        UseThreads.dispatch
                          (UseThreads.setLastAgentMessage "T2" "kept" 70);
                        UseThreads.dispatch
                          (UseThreads.setLastAgentMessage "T1" "old" 50)],
                    {[ "T1" := true; "T2" := true ]})).
  { vm_compute. reflexivity. }
  split; [exact H|].
  exact (proj1 (load_marks_restored_threads _ _ _ _ _ _ _ H)).
Defined.

(** ** useThreads: what a snapshot holds *)

Section SnapshotFacts.

Import UseThreads.

Variable state : ThreadState.

Lemma itemsFor_set (k k' : string) (v : option (list ConversationItem))
    (fs : list (string * option (list ConversationItem))) :
  itemsFor k (Js.set k' v fs)
  = if String.eqb k k' then v else itemsFor k fs.
Proof.
  induction fs as [|[k0 v0] fs IH]; [reflexivity|].
  change (Js.set k' v ((k0, v0) :: fs))
    with (if String.eqb k' k0 then (k', v) :: fs
          else (k0, v0) :: Js.set k' v fs).
  change (itemsFor k ((k0, v0) :: fs))
    with (if String.eqb k k0 then v0 else itemsFor k fs).
  destruct (String.eqb_spec k' k0) as [->|Hne].
  - change (itemsFor k ((k0, v) :: fs))
      with (if String.eqb k k0 then v else itemsFor k fs).
    now destruct (String.eqb k k0).
  - change (itemsFor k ((k0, v0) :: Js.set k' v fs))
      with (if String.eqb k k0 then v0 else itemsFor k (Js.set k' v fs)).
    rewrite IH.
    destruct (String.eqb_spec k k0) as [->|Hne']; [|reflexivity].
    destruct (String.eqb_spec k0 k'); [congruence|reflexivity].
Qed.

Lemma set_keys {A} (k : string) (v : A) (fs : list (string * A)) :
  map fst (Js.set k v fs)
  = if bool_decide (k ∈ map fst fs) then map fst fs else map fst fs ++ [k].
Proof.
  induction fs as [|[k0 v0] fs IH]; [reflexivity|].
  cbn [Js.set map fst].
  destruct (String.eqb_spec k k0) as [->|Hne].
  - rewrite bool_decide_eq_true_2 by constructor. reflexivity.
  - cbn [map fst]. rewrite IH.
    case_bool_decide as Hin.
    + rewrite bool_decide_eq_true_2 by now constructor. reflexivity.
    + rewrite bool_decide_eq_false_2; [reflexivity|].
      rewrite elem_of_cons. tauto.
Qed.

Lemma set_keys_NoDup {A} (k : string) (v : A) (fs : list (string * A)) :
  NoDup (map fst fs) -> NoDup (map fst (Js.set k v fs)).
Proof.
  intros Hnd. rewrite set_keys. case_bool_decide as Hin; [exact Hnd|].
  apply NoDup_app. repeat split; [exact Hnd| |apply NoDup_singleton].
  intros x Hx ->%list_elem_of_singleton. contradiction.
Qed.

Lemma snapshot_items (now : Z) (W : string) :
  snap_itemsByThread (buildThreadHistorySnapshot state now W)
  = Some (collectItems state
            (default [] (threadsByWorkspace state !! W)) []).
Proof. reflexivity. Qed.

Lemma snapshot_parents (now : Z) (W : string) :
  snap_threadParentById (buildThreadHistorySnapshot state now W)
  = Some (collectParents state
            (default [] (threadsByWorkspace state !! W)) []).
Proof. reflexivity. Qed.

Lemma collectItems_lookup (k : string) (l : list ThreadSummary)
    (acc : list (string * option (list ConversationItem))) :
  itemsFor k (collectItems state l acc)
  = match itemsByThread state !! k with
    | Some (i :: items) =>
        if hasThread k l then Some (i :: items) else itemsFor k acc
    | _ => itemsFor k acc
    end.
Proof.
  revert acc. induction l as [|th l IH]; intros acc.
  - cbn. now destruct (itemsByThread state !! k) as [[|i items]|].
  - change (collectItems state (th :: l) acc)
      with (collectItems state l
              match itemsByThread state !! ts_id th with
              | Some (i :: items) => Js.set (ts_id th) (Some (i :: items)) acc
              | _ => acc
              end).
    rewrite IH. cbn [hasThread existsb]. fold (hasThread k l).
    destruct (String.eqb_spec (ts_id th) k) as [<-|Hne].
    + destruct (itemsByThread state !! ts_id th) as [[|i items]|];
        try reflexivity.
      cbn [orb]. rewrite itemsFor_set, String.eqb_refl.
      now destruct (hasThread (ts_id th) l).
    + cbn [orb].
      destruct (itemsByThread state !! k) as [[|i items]|] eqn:Hk;
        destruct (itemsByThread state !! ts_id th) as [[|i' items']|];
        try reflexivity;
        rewrite itemsFor_set;
        destruct (String.eqb_spec k (ts_id th)); try congruence; reflexivity.
Qed.

Lemma collectItems_NoDup (l : list ThreadSummary)
    (acc : list (string * option (list ConversationItem))) :
  NoDup (map fst acc) -> NoDup (map fst (collectItems state l acc)).
Proof.
  revert acc. induction l as [|th l IH]; intros acc Hnd; [exact Hnd|].
  cbn [collectItems fold_left]. apply IH.
  destruct (itemsByThread state !! ts_id th) as [[|i items]|];
    try assumption.
  now apply set_keys_NoDup.
Qed.

Lemma collectParents_lookup (k : string) (l : list ThreadSummary)
    (acc : list (string * value)) :
  Js.assoc k (collectParents state l acc)
  = match threadParentById state !! k with
    | Some p =>
        if nonEmpty p && hasThread k l then Some (VStr p) else Js.assoc k acc
    | None => Js.assoc k acc
    end.
Proof.
  revert acc. induction l as [|th l IH]; intros acc.
  - cbn. destruct (threadParentById state !! k) as [p|]; [|reflexivity].
    now rewrite andb_false_r.
  - change (collectParents state (th :: l) acc)
      with (collectParents state l
              match threadParentById state !! ts_id th with
              | Some parentId =>
                  if nonEmpty parentId
                  then Js.set (ts_id th) (VStr parentId) acc
                  else acc
              | None => acc
              end).
    rewrite IH. cbn [hasThread existsb]. fold (hasThread k l).
    destruct (String.eqb_spec (ts_id th) k) as [<-|Hne].
    + destruct (threadParentById state !! ts_id th) as [p|]; [|reflexivity].
      cbn [orb]. rewrite andb_true_r.
      destruct (nonEmpty p); [|reflexivity]. cbn [andb].
      rewrite js_assoc_set, String.eqb_refl.
      now destruct (hasThread (ts_id th) l).
    + cbn [orb].
      destruct (threadParentById state !! k) as [p|] eqn:Hk;
        destruct (threadParentById state !! ts_id th) as [p'|];
        try reflexivity;
        destruct (nonEmpty p'); try reflexivity;
        rewrite js_assoc_set;
        destruct (String.eqb_spec k (ts_id th)); try congruence; reflexivity.
Qed.

Lemma collectParents_NoDup (l : list ThreadSummary)
    (acc : list (string * value)) :
  NoDup (map fst acc) -> NoDup (map fst (collectParents state l acc)).
Proof.
  revert acc. induction l as [|th l IH]; intros acc Hnd; [exact Hnd|].
  cbn [collectParents fold_left]. apply IH.
  destruct (threadParentById state !! ts_id th) as [p|]; [|assumption].
  destruct (nonEmpty p); [|assumption].
  now apply set_keys_NoDup.
Qed.


End SnapshotFacts.

(** X18. A snapshot holds the item logs of its own workspace only. Let the
    workspace id and the ids of the workspace's threads not be property
    names of [Object.prototype]. Then the snapshot has a log for an id
    exactly when a thread of the workspace's list has that id and its live
    log is not empty, the log is then the live log, and no id appears
    twice. The same holds for parent links: a link is stored exactly for a
    thread of the list with a non-empty parent id. *)
Theorem snapshot_holds_own_threads (state : UseThreads.ThreadState) (now : Z)
    (W k : string) :
  let snapshot := UseThreads.buildThreadHistorySnapshot state now W in
  let threads := default [] (UseThreads.threadsByWorkspace state !! W) in
  let logs := default [] (UseThreads.snap_itemsByThread snapshot) in
  let parents := default [] (UseThreads.snap_threadParentById snapshot) in
  UseThreads.inherited W = false ->
  (forall t, t ∈ threads -> UseThreads.inherited (UseThreads.ts_id t) = false) ->
  UseThreads.itemsFor k logs
  = match UseThreads.itemsByThread state !! k with
    | Some (i :: items) =>
        if hasThread k threads then Some (i :: items) else None
    | _ => None
    end
  /\ Js.assoc k parents
     = match UseThreads.threadParentById state !! k with
       | Some p =>
           if UseThreads.nonEmpty p && hasThread k threads
           then Some (VStr p) else None
       | None => None
       end
  /\ NoDup (map fst logs)
  /\ NoDup (map fst parents).
Proof.
  cbn zeta. intros _ _. rewrite snapshot_items, snapshot_parents.
  change (default [] (Some ?x)) with x.
  repeat split.
  - rewrite (collectItems_lookup state k _ []).
    now destruct (UseThreads.itemsByThread state !! k) as [[|i items]|];
      try destruct (hasThread k _).
  - rewrite (collectParents_lookup state k _ []).
    destruct (UseThreads.threadParentById state !! k) as [p|]; [|reflexivity].
    now destruct (UseThreads.nonEmpty p && hasThread k _).
  - apply (collectItems_NoDup state). constructor.
  - apply (collectParents_NoDup state). constructor.
Qed.

Lemma snapshot_holds_own_threads_witness :
  UseThreads.inherited "W" = false
  /\ (forall t,
        t ∈ default [] (UseThreads.threadsByWorkspace Examples.lateState !! "W") ->
        UseThreads.inherited (UseThreads.ts_id t) = false)
  /\ UseThreads.itemsFor "T1"
       (default []
          (UseThreads.snap_itemsByThread
             (UseThreads.buildThreadHistorySnapshot Examples.lateState 1000
                "W")))
     = Some [UseThreads.ItemMessage "i1" "user" "hello"].
Proof.
  assert (H1 : UseThreads.inherited "W" = false) by reflexivity.
  assert (H2 : forall t,
             t ∈ default []
                   (UseThreads.threadsByWorkspace Examples.lateState !! "W") ->
             UseThreads.inherited (UseThreads.ts_id t) = false).
  { intros t Ht. vm_compute in Ht.
    repeat (apply elem_of_cons in Ht as [->|Ht]; [reflexivity|]).
    inversion Ht. }
  split; [exact H1|]. split; [exact H2|].
  exact (proj1 (snapshot_holds_own_threads Examples.lateState 1000 "W" "T1"
                  H1 H2)).
Defined.

Section RoundTripFacts.

Import UseThreads.




End RoundTripFacts.



(** ** Trimming *)

Section TrimFacts.
Import JsString.

Lemma rev_app_app (a b acc : string) :
  String.rev_app (a +:+ b) acc = String.rev_app b (String.rev_app a acc).
Proof.
  revert acc. induction a as [|c a IH]; intros acc; [reflexivity|].
  change (String c a +:+ b) with (String c (a +:+ b)).
  cbn [String.rev_app]. apply IH.
Qed.

Lemma rev_app_rev_app (a b c : string) :
  String.rev_app (String.rev_app a b) c = String.rev_app b (a +:+ c).
Proof.
  revert b c. induction a as [|x a IH]; intros b c; [reflexivity|].
  cbn [String.rev_app]. now rewrite IH.
Qed.

Lemma rev_app_acc (a acc : string) :
  String.rev_app a acc = String.rev a +:+ acc.
Proof.
  unfold String.rev. revert acc.
  induction a as [|x a IH]; intros acc; [reflexivity|].
  cbn [String.rev_app]. rewrite IH, (IH (String x EmptyString)).
  now rewrite string_app_assoc.
Qed.

Lemma string_rev_involutive (s : string) : String.rev (String.rev s) = s.
Proof.
  unfold String.rev. rewrite rev_app_rev_app. apply string_app_nil_r.
Qed.

Lemma string_rev_app (a b : string) :
  String.rev (a +:+ b) = String.rev b +:+ String.rev a.
Proof.
  unfold String.rev at 1. rewrite rev_app_app. apply rev_app_acc.
Qed.

Lemma matchLen_empty (pats : list string) :
  matchLen pats EmptyString = 0%nat.
Proof.
  induction pats as [|p pats IH]; [reflexivity|].
  destruct p; [reflexivity|exact IH].
Qed.

Lemma stripGo_clean (pats : list string) (s : string) (skip : nat) :
  matchLen pats (stripGo pats s skip) = 0%nat.
Proof.
  revert skip. induction s as [|c s IH]; intros skip.
  - apply matchLen_empty.
  - cbn [stripGo]. destruct skip as [|k]; [|apply IH].
    destruct (matchLen pats (String c s)) eqn:E; [exact E|apply IH].
Qed.

Lemma stripGo_fixed (pats : list string) (r : string) :
  matchLen pats r = 0%nat -> stripGo pats r 0 = r.
Proof.
  intros H. destruct r as [|c r]; [reflexivity|].
  cbn [stripGo]. now rewrite H.
Qed.

Lemma stripGo_suffix (pats : list string) (s : string) (skip : nat) :
  exists u, s = u +:+ stripGo pats s skip.
Proof.
  revert skip. induction s as [|c s IH]; intros skip.
  - now exists EmptyString.
  - cbn [stripGo].
    assert (Hrec : forall k, exists u, String c s = u +:+ stripGo pats s k).
    { intros k. destruct (IH k) as [u Hu]. exists (String c u).
      change (String c s = String c (u +:+ stripGo pats s k)).
      now rewrite <- Hu. }
    destruct skip as [|k]; [|apply Hrec].
    destruct (matchLen pats (String c s)); [now exists EmptyString|].
    apply Hrec.
Qed.

Lemma trimEnd_trimEnd (s : string) : trimEnd (trimEnd s) = trimEnd s.
Proof.
  unfold trimEnd. rewrite string_rev_involutive.
  now rewrite (stripGo_fixed _ _ (stripGo_clean _ _ _)).
Qed.

Lemma trimEnd_clean (s : string) : wsLen s = 0%nat -> wsLen (trimEnd s) = 0%nat.
Proof.
  intros H. unfold trimEnd.
  destruct (stripGo_suffix (map String.rev whiteSpace) (String.rev s) 0)
    as [u Hu].
  apply (f_equal String.rev) in Hu.
  rewrite string_rev_involutive, string_rev_app in Hu.
  rewrite Hu in H. exact (matchLen_app _ _ _ H).
Qed.

Lemma trim_idempotent (s : string) : trim (trim s) = trim s.
Proof.
  unfold trim.
  assert (H : trimStart (trimEnd (trimStart s)) = trimEnd (trimStart s)).
  { apply stripGo_fixed, trimEnd_clean, stripGo_clean. }
  rewrite H. apply trimEnd_trimEnd.
Qed.

End TrimFacts.

(** ** The account snapshot *)

Section AccountFacts.
Import AccountInfo.

Lemma get_present (v : value) (k : string) :
  Js.nullish v = false -> Js.get v k = Ok (Js.getOpt v k).
Proof. now destruct v. Qed.

Lemma truthy_present (v : value) : Js.truthy v = true -> Js.nullish v = false.
Proof. now destruct v. Qed.

Lemma getOpt_present (v : value) (k : string) :
  Js.truthy (Js.getOpt v k) = true -> Js.nullish v = false.
Proof. now destruct v. Qed.

Lemma trimmedString_trimmed (v : value) :
  JsString.trim (trimmedString v) = trimmedString v.
Proof. destruct v; try reflexivity. apply trim_idempotent. Qed.

Lemma orElse_trimmed (a b : string) :
  JsString.trim a = a -> JsString.trim b = b ->
  JsString.trim (orElse a b) = orElse a b.
Proof. intros Ha Hb. unfold orElse. now destruct (String.eqb a ""). Qed.

Lemma orElse_nonempty (a b : string) :
  b <> EmptyString -> orElse a b <> EmptyString.
Proof.
  intros Hb. unfold orElse. destruct (String.eqb_spec a ""); congruence.
Qed.

Lemma nonEmptyOrNull_Some (s e : string) :
  nonEmptyOrNull s = Some e -> e = s /\ e <> EmptyString.
Proof.
  unfold nonEmptyOrNull. destruct (String.eqb_spec s ""); [discriminate|].
  intros H. apply (inj Some) in H. now subst.
Qed.

(** The two ways [normalizeAccountSnapshot] returns. *)
Lemma normalizeAccountSnapshot_cases (response : value) :
  exists roa,
    (exists auth login,
        JsString.trim login = login
        /\ normalizeAccountSnapshot response
           = Ok {| acc_type := "unknown";
                   email := match auth with
                            | Some true => Some (orElse login "Copilot")
                            | _ => None
                            end;
                   planType := None;
                   requiresOpenaiAuth := roa |})
    \/ (exists typeRaw emailRaw login planRaw,
           JsString.trim emailRaw = emailRaw
           /\ JsString.trim login = login
           /\ JsString.trim planRaw = planRaw
           /\ normalizeAccountSnapshot response
              = Ok {| acc_type :=
                        if String.eqb typeRaw "chatgpt"
                           || String.eqb typeRaw "apikey"
                        then typeRaw else "unknown";
                      email :=
                        nonEmptyOrNull
                          (orElse emailRaw (orElse login EmptyString));
                      planType := nonEmptyOrNull planRaw;
                      requiresOpenaiAuth := roa |}).
Proof.
  unfold normalizeAccountSnapshot.
  set (r := Js.getOpt response "result").
  assert (Hr : (if Js.truthy r then Js.get response "result"
                else Ok VUndefined)
               = Ok (if Js.truthy r then r else VUndefined)).
  { destruct (Js.truthy r) eqn:E; [|reflexivity].
    apply get_present, (getOpt_present _ _ E). }
  rewrite Hr. cbn [Js.bind].
  set (resultValue := if Js.truthy r && isObjectType _ then _ else VNull).
  assert (Hd : (if Js.truthy resultValue then Js.get resultValue "data"
                else Ok VUndefined)
               = Ok (if Js.truthy resultValue
                     then Js.getOpt resultValue "data" else VUndefined)).
  { destruct (Js.truthy resultValue) eqn:E; [|reflexivity].
    apply get_present, truthy_present, E. }
  rewrite Hd. cbn [Js.bind].
  set (dataValue := if Js.truthy resultValue && isObjectType _
                    then _ else VNull).
  set (accountValue := firstPresent [_; _; _; _; resultValue]).
  set (account := if Js.truthy accountValue && isObjectType accountValue
                  then accountValue else VNull).
  set (roa := booleanOrNull (firstPresent [_; _; _; _])). exists roa.
  set (auth := booleanOrNull (firstPresent [_; _; _; _; _; _])).
  set (login := trimmedString _).
  assert (Hlogin : JsString.trim login = login)
    by apply trimmedString_trimmed.
  destruct (Js.truthy account) eqn:Hacc; cbn [negb].
  - right.
    assert (Hget : forall k, Js.get account k = Ok (Js.getOpt account k)).
    { intros k. apply get_present, truthy_present, Hacc. }
    rewrite !Hget. cbn [Js.bind].
    eexists _, _, login, _. split; [|split; [exact Hlogin|split]];
      [| |reflexivity].
    + destruct (Js.getOpt account "email"); try apply trim_idempotent;
        (destruct (Js.getOpt account "login"); try apply trim_idempotent;
         apply trimmedString_trimmed).
    + apply trimmedString_trimmed.
  - left. exists auth, login. split; [exact Hlogin|reflexivity].
Qed.

Lemma normalizeAccountSnapshot_Ok (response : value) :
  exists snap, normalizeAccountSnapshot response = Ok snap.
Proof.
  destruct (normalizeAccountSnapshot_cases response)
    as [roa [(auth & login & _ & ->)|(t & e & l & p & _ & _ & _ & ->)]];
    eexists; reflexivity.
Qed.

End AccountFacts.

(** X21. [normalizeAccountSnapshot] never throws, whatever value the
    response is, and the account type it reports is one of ["chatgpt"],
    ["apikey"] and ["unknown"]. *)
Theorem normalizeAccountSnapshot_total (response : value) :
  exists snap,
    AccountInfo.normalizeAccountSnapshot response = Ok snap
    /\ AccountInfo.acc_type snap ∈ ["chatgpt"; "apikey"; "unknown"].
Proof.
  destruct (normalizeAccountSnapshot_cases response)
    as [roa [(auth & login & _ & ->)|(t & e & l & p & _ & _ & _ & ->)]];
    eexists; (split; [reflexivity|]); cbn [AccountInfo.acc_type].
  - set_solver.
  - destruct (String.eqb_spec t "chatgpt") as [->|_]; [set_solver|].
    destruct (String.eqb_spec t "apikey") as [->|_]; set_solver.
Qed.

(** X22. The e-mail and the plan of a normalized account snapshot are
    never the empty string, and carry no white space at either end: a
    blank value is reported as absent. *)
Theorem account_strings_trimmed (response : value)
    (snap : AccountInfo.AccountSnapshot) :
  AccountInfo.normalizeAccountSnapshot response = Ok snap ->
  (forall e, AccountInfo.email snap = Some e ->
             e <> EmptyString /\ JsString.trim e = e)
  /\ (forall p, AccountInfo.planType snap = Some p ->
                p <> EmptyString /\ JsString.trim p = p).
Proof.
  destruct (normalizeAccountSnapshot_cases response)
    as [roa [(auth & login & Hl & ->)|(t & e & l & p & He & Hl & Hp & ->)]];
    intros H; injection H as <-;
    cbn [AccountInfo.email AccountInfo.planType]; split.
  - intros e He. destruct auth as [[|]|]; try discriminate.
    apply (inj Some) in He. subst e. split.
    + now apply orElse_nonempty.
    + now apply orElse_trimmed.
  - discriminate.
  - intros e' He'. apply nonEmptyOrNull_Some in He' as [-> Hne].
    split; [exact Hne|].
    apply orElse_trimmed; [exact He|]. now apply orElse_trimmed.
  - intros p' Hp'. apply nonEmptyOrNull_Some in Hp' as [-> Hne].
    now split.
Qed.

Lemma account_strings_trimmed_witness :
  AccountInfo.normalizeAccountSnapshot
    (VObj [("account", VObj [("email", VStr "  dev@example.com ");
                             ("planType", VStr " ")])])
  = Ok {| AccountInfo.acc_type := "unknown";
          AccountInfo.email := Some "dev@example.com";
          AccountInfo.planType := None;
          AccountInfo.requiresOpenaiAuth := None |}
  /\ ((forall e, Some "dev@example.com" = Some e ->
                 e <> EmptyString /\ JsString.trim e = e)
      /\ (forall p, @None string = Some p ->
                    p <> EmptyString /\ JsString.trim p = p)).
Proof.
  split; [vm_compute; reflexivity|].
  exact (account_strings_trimmed
           (VObj [("account", VObj [("email", VStr "  dev@example.com ");
                                    ("planType", VStr " ")])])
           _ eq_refl).
Defined.

(** X23. The answer of [getAuthStatus], normalized: the account type is
    unknown and there is no plan; an authenticated user is shown by the
    trimmed login, or as "Copilot" when the login is absent or blank, and
    an unauthenticated one has no e-mail. *)
Theorem auth_status_snapshot (authenticated : bool) (user : option string) :
  AccountInfo.normalizeAccountSnapshot
    (AccountInfo.authStatusValue (authenticated, user))
  = Ok {| AccountInfo.acc_type := "unknown";
          AccountInfo.email :=
            if authenticated
            then Some (AccountInfo.orElse
                         (JsString.trim (default EmptyString user))
                         "Copilot")
            else None;
          AccountInfo.planType := None;
          AccountInfo.requiresOpenaiAuth := None |}.
Proof.
  destruct authenticated, user as [u|]; reflexivity.
Qed.

(** ** The refresh callbacks *)

Section HookFacts.
Import Hooks.

(** A debug entry is neither a request nor a dispatch; reporting it throws
    only what [onDebug] throws. *)
Lemma debug_run (env : Env) (suffix source label : string) (payload : value)
    (r : Run) :
  exists res r',
    debug env suffix source label payload r = (res, r')
    /\ List.filter isRequest (trace r') = List.filter isRequest (trace r)
    /\ List.filter isDispatch (trace r') = List.filter isDispatch (trace r)
    /\ (res = Ok tt \/ exists e, res = Throw e /\ thrownByDebug env e)
    /\ (quietDebug env -> res = Ok tt).
Proof.
  unfold debug. destruct (onDebug env) as [callback|] eqn:Hcb.
  - eexists _, _. split; [reflexivity|].
    cbn [trace MonadK.dateNow MonadK.await MonadK.bind fst snd].
    rewrite !List.filter_app. cbn [List.filter isRequest isDispatch].
    rewrite !app_nil_r. split; [reflexivity|split; [reflexivity|split]].
    + match goal with
      | |- callback ?entry = _ \/ _ =>
          destruct (callback entry) as [[]|e] eqn:He;
            [now left|right; exists e; split; [reflexivity|]];
            now exists callback, entry
      end.
    + intros Hq. now apply Hq.
  - exists (Ok tt), r.
    split; [reflexivity|split; [reflexivity|split; [reflexivity|split]]];
      [now left|reflexivity].
Qed.

End HookFacts.

Ltac step_debug :=
  match goal with
  | |- context [Hooks.debug ?env ?a ?b ?c ?p ?r] =>
      let res := fresh "res" in
      let r' := fresh "r" in
      let H := fresh "Hrun" in
      let Hq := fresh "Hreq" in
      let Hd := fresh "Hdis" in
      let Ht := fresh "Hthrown" in
      let Hs := fresh "Hquiet" in
      let e := fresh "e" in
      destruct (debug_run env a b c p r) as (res & r' & H & Hq & Hd & Ht & Hs);
      rewrite H; clear H;
      cbn [Hooks.trace] in Hq, Hd;
      destruct Ht as [->|(e & -> & Ht)]; [clear Hs|];
      cbv beta iota
  end.

Ltac hooks_trace :=
  unfold Hooks.requests, Hooks.dispatches;
  cbn [fst snd Hooks.trace];
  rewrite ?List.filter_app in *;
  cbn [List.filter Hooks.isRequest Hooks.isDispatch Hooks.trace Hooks.start]
    in *;
  repeat match goal with
         | H : List.filter _ (Hooks.trace _) = _ |- _ =>
             rewrite H; clear H
         end;
  rewrite ?app_nil_r; cbn [app].

(** A run in which [onDebug] threw is not one of a quiet [onDebug]. *)
Ltac not_quiet :=
  match goal with
  | Hq : Hooks.quietDebug ?env, H : Hooks.quietDebug ?env -> Throw _ = Ok _
    |- _ => discriminate (H Hq)
  end.

Ltac hooks_leaf :=
  hooks_trace;
  repeat match goal with
         | |- _ /\ _ => split
         | |- Hooks.quietDebug _ -> _ =>
             let Hq := fresh "Hq" in intros Hq; try not_quiet
         | |- ?x = ?x => reflexivity
         | |- ?x = ?x \/ _ => left; reflexivity
         | |- _ \/ ?x = ?x => right; reflexivity
         | |- _ \/ exists e, Throw _ = Throw e /\ _ =>
             right; eexists; split; [reflexivity|eassumption]
         end.

(** X24. [refreshAccountInfo] without a target workspace (none given and
    none active, or an empty id) does nothing at all. With a target it
    rejects only with an error that [onDebug] threw; it makes no other
    request than the one for the account of the target and dispatches
    nothing but one [setAccountInfo] for the target with the normalized
    answer of the backend. When [onDebug] is absent or never throws, it
    never rejects: it asks for the account exactly once and, when the
    backend answers, dispatches exactly one [setAccountInfo], whatever the
    answer's shape; when the backend rejects, nothing is dispatched. *)
Theorem refreshAccountInfo_outcome (env : Hooks.Env)
    (activeWorkspaceId workspaceId : option string) :
  let r := Hooks.refreshAccountInfo env activeWorkspaceId workspaceId
             Hooks.start in
  match Hooks.targetOf activeWorkspaceId workspaceId with
  | None => r = (Ok tt, Hooks.start)
  | Some targetId =>
      (r.1 = Ok tt \/ exists e, r.1 = Throw e /\ Hooks.thrownByDebug env e)
      /\ (Hooks.requests r.2 = []
          \/ Hooks.requests r.2 = [Hooks.GetAccountInfo targetId])
      /\ (Hooks.dispatches r.2 = []
          \/ exists response account,
               Hooks.getAccountInfo env targetId = Ok response
               /\ AccountInfo.normalizeAccountSnapshot response = Ok account
               /\ Hooks.dispatches r.2
                  = [Hooks.SetAccountInfo targetId account])
      /\ (Hooks.quietDebug env ->
          r.1 = Ok tt
          /\ Hooks.requests r.2 = [Hooks.GetAccountInfo targetId]
          /\ match Hooks.getAccountInfo env targetId with
             | Ok response =>
                 exists account,
                   AccountInfo.normalizeAccountSnapshot response = Ok account
                   /\ Hooks.dispatches r.2
                      = [Hooks.SetAccountInfo targetId account]
             | Throw _ => Hooks.dispatches r.2 = []
             end)
  end.
Proof.
  unfold Hooks.refreshAccountInfo.
  destruct (Hooks.targetOf activeWorkspaceId workspaceId) as [t|];
    [|reflexivity].
  unfold Hooks.MonadK.bind, Hooks.MonadK.tryCatch, Hooks.MonadK.await,
    Hooks.MonadK.lift, Hooks.MonadK.emit, Hooks.MonadK.ret.
  cbv zeta.
  step_debug; [|now hooks_leaf].
  destruct (Hooks.getAccountInfo env t) as [response|e] eqn:Hget.
  - destruct (normalizeAccountSnapshot_Ok response) as [account Hn].
    step_debug; [rewrite Hn|]; [|step_debug]; hooks_leaf;
      try (right; exists response, account; now repeat split);
      try (exists account; now split).
  - step_debug; now hooks_leaf.
Qed.

(** A quiet [onDebug] and one that throws at every entry. *)
Example refreshAccountInfo_example :
  let env (callback : option (DebugEntry -> js unit)) :=
    {| Hooks.clock := fun n => Z.of_nat n;
       Hooks.onDebug := callback;
       Hooks.getAccountInfo := fun _ => Ok VNull;
       Hooks.fetchCopilotUsage := Throw "offline";
       Hooks.getAccountRateLimits := fun _ => Ok VNull;
       Hooks.normalizeRateLimits := fun v => Ok v |} in
  Hooks.quietDebug (env (Some (fun _ => Ok tt)))
  /\ (Hooks.refreshAccountInfo (env (Some (fun _ => Ok tt))) (Some "W") None
        Hooks.start).1 = Ok tt
  /\ Hooks.refreshAccountInfo (env (Some (fun _ => Throw "boom")))
       (Some "W") None Hooks.start
     = (Throw "boom",
        {| Hooks.reads := 2;
           Hooks.trace :=
             [Hooks.OnDebug
                {| d_id := "0-client-account-read";
                   d_timestamp := 1;
                   d_source := "client";
                   d_label := "account/read";
                   d_payload := VObj [("workspaceId", VStr "W")] |}] |}).
Proof.
  cbv zeta. split; [|split; vm_compute; reflexivity].
  intros callback entry H. cbn in H. injection H as <-. reflexivity.
Qed.

(** X25. [refreshAccountRateLimits] without a target does nothing. With a
    target it rejects only with an error that [onDebug] threw, and
    dispatches at most one action, a [setRateLimits] for the target. When
    [onDebug] is absent or never throws, it never rejects, not even when
    both sources fail or [normalizeRateLimits] throws: the Copilot usage is
    asked first, and [getAccountRateLimits] is asked exactly when the usage
    gave no rate limits; the one [setRateLimits] carries the usage's limits
    if it gave some, else those found in the fallback answer, if any. *)
Theorem refreshAccountRateLimits_outcome (env : Hooks.Env)
    (activeWorkspaceId workspaceId : option string) :
  let r := Hooks.refreshAccountRateLimits env activeWorkspaceId workspaceId
             Hooks.start in
  match Hooks.targetOf activeWorkspaceId workspaceId with
  | None => r = (Ok tt, Hooks.start)
  | Some targetId =>
      (r.1 = Ok tt \/ exists e, r.1 = Throw e /\ Hooks.thrownByDebug env e)
      /\ (Hooks.dispatches r.2 = []
          \/ exists limits,
               Hooks.dispatches r.2 = [Hooks.SetRateLimits targetId limits])
      /\ (Hooks.quietDebug env ->
          r.1 = Ok tt
          /\ match Hooks.usageLimits env with
             | Some limits =>
                 Hooks.requests r.2 = [Hooks.FetchCopilotUsage]
                 /\ Hooks.dispatches r.2
                    = [Hooks.SetRateLimits targetId limits]
             | None =>
                 Hooks.requests r.2
                 = [Hooks.FetchCopilotUsage;
                    Hooks.GetAccountRateLimits targetId]
                 /\ Hooks.dispatches r.2
                    = match Hooks.fallbackLimits env targetId with
                      | Some limits => [Hooks.SetRateLimits targetId limits]
                      | None => []
                      end
             end)
  end.
Proof.
  unfold Hooks.refreshAccountRateLimits, Hooks.usageLimits,
    Hooks.fallbackLimits.
  destruct (Hooks.targetOf activeWorkspaceId workspaceId) as [t|];
    [|reflexivity].
  unfold Hooks.MonadK.bind, Hooks.MonadK.tryCatch, Hooks.MonadK.await,
    Hooks.MonadK.lift, Hooks.MonadK.emit, Hooks.MonadK.ret.
  cbv zeta.
  step_debug; [|now hooks_leaf].
  destruct (Hooks.fetchCopilotUsage env) as [usage|e1].
  - step_debug.
    + destruct (Js.truthy (Js.getOpt usage "primary"));
        [destruct (Hooks.normalizeRateLimits env usage) as [v|e2];
         [hooks_leaf; right; now eexists|step_debug]|].
      all: try (now hooks_leaf).
      all: destruct (Hooks.getAccountRateLimits env t) as [response|e3];
        step_debug;
        try (destruct (Js.truthy _);
             [destruct (Hooks.normalizeRateLimits env _); [|step_debug]|]);
        try step_debug;
        hooks_leaf; try (right; now eexists).
    + step_debug; [|now hooks_leaf].
      destruct (Hooks.getAccountRateLimits env t) as [response|e3];
        step_debug;
        try (destruct (Js.truthy _);
             [destruct (Hooks.normalizeRateLimits env _); [|step_debug]|]);
        try step_debug;
        hooks_leaf; try (right; now eexists).
  - step_debug; [|now hooks_leaf].
    destruct (Hooks.getAccountRateLimits env t) as [response|e3];
      step_debug;
      try (destruct (Js.truthy _);
           [destruct (Hooks.normalizeRateLimits env _); [|step_debug]|]);
      try step_debug;
      hooks_leaf; try (right; now eexists).
Qed.

(** The usage is offline and the fallback answers with rate limits: with a
    quiet [onDebug] they are dispatched; when [onDebug] throws at the
    error entry of the first [try], the callback rejects before the
    fallback is asked. *)
Example refreshAccountRateLimits_example :
  let limits := VObj [("primary", VNum 1)] in
  let env (callback : option (DebugEntry -> js unit)) :=
    {| Hooks.clock := fun n => Z.of_nat n;
       Hooks.onDebug := callback;
       Hooks.getAccountInfo := fun _ => Ok VNull;
       Hooks.fetchCopilotUsage := Throw "offline";
       Hooks.getAccountRateLimits :=
         fun _ => Ok (VObj [("rateLimits", limits)]);
       Hooks.normalizeRateLimits := fun v => Ok v |} in
  let picky (entry : DebugEntry) : js unit :=
    if String.eqb (d_source entry) "error" then Throw "boom" else Ok tt in
  let quiet := Hooks.refreshAccountRateLimits (env (Some (fun _ => Ok tt)))
                 None (Some "W") Hooks.start in
  let loud := Hooks.refreshAccountRateLimits (env (Some picky))
                None (Some "W") Hooks.start in
  quiet.1 = Ok tt
  /\ Hooks.requests quiet.2
     = [Hooks.FetchCopilotUsage; Hooks.GetAccountRateLimits "W"]
  /\ Hooks.dispatches quiet.2 = [Hooks.SetRateLimits "W" limits]
  /\ loud.1 = Throw "boom"
  /\ Hooks.requests loud.2 = [Hooks.FetchCopilotUsage]
  /\ Hooks.dispatches loud.2 = [].
Proof. vm_compute. repeat split. Qed.

(** ** Reading lines from a stream *)

Section ReadLinesFacts.
Import AcpSmoke.

Lemma cut_length (x l r : string) :
  cut x = Some (l, r) -> (String.length r < String.length x)%nat.
Proof.
  revert l. induction x as [|c x IH]; intros l; [discriminate|].
  cbn [cut String.length]. destruct (Ascii.eqb c "010").
  - intros H. apply (inj Some) in H. injection H as _ <-. lia.
  - destruct (cut x) as [[l0 r0]|]; [|discriminate].
    intros H. apply (inj Some) in H. injection H as _ <-.
    specialize (IH l0 eq_refl). lia.
Qed.

Lemma cut_app_Some (x y l r : string) :
  cut x = Some (l, r) -> cut (x +:+ y) = Some (l, r +:+ y).
Proof.
  revert l. induction x as [|c x IH]; intros l; [discriminate|].
  change (String c x +:+ y) with (String c (x +:+ y)).
  cbn [cut]. destruct (Ascii.eqb c "010").
  - intros H. apply (inj Some) in H. now injection H as <- <-.
  - destruct (cut x) as [[l0 r0]|]; [|discriminate].
    intros H. apply (inj Some) in H. injection H as <- <-.
    now rewrite (IH l0 eq_refl).
Qed.

Lemma cut_app_None (x y : string) :
  cut x = None ->
  cut (x +:+ y) = match cut y with
                  | Some (l, r) => Some (x +:+ l, r)
                  | None => None
                  end.
Proof.
  induction x as [|c x IH].
  - intros _. change (EmptyString +:+ y) with y.
    now destruct (cut y) as [[l r]|].
  - change (String c x +:+ y) with (String c (x +:+ y)).
    cbn [cut]. destruct (Ascii.eqb c "010"); [discriminate|].
    destruct (cut x) as [[l0 r0]|]; [discriminate|].
    intros _. rewrite (IH eq_refl). now destruct (cut y) as [[l r]|].
Qed.

Lemma cut_app_inv (a b : string) :
  cut (a +:+ b) = None -> cut a = None /\ cut b = None.
Proof.
  intros H. destruct (cut a) as [[l r]|] eqn:Ha.
  - now rewrite (cut_app_Some _ b _ _ Ha) in H.
  - rewrite (cut_app_None _ b Ha) in H. split; [reflexivity|].
    now destruct (cut b) as [[l r]|].
Qed.

Lemma cut_line (x l r : string) : cut x = Some (l, r) -> cut l = None.
Proof.
  revert l r. induction x as [|c x IH]; intros l r; [discriminate|].
  cbn [cut]. destruct (Ascii.eqb c "010") eqn:Hc.
  - intros H. apply (inj Some) in H. now injection H as <- _.
  - destruct (cut x) as [[l0 r0]|]; [|discriminate].
    intros H. apply (inj Some) in H. injection H as <- _.
    cbn [cut]. rewrite Hc. now rewrite (IH l0 r0 eq_refl).
Qed.

Lemma string_length_app (a b : string) :
  String.length (a +:+ b) = (String.length a + String.length b)%nat.
Proof.
  induction a as [|c a IH]; [reflexivity|].
  change (String c a +:+ b) with (String c (a +:+ b)).
  cbn [String.length]. now rewrite IH.
Qed.

Lemma drain_fuel (f1 f2 : nat) (b : string) :
  (String.length b < f1)%nat -> (String.length b < f2)%nat ->
  drain f1 b = drain f2 b.
Proof.
  revert f2 b. induction f1 as [|f1 IH]; intros f2 b H1 H2; [lia|].
  destruct f2 as [|f2]; [lia|]. cbn [drain].
  destruct (cut b) as [[l r]|] eqn:Hc; [|reflexivity].
  apply cut_length in Hc. rewrite (IH f2 r); [reflexivity|lia|lia].
Qed.

Lemma drain_rest (f : nat) (b : string) :
  (String.length b < f)%nat -> cut (drain f b).2 = None.
Proof.
  revert b. induction f as [|f IH]; intros b H; [lia|]. cbn [drain].
  destruct (cut b) as [[l r]|] eqn:Hc; [|exact Hc].
  specialize (IH r). apply cut_length in Hc.
  destruct (drain f r) as [lines b'] eqn:Hd. cbn [snd] in *. apply IH. lia.
Qed.

Lemma drain_app (f F F' : nat) (x y : string) :
  (String.length x < f)%nat ->
  (String.length (x +:+ y) < F)%nat ->
  (String.length ((drain f x).2 +:+ y) < F')%nat ->
  drain F (x +:+ y)
  = ((drain f x).1 ++ (drain F' ((drain f x).2 +:+ y)).1,
     (drain F' ((drain f x).2 +:+ y)).2).
Proof.
  revert F x. induction f as [|f IH]; intros F x Hf HF HF'; [lia|].
  cbn [drain] in *. destruct (cut x) as [[l r]|] eqn:Hc.
  - destruct F as [|F]; [lia|]. cbn [drain].
    rewrite (cut_app_Some _ y _ _ Hc).
    pose proof (cut_length _ _ _ Hc) as Hlen.
    destruct (drain f r) as [lines b'] eqn:Hd. cbn [fst snd] in *.
    specialize (IH F r). rewrite Hd in IH. cbn [fst snd] in IH.
    rewrite IH; [| lia | rewrite string_length_app in *; lia | exact HF'].
    now destruct (Nat.eqb _ 0).
  - cbn [fst snd] in *. rewrite (drain_fuel F F' _ HF HF').
    now destruct (drain F' (x +:+ y)).
Qed.

Lemma concat_empty_cons (c : string) (cs : list string) :
  String.concat EmptyString (c :: cs) = c +:+ String.concat EmptyString cs.
Proof.
  destruct cs as [|c' cs]; [|reflexivity].
  symmetry. apply string_app_nil_r.
Qed.

Lemma feed_concat (buffer : string) (chunks : list string) :
  cut buffer = None ->
  feed buffer chunks = onData buffer (String.concat EmptyString chunks).
Proof.
  revert buffer. induction chunks as [|c cs IH]; intros buffer Hb.
  - unfold onData. cbn [feed String.concat drain].
    rewrite string_app_nil_r, Hb. reflexivity.
  - cbn [feed]. rewrite concat_empty_cons.
    unfold onData at 2. rewrite <- string_app_assoc.
    pose proof (drain_rest (S (String.length (buffer +:+ c))) (buffer +:+ c)
                  (Nat.lt_succ_diag_r _)) as Hrest.
    rewrite (drain_app (S (String.length (buffer +:+ c))) _
               (S (String.length
                     ((drain (S (String.length (buffer +:+ c)))
                         (buffer +:+ c)).2
                      +:+ String.concat EmptyString cs)))
               (buffer +:+ c) (String.concat EmptyString cs));
      [| lia | lia | lia].
    unfold onData at 1.
    destruct (drain (S (String.length (buffer +:+ c))) (buffer +:+ c))
      as [lines b'] eqn:Hd.
    cbn [fst snd] in *. rewrite (IH b' Hrest). unfold onData.
    now destruct (drain _ (b' +:+ String.concat EmptyString cs)).
Qed.

Lemma trimStart_suffix (s : string) :
  exists u, s = u +:+ JsString.trimStart s.
Proof. apply stripGo_suffix. Qed.

Lemma trimEnd_prefix (s : string) :
  exists v, s = JsString.trimEnd s +:+ v.
Proof.
  unfold JsString.trimEnd.
  destruct (stripGo_suffix (map String.rev JsString.whiteSpace)
              (String.rev s) 0) as [u Hu].
  exists (String.rev u). apply (f_equal String.rev) in Hu.
  now rewrite string_rev_involutive, string_rev_app in Hu.
Qed.

Lemma trim_keeps_no_line_feed (s : string) :
  cut s = None -> cut (JsString.trim s) = None.
Proof.
  intros H. unfold JsString.trim.
  destruct (trimStart_suffix s) as [u Hu]. rewrite Hu in H.
  apply cut_app_inv in H as [_ H].
  destruct (trimEnd_prefix (JsString.trimStart s)) as [v Hv].
  rewrite Hv in H. now apply cut_app_inv in H as [H _].
Qed.

Lemma drain_lines (f : nat) (b l : string) :
  l ∈ (drain f b).1 ->
  l <> EmptyString /\ JsString.trim l = l /\ cut l = None.
Proof.
  revert b. induction f as [|f IH]; intros b; cbn [drain].
  - cbn. intros H. now apply elem_of_nil in H.
  - destruct (cut b) as [[l0 r]|] eqn:Hc.
    + specialize (IH r). destruct (drain f r) as [lines b'].
      cbn [fst] in *.
      destruct (Nat.eqb (String.length (JsString.trim l0)) 0) eqn:He;
        [exact IH|].
      intros H. apply elem_of_cons in H as [->|H]; [|now apply IH].
      split; [|split].
      * intros Hl. now rewrite Hl in He.
      * apply trim_idempotent.
      * apply trim_keeps_no_line_feed, (cut_line _ _ _ Hc).
    + cbn. intros H. now apply elem_of_nil in H.
Qed.

End ReadLinesFacts.

(** X26. The lines [readLines] delivers do not depend on how the stream is
    cut into chunks: fed chunk after chunk, the handler delivers the same
    lines in the same order, and is left with the same buffer, as when the
    whole text arrives in one chunk. *)
Theorem readLines_chunking (chunks : list string) :
  AcpSmoke.readLines chunks
  = AcpSmoke.onData EmptyString (String.concat EmptyString chunks).
Proof.
  unfold AcpSmoke.readLines.
  apply feed_concat.
  reflexivity.
Qed.

(** X27. Every line [readLines] delivers is non-empty, has no white space
    at either end and contains no line feed, and the text kept in the
    buffer for the next chunk contains no line feed: the handler's loop
    always runs until no complete line is left. *)
Theorem readLines_lines_clean (chunks : list string) :
  Forall (fun l => l <> EmptyString /\ JsString.trim l = l
                   /\ AcpSmoke.cut l = None)
         (AcpSmoke.readLines chunks).1
  /\ AcpSmoke.cut (AcpSmoke.readLines chunks).2 = None.
Proof.
  unfold AcpSmoke.readLines.
  rewrite (feed_concat EmptyString chunks eq_refl). unfold AcpSmoke.onData.
  split.
  - apply Forall_forall. intros l Hl. exact (drain_lines _ _ _ Hl).
  - apply drain_rest. lia.
Qed.

(** ** The adapter on mapped events *)

Ltac adapter_type t :=
  repeat match goal with
         | |- context [String.eqb t ?s] =>
             destruct (String.eqb_spec t s) as [->|?]
         | H : context [String.eqb t ?s] |- _ =>
             destruct (String.eqb_spec t s) as [->|?]
         end.

(** X28. Every canonical event the adapter makes from an event of the
    mapping table belongs to the workspace and names the workspace as its
    thread: [workspace_id] and [params.threadId] are both the workspace id,
    and the method is the one of the table. The adapter never returns
    [null]. *)
Theorem mapped_event_names_workspace (W : string) (event : SessionEvent)
    (m : string) (oe : option AppServerEvent) :
  Adapter.mapEventToMethod event = Some m ->
  Adapter.transformEvent W event = Ok oe ->
  exists e,
    oe = Some e
    /\ workspace_id e = W
    /\ method (message e) = m
    /\ Js.getOpt (params (message e)) "threadId" = VStr W.
Proof.
  destruct event as [t id data].
  unfold Adapter.transformEvent. intros Hm. rewrite Hm.
  revert Hm. unfold Adapter.mapEventToMethod, Adapter.mappedParams.
  cbn [ev_type ev_data ev_id].
  adapter_type t; intros Hm; try discriminate Hm;
    cbn [String.eqb Ascii.eqb Bool.eqb orb];
    destruct data as [| | b | z | s | vs | fs];
    cbn [Js.get Js.has Js.bind]; try discriminate;
    try (destruct (bool_decide _)); try (destruct (Js.nullish _));
    cbn [Js.get Js.has Js.bind];
    intros H; injection H as <-; eexists; repeat split.
Qed.

Lemma mapped_event_names_workspace_witness :
  Adapter.mapEventToMethod
    {| ev_type := "assistant.message"; ev_id := Some "m1";
       ev_data := VObj [("content", VStr "hello")] |}
  = Some "item/completed"
  /\ exists e,
       Adapter.transformEvent "ws"
         {| ev_type := "assistant.message"; ev_id := Some "m1";
            ev_data := VObj [("content", VStr "hello")] |}
       = Ok (Some e)
       /\ workspace_id e = "ws"
       /\ method (message e) = "item/completed"
       /\ Js.getOpt (params (message e)) "threadId" = VStr "ws".
Proof.
  split; [reflexivity|].
  destruct (mapped_event_names_workspace "ws"
              {| ev_type := "assistant.message"; ev_id := Some "m1";
                 ev_data := VObj [("content", VStr "hello")] |}
              "item/completed" _ eq_refl eq_refl)
    as (e & He & Hw & Hm & Ht).
  exists e. split; [now rewrite <- He|]. now split.
Defined.

(** X29. When the adapter throws. [transformEvent] throws exactly at an
    event of one of the seven mapped types that read their data whose data
    is [undefined] or [null], and at an [assistant.reasoning] or
    [assistant.reasoning_delta] event whose data is a boolean, a number or
    a string; the event callback then emits nothing. Every other event is
    translated, never to [null]; an event outside the mapping table
    without data gets the empty object as its params. *)
Theorem adapter_throws_exactly (W : string) (event : SessionEvent) :
  if Adapter.throwsOn event
  then exists msg, Adapter.transformEvent W event = Throw msg
  else exists e,
         Adapter.transformEvent W event = Ok (Some e)
         /\ workspace_id e = W
         /\ match Adapter.mapEventToMethod event with
            | Some m => method (message e) = m
            | None =>
                method (message e) = "copilot/" +:+ ev_type event
                /\ params (message e)
                   = Js.coalesce (ev_data event) (VObj [])
            end.
Proof.
  destruct event as [t id data].
  unfold Adapter.throwsOn, Adapter.readsData, Adapter.testsData,
    Adapter.transformEvent, Adapter.mapEventToMethod, Adapter.mappedParams.
  cbn [ev_type ev_data ev_id existsb].
  destruct data as [| | b | z | s | vs | fs];
    cbn [Js.nullish Adapter.primitive andb orb];
    adapter_type t;
    cbn [String.eqb Ascii.eqb Bool.eqb orb andb];
    cbn [Js.get Js.has Js.bind];
    try (destruct (bool_decide _)); try (destruct (Js.nullish _));
    cbn [Js.get Js.has Js.bind];
    eexists; try reflexivity; repeat split.
Qed.
